(** * update_scholar_publications.py: a shallow embedding and its properties

    The script fetches the publication list of a Google Scholar profile page
    by page, removes duplicates, sorts by year and writes a JSON data file.

    Modelling conventions.
    - A Python [str] is a [string]; a character is its code point, so the
      model covers texts whose code points are below 256 (Latin-1).  The
      character predicates below ([isspace], [isdigit], [lower]) are
      Python's on that range.
    - Python [int] is [Z].
    - Exceptions are values of [exn]; code that may raise returns a
      [result].
    - The network, the file system and the clock are an explicit
      environment; what the program does to them is recorded in a trace of
      [event]s.
    - The HTML parser (BeautifulSoup), [urllib.parse.unquote] and the
      check [urllib.parse.urlparse] makes of a bracketed host are library
      code outside the script and are taken as parameters; so are the
      answers of the file system when the data file is written. *)

From Stdlib Require Import ZArith NArith Ascii String List Bool Lia.
From Stdlib Require Import Permutation Sorted QArith Lqa DecimalString.
From Stdlib Require Import DecimalPos.
From stdpp Require Import gmap strings list.

Local Open Scope Z_scope.

(** ** Characters and strings *)

Module Str.

Definition ord (c : ascii) : N := N_of_ascii c.

Definition in_range (lo hi : N) (c : ascii) : bool :=
  ((lo <=? ord c) && (ord c <=? hi))%N.

(** [c.isspace()]: TAB..CR, FS..US, SPACE, NEL and NBSP. *)
Definition isspace (c : ascii) : bool :=
  in_range 9 13 c || in_range 28 31 c || (ord c =? 32)%N
  || (ord c =? 133)%N || (ord c =? 160)%N.

(** Characters of Unicode category Nd below 256: the ASCII digits. *)
Definition isdecimal (c : ascii) : bool := in_range 48 57 c.

(** [c.isdigit()]: the decimal digits and the superscript digits
    U+00B2, U+00B3 and U+00B9. *)
Definition isdigit (c : ascii) : bool :=
  isdecimal c || (ord c =? 178)%N || (ord c =? 179)%N || (ord c =? 185)%N.

(** [c.lower()]: A..Z and the capital letters U+00C0..U+00DE other than
    the multiplication sign U+00D7 move up by 32. *)
Definition lower_char (c : ascii) : ascii :=
  if in_range 65 90 c || (in_range 192 222 c && negb (ord c =? 215)%N)
  then ascii_of_N (ord c + 32) else c.

Fixpoint map (f : ascii -> ascii) (s : string) : string :=
  match s with
  | EmptyString => EmptyString
  | String c r => String (f c) (map f r)
  end.

Fixpoint forallb (p : ascii -> bool) (s : string) : bool :=
  match s with
  | EmptyString => true
  | String c r => p c && forallb p r
  end.

Fixpoint existsb (p : ascii -> bool) (s : string) : bool :=
  match s with
  | EmptyString => false
  | String c r => p c || existsb p r
  end.

Definition is_empty (s : string) : bool :=
  match s with EmptyString => true | _ => false end.

(** [s.lower()] *)
Definition lower (s : string) : string := map lower_char s.

(** [s.lstrip()] *)
Fixpoint lstrip (s : string) : string :=
  match s with
  | String c r => if isspace c then lstrip r else s
  | EmptyString => EmptyString
  end.

(** [s.rstrip()] *)
Fixpoint rstrip (s : string) : string :=
  match s with
  | EmptyString => EmptyString
  | String c r =>
      match rstrip r with
      | EmptyString => if isspace c then EmptyString else String c EmptyString
      | r' => String c r'
      end
  end.

(** [s.strip()] *)
Definition strip (s : string) : string := rstrip (lstrip s).

(** [s.startswith(p)] *)
Fixpoint startswith (p s : string) : bool :=
  match p, s with
  | EmptyString, _ => true
  | String a p', String b s' => if ascii_dec a b then startswith p' s' else false
  | String _ _, EmptyString => false
  end.

(** [s.endswith(p)] *)
Definition endswith (p s : string) : bool :=
  startswith (String.rev p) (String.rev s).

(** [p in s] *)
Fixpoint contains (p s : string) : bool :=
  startswith p s ||
  match s with
  | EmptyString => false
  | String _ r => contains p r
  end.

(** [s[n:]] for [n >= 0] *)
Fixpoint drop (n : nat) (s : string) : string :=
  match n, s with
  | O, _ => s
  | S n', String _ r => drop n' r
  | S _, EmptyString => EmptyString
  end.

(** [s[1:-1]] *)
Definition slice_1_m1 (s : string) : string :=
  match s with
  | EmptyString => EmptyString
  | String _ r => String.rev (drop 1 (String.rev r))
  end.

(** [s.partition(sep)] for a one-character separator: the text before the
    first [sep], and the text after it when there is one. *)
Fixpoint partition (sep : ascii) (s : string) : string * option string :=
  match s with
  | EmptyString => (EmptyString, None)
  | String c r =>
      if ascii_dec c sep then (EmptyString, Some r)
      else let '(a, b) := partition sep r in (String c a, b)
  end.

(** [s.split(sep)] for a one-character separator. *)
Fixpoint split (sep : ascii) (s : string) : list string :=
  match s with
  | EmptyString => [EmptyString]
  | String c r =>
      if ascii_dec c sep then EmptyString :: split sep r
      else match split sep r with
           | h :: t => String c h :: t
           | [] => [String c EmptyString]
           end
  end.

(** [s.replace(a, b)] for one-character [a]. *)
Fixpoint replace (a : ascii) (b : string) (s : string) : string :=
  match s with
  | EmptyString => EmptyString
  | String c r =>
      if ascii_dec c a then b +:+ replace a b r else String c (replace a b r)
  end.

Fixpoint concat (l : list string) : string :=
  match l with
  | [] => EmptyString
  | s :: r => s +:+ concat r
  end.

End Str.

(** ** Exceptions and results *)

Inductive exn : Type :=
  | HTTPError (status : Z)        (* requests.exceptions.HTTPError *)
  | RequestException              (* any other failure inside [session.get] *)
  | RuntimeError (msg : string)
  | ValueError (msg : string)
  | OverflowError (msg : string)
  | FileNotFoundError (path : string)
  | IsADirectoryError (path : string)
  | PermissionError (path : string)
  | FileExistsError (path : string)
  | OSError (path : string)
  | SystemExit (msg : string).

Inductive result (A : Type) : Type :=
  | Ok (a : A)
  | Raise (e : exn).
Arguments Ok {A} a.
Arguments Raise {A} e.

Definition rbind {A B} (r : result A) (k : A -> result B) : result B :=
  match r with
  | Ok a => k a
  | Raise e => Raise e
  end.

Declare Scope result_scope.
Delimit Scope result_scope with result.
Notation "x <- r ;; k" := (rbind r (fun x => k))
  (at level 100, r at next level, right associativity) : result_scope.

(** ** Record Extractor *)

(** [s.isdigit()]: at least one character, and every character a digit. *)
Definition str_isdigit (s : string) : bool :=
  negb (Str.is_empty s) && Str.forallb Str.isdigit s.

Fixpoint decimal_value (acc : Z) (s : string) : Z :=
  match s with
  | EmptyString => acc
  | String c r => decimal_value (10 * acc + Z.of_N (Str.ord c - 48)) r
  end.

(** [sys.int_info.default_max_str_digits]: the longest text [int]
    converts. *)
Definition max_str_digits : nat := 4300.

(** [int(s)], on the texts the script passes to it.  Python's [int] reads
    decimal digits only; a superscript digit is a [ValueError], and so is
    a text of more than [max_str_digits] digits.  It also accepts
    surrounding white space, a sign and single underscores between
    digits, which this model rejects: no such character satisfies
    [isdigit] (lemma [isdigit_plain] below), and the script calls [int] only
    behind [isdigit]. *)
Definition py_int (s : string) : result Z :=
  if negb (Str.is_empty s) && Str.forallb Str.isdecimal s
  then if (max_str_digits <? String.length s)%nat
       then Raise (ValueError "Exceeds the limit (4300 digits) for integer string conversion")
       else Ok (decimal_value 0 s)
  else Raise (ValueError "invalid literal for int() with base 10").

(** [int(year_text) if year_text.isdigit() else 0] *)
Definition parse_year (year_text : string) : result Z :=
  if str_isdigit year_text then py_int year_text else Ok 0.

(** A publication record, the dict built in [parse_publications]. *)
Record publication : Type := Publication {
  title : string;
  authors : string;
  venue : string;
  year : Z;
  scholar_url : string;
}.

(** What the script reads from one [tr.gsc_a_tr] element: the anchor
    [a.gsc_a_at] when present, with its text ([get_text(" ", strip=True)])
    and its [href] attribute when present; the texts of the [div.gs_gray]
    elements in document order; the text of [td.gsc_a_y]
    ([get_text(strip=True)]) when present. *)
Record anchor : Type := Anchor {
  anchor_text : string;
  anchor_href : option string;
}.

Record row : Type := Row {
  title_el : option anchor;
  gs_gray : list string;
  year_cell : option string;
}.

(** The link of a row: [href] stripped; empty stays empty, a path gets the
    origin prepended, anything else is kept. *)
Definition resolve_href (href : string) : string :=
  if Str.is_empty href then ""
  else if Str.startswith "/" href then "https://scholar.google.com" +:+ href
  else href.

(** One iteration of the loop over the rows: [None] for a row without a
    title anchor, which the loop skips. *)
Definition parse_row (r : row) : result (option publication) :=
  match title_el r with
  | None => Ok None
  | Some title_el =>
      let title := anchor_text title_el in
      let href := Str.strip (default "" (anchor_href title_el)) in
      let scholar_url := resolve_href href in
      let authors := default "" (gs_gray r !! 0%nat) in
      let venue := default "" (gs_gray r !! 1%nat) in
      let year_text := default "" (year_cell r) in
      (year <- parse_year year_text ;;
       Ok (Some {| title := title; authors := authors; venue := venue;
                   year := year; scholar_url := scholar_url |}))%result
  end.

Fixpoint parse_rows (rows : list row) (publications : list publication)
  : result (list publication) :=
  match rows with
  | [] => Ok publications
  | r :: rest =>
      (p <- parse_row r ;;
       match p with
       | None => parse_rows rest publications
       | Some pub => parse_rows rest (publications ++ [pub])
       end)%result
  end.

(** ** The environment and the trace *)

(** What [session.get] comes back with: a response with its status code and
    body text, or no response at all (connection error, timeout), in which
    case [requests] raises. *)
Inductive response : Type :=
  | Response (status_code : Z) (text : string)
  | NoResponse.

Inductive event : Type :=
  | EvGet (url : string) (r : response)
  | EvSleep (seconds : Q)
  | EvMakedirs (path : string)
  | EvWrite (path : string) (content : string).

(** A calendar date, [datetime.date]. *)
Record date : Type := Date { d_year : Z; d_month : Z; d_day : Z }.

(** The world around one run.  The answer of the server may depend on
    everything that happened before the request. *)
Record env : Type := Env {
  net : list event -> string -> response;
  file : string -> option string;
  today : date;
}.

(** Programs with effects: a trace of events is threaded through, and a
    result or an exception comes out. *)
Definition prog (A : Type) : Type := list event -> result A * list event.

Definition ret {A} (a : A) : prog A := fun tr => (Ok a, tr).
Definition raise {A} (e : exn) : prog A := fun tr => (Raise e, tr).
Definition lift {A} (r : result A) : prog A := fun tr => (r, tr).
Definition emit (ev : event) : prog unit := fun tr => (Ok tt, tr ++ [ev]).
Definition bind {A B} (m : prog A) (k : A -> prog B) : prog B :=
  fun tr =>
    match m tr with
    | (Ok a, tr') => k a tr'
    | (Raise e, tr') => (Raise e, tr')
    end.

Declare Scope prog_scope.
Delimit Scope prog_scope with prog.
Notation "x <- m ;; k" := (bind m (fun x => k))
  (at level 100, m at next level, right associativity) : prog_scope.
Notation "m ;; k" := (bind m (fun _ => k))
  (at level 100, right associativity) : prog_scope.

(** ** Building the request *)

Module Url.

Definition hex_digit (n : N) : ascii :=
  if (n <? 10)%N then ascii_of_N (48 + n) else ascii_of_N (55 + n).

(** ["%XX"] with upper-case hexadecimal digits. *)
Definition percent (byte : N) : string :=
  String "%" (String (hex_digit (byte / 16)) (String (hex_digit (byte mod 16)) "")).

(** The characters [quote_plus] never quotes: letters, digits and [_.-~]. *)
Definition unreserved (c : ascii) : bool :=
  Str.in_range 65 90 c || Str.in_range 97 122 c || Str.in_range 48 57 c
  || (Str.ord c =? 95)%N || (Str.ord c =? 46)%N || (Str.ord c =? 45)%N
  || (Str.ord c =? 126)%N.

(** [quote_plus] of one character: a space becomes [+]; other characters
    are quoted byte by byte over their UTF-8 encoding. *)
Definition quote_char (c : ascii) : string :=
  let n := Str.ord c in
  if unreserved c then String c ""
  else if (n =? 32)%N then "+"
  else if (n <? 128)%N then percent n
  else percent (192 + n / 64) +:+ percent (128 + n mod 64).

Fixpoint quote_plus (s : string) : string :=
  match s with
  | EmptyString => EmptyString
  | String c r => quote_char c +:+ quote_plus r
  end.

(** [str(n)] for an integer. *)
Definition str_of_int (n : Z) : string :=
  DecimalString.NilZero.string_of_int (Z.to_int n).

(** [urlencode] of a dict whose values are texts, in insertion order. *)
Fixpoint urlencode (params : list (string * string)) : string :=
  match params with
  | [] => ""
  | [(k, v)] => quote_plus k +:+ "=" +:+ quote_plus v
  | (k, v) :: rest => quote_plus k +:+ "=" +:+ quote_plus v +:+ "&" +:+ urlencode rest
  end.

End Url.

Definition build_list_url (user_id : string) (start pagesize : Z) : string :=
  let params :=
    [ ("hl", "en");
      ("user", user_id);
      ("view_op", "list_works");
      ("sortby", "pubdate");
      ("cstart", Url.str_of_int start);
      ("pagesize", Url.str_of_int pagesize) ] in
  "https://scholar.google.com/citations?" +:+ Url.urlencode params.

(** ** The configuration file and the profile URL *)

(** The fragment of regular expressions the script's pattern uses, with
    the backtracking order of Python's [re]: a greedy star over a
    character class tries the longest run first, a lazy plus the shortest. *)
Module Re.

Inductive item : Type :=
  | Lit (s : string)                      (* a literal text *)
  | Star (cls : ascii -> bool)            (* [c*], greedy *)
  | GroupPlusLazy (cls : ascii -> bool)   (* [(c+?)], the capturing group *)
  | Eol.                                  (* [$], not in MULTILINE mode *)

(** [\s] *)
Definition space : ascii -> bool := Str.isspace.

(** [.], not in DOTALL mode: anything but a line feed. *)
Definition dot (c : ascii) : bool := negb (Str.ord c =? 10)%N.

(** [run items s cap]: match [items] at the head of [s]; [cap] is the text
    of the group so far.  A match returns the text of the group. *)
Fixpoint run (items : list item) : string -> string -> option string :=
  match items with
  | [] => fun _ cap => Some cap
  | Lit l :: rest => fun s cap =>
      if Str.startswith l s then run rest (Str.drop (String.length l) s) cap
      else None
  | Star cls :: rest =>
      fix star (s cap : string) : option string :=
        match s with
        | String c r =>
            if cls c then
              match star r cap with
              | Some g => Some g
              | None => run rest s cap
              end
            else run rest s cap
        | EmptyString => run rest s cap
        end
  | GroupPlusLazy cls :: rest => fun s _ =>
      (fix plus (s acc : string) : option string :=
         match s with
         | String c r =>
             if cls c then
               let acc := acc +:+ String c "" in
               match run rest r acc with
               | Some g => Some g
               | None => plus r acc
               end
             else None
         | EmptyString => None
         end) s ""
  | Eol :: rest => fun s cap =>
      match s with
      | EmptyString => run rest s cap
      | String c EmptyString =>
          if (Str.ord c =? 10)%N then run rest s cap else None
      | _ => None
      end
  end.

(** [pattern.match(s).group(1)], or [None] when there is no match. *)
Definition match_group (pattern : list item) (s : string) : option string :=
  run pattern s "".

End Re.

(** [^\s*googlescholar\s*:\s*(.+?)\s*$]; the leading [^] adds nothing
    under [match], which anchors at the start. *)
Definition pattern : list Re.item :=
  [ Re.Star Re.space; Re.Lit "googlescholar"; Re.Star Re.space; Re.Lit ":";
    Re.Star Re.space; Re.GroupPlusLazy Re.dot; Re.Star Re.space; Re.Eol ].

Definition squote : string := "'".
Definition dquote : string := String "034"%char "".

(** Iterating over a text file opened with universal newlines: the lines
    with their line ends, where [\r] and [\r\n] read as [\n]. *)
Fixpoint readlines (content : string) : list string :=
  match content with
  | EmptyString => []
  | String c r =>
      if (Str.ord c =? 10)%N then String c "" :: readlines r
      else if (Str.ord c =? 13)%N then
        String "010"%char "" ::
        match r with
        | String c' r' => if (Str.ord c' =? 10)%N then readlines r' else readlines r
        | EmptyString => []
        end
      else
        match readlines r with
        | [] => [String c ""]
        | l :: ls => String c l :: ls
        end
  end.

(** The loop over the lines of the configuration file. *)
Fixpoint scan_config_lines (lines : list string) : option string :=
  match lines with
  | [] => None
  | line :: rest =>
      if Str.startswith "#" (Str.lstrip line) then scan_config_lines rest
      else
        match Re.match_group pattern line with
        | Some group1 =>
            let value := Str.strip group1 in
            let value :=
              if (Str.startswith squote value || Str.startswith dquote value)
                 && (Str.endswith squote value || Str.endswith dquote value)
              then Str.slice_1_m1 value else value in
            Some value
        | None => scan_config_lines rest
        end
  end.

(** [urllib.parse]: the query component of a URL, and the query as a list
    of name and value pairs. *)
Module UrlParse.

Definition is_char (n : N) (c : ascii) : bool := (Str.ord c =? n)%N.

Definition scheme_char (c : ascii) : bool :=
  Str.in_range 97 122 c || Str.in_range 65 90 c || Str.in_range 48 57 c
  || is_char 43 c || is_char 45 c || is_char 46 c.

Definition ascii_alpha (c : ascii) : bool :=
  Str.in_range 97 122 c || Str.in_range 65 90 c.

(** Leading C0 control characters and spaces are stripped; tabs and line
    ends are removed everywhere. *)
Fixpoint lstrip_c0 (s : string) : string :=
  match s with
  | String c r => if (Str.ord c <=? 32)%N then lstrip_c0 r else s
  | EmptyString => EmptyString
  end.

Fixpoint remove_unsafe (s : string) : string :=
  match s with
  | EmptyString => EmptyString
  | String c r =>
      if is_char 9 c || is_char 10 c || is_char 13 c then remove_unsafe r
      else String c (remove_unsafe r)
  end.

(** The text after the scheme, when the URL starts with one. *)
Definition drop_scheme (url : string) : string :=
  match Str.partition ":" url with
  | (String c r as head, Some tail) =>
      if ascii_alpha c && Str.forallb scheme_char head then tail else url
  | _ => url
  end.

(** The text up to the first of [/], [?] and [#], and the rest. *)
Fixpoint splitnetloc (s : string) : string * string :=
  match s with
  | EmptyString => (EmptyString, EmptyString)
  | String c r =>
      if is_char 47 c || is_char 63 c || is_char 35 c then (EmptyString, s)
      else let '(a, b) := splitnetloc r in (String c a, b)
  end.

Section Query.

(** The check of a network location that has both square brackets: the
    host between them has to be an IPv6 or IPvFuture address ([ipaddress]
    decides); [None] when it passes, the message of the [ValueError]
    otherwise. *)
Variable netloc_check : string -> option string.

(** [urlparse(url).query].  A network location with one square bracket
    but not the other is a [ValueError], and so is one with a bracketed
    host that does not pass the check.  The check of hosts that are not
    ASCII looks for characters whose compatibility form holds one of
    [/?#@:]; no character below 256 is one, so it never raises here. *)
Definition query (url : string) : result string :=
  let url := remove_unsafe (lstrip_c0 url) in
  let url := drop_scheme url in
  (url <-
     (if Str.startswith "//" url then
        let '(netloc, rest) := splitnetloc (Str.drop 2 url) in
        if xorb (Str.existsb (is_char 91) netloc) (Str.existsb (is_char 93) netloc)
        then Raise (ValueError "Invalid IPv6 URL")
        else if Str.existsb (is_char 91) netloc
        then match netloc_check netloc with
             | Some msg => Raise (ValueError msg)
             | None => Ok rest
             end
        else Ok rest
      else Ok url) ;;
   let url := (Str.partition "#" url).1 in
   Ok (default "" (Str.partition "?" url).2))%result.

End Query.

Section ParseQs.

(** [urllib.parse.unquote], decoding percent escapes as UTF-8. *)
Variable unquote : string -> string.

(** [parse_qsl(qs)] with its default arguments: empty fields and fields
    without a value are dropped. *)
Fixpoint parse_fields (fields : list string) : list (string * string) :=
  match fields with
  | [] => []
  | name_value :: rest =>
      if Str.is_empty name_value then parse_fields rest
      else
        let '(name, value) := Str.partition "=" name_value in
        match value with
        | Some (String _ _ as value) =>
            (unquote (Str.replace "+" " " name),
             unquote (Str.replace "+" " " value)) :: parse_fields rest
        | _ => parse_fields rest
        end
  end.

Definition parse_qsl (qs : string) : list (string * string) :=
  if Str.is_empty qs then [] else parse_fields (Str.split "&" qs).

(** [parse_qs(qs).get(name)]: the values given to [name], in order, or
    [None] when there is none. *)
Definition parse_qs_get (qs name : string) : option (list string) :=
  match List.filter (fun nv => bool_decide (nv.1 = name)) (parse_qsl qs) with
  | [] => None
  | nvs => Some (List.map snd nvs)
  end.

End ParseQs.

End UrlParse.

Section ExtractUserId.

Variable netloc_check : string -> option string.
Variable unquote : string -> string.

Definition extract_user_id (scholar_url : string) : result (option string) :=
  (query <- UrlParse.query netloc_check scholar_url ;;
   match UrlParse.parse_qs_get unquote query "user" with
   | Some (user_id :: _) => Ok (Some user_id)
   | _ => Ok None
   end)%result.

End ExtractUserId.

(** ** The output document *)

(** [list.sort(key=lambda item: item["year"], reverse=True)]: a stable
    sort, so records with the same year keep their order.  Insertion from
    the right end is one such sort. *)
Fixpoint insert_by_year (p : publication) (l : list publication)
  : list publication :=
  match l with
  | [] => [p]
  | q :: r => if year p <? year q then q :: insert_by_year p r else p :: l
  end.

Definition sort_by_year_desc (l : list publication) : list publication :=
  fold_right insert_by_year [] l.

(** The values [json.dump] is given here. *)
#[warnings="-register-all"] Inductive json : Type :=
  | JString (s : string)
  | JInt (n : Z)
  | JList (items : list json)
  | JDict (fields : list (string * json)).

Module Json.

Definition backslash : string := String "092"%char "".

Definition hex_digit (n : N) : ascii :=
  if (n <? 10)%N then ascii_of_N (48 + n) else ascii_of_N (87 + n).

(** [\u00XX] *)
Definition escape_u (n : N) : string :=
  backslash +:+ "u00" +:+
  String (hex_digit (n / 16)) (String (hex_digit (n mod 16)) "").

(** [ensure_ascii=True]: the quote, the backslash and everything outside
    SPACE..TILDE is escaped. *)
Definition escape_char (c : ascii) : string :=
  let n := Str.ord c in
  if (n =? 34)%N then backslash +:+ dquote
  else if (n =? 92)%N then backslash +:+ backslash
  else if (n =? 10)%N then backslash +:+ "n"
  else if (n =? 13)%N then backslash +:+ "r"
  else if (n =? 9)%N then backslash +:+ "t"
  else if (n =? 12)%N then backslash +:+ "f"
  else if (n =? 8)%N then backslash +:+ "b"
  else if Str.in_range 32 126 c then String c ""
  else escape_u n.

Fixpoint escape (s : string) : string :=
  match s with
  | EmptyString => EmptyString
  | String c r => escape_char c +:+ escape r
  end.

Definition encode_string (s : string) : string :=
  dquote +:+ escape s +:+ dquote.

Fixpoint spaces (n : nat) : string :=
  match n with O => "" | S n' => " " +:+ spaces n' end.

(** A line feed and the indentation of nesting depth [level], two spaces
    a level. *)
Definition newline_indent (level : nat) : string :=
  String "010"%char (spaces (2 * level)).

Fixpoint join (sep : string) (l : list string) : string :=
  match l with
  | [] => ""
  | [s] => s
  | s :: r => s +:+ sep +:+ join sep r
  end.

(** [json.dumps(j, ensure_ascii=True, indent=2)] at nesting depth [level]. *)
Fixpoint dumps (level : nat) (j : json) : string :=
  match j with
  | JString s => encode_string s
  | JInt n => Url.str_of_int n
  | JList [] => "[]"
  | JList items =>
      "[" +:+ newline_indent (S level)
      +:+ join ("," +:+ newline_indent (S level))
               (List.map (dumps (S level)) items)
      +:+ newline_indent level +:+ "]"
  | JDict [] => "{}"
  | JDict fields =>
      "{" +:+ newline_indent (S level)
      +:+ join ("," +:+ newline_indent (S level))
               (List.map (fun kv => encode_string (fst kv) +:+ ": "
                                    +:+ dumps (S level) (snd kv)) fields)
      +:+ newline_indent level +:+ "}"
  end.

End Json.

Definition json_of_publication (p : publication) : json :=
  JDict [ ("title", JString (title p));
          ("authors", JString (authors p));
          ("venue", JString (venue p));
          ("year", JInt (year p));
          ("scholar_url", JString (scholar_url p)) ].

(** [s.zfill(width)] for a text without sign. *)
Definition zfill (width : nat) (s : string) : string :=
  Str.concat (List.repeat "0" (width - String.length s)) +:+ s.

(** [date.isoformat()]: [YYYY-MM-DD]. *)
Definition isoformat (d : date) : string :=
  zfill 4 (Url.str_of_int (d_year d)) +:+ "-"
  +:+ zfill 2 (Url.str_of_int (d_month d)) +:+ "-"
  +:+ zfill 2 (Url.str_of_int (d_day d)).

(** [os.path.dirname] on POSIX: the text up to the last [/], without
    trailing slashes unless it consists of slashes only; and
    [os.path.basename], the text after the last [/]. *)
Module Path.

Definition is_slash (c : ascii) : bool := (Str.ord c =? 47)%N.

Fixpoint lstrip_slash (s : string) : string :=
  match s with
  | String c r => if is_slash c then lstrip_slash r else s
  | EmptyString => EmptyString
  end.

(** The reversed path from its first [/] on. *)
Fixpoint from_slash (s : string) : string :=
  match s with
  | String c r => if is_slash c then s else from_slash r
  | EmptyString => EmptyString
  end.

Definition dirname (p : string) : string :=
  let head := from_slash (String.rev p) in
  if Str.forallb is_slash head then String.rev head
  else String.rev (lstrip_slash head).

(** The reversed path up to its first [/]. *)
Fixpoint until_slash (s : string) : string :=
  match s with
  | String c r => if is_slash c then EmptyString else String c (until_slash r)
  | EmptyString => EmptyString
  end.

Definition basename (p : string) : string :=
  String.rev (until_slash (String.rev p)).

(** A path whose last component is empty, [.] or [..] names a
    directory. *)
Definition names_directory (p : string) : bool :=
  let name := basename p in
  Str.is_empty name || String.eqb name "." || String.eqb name "..".

End Path.

(** ** Page Fetcher and Pagination Driver *)

(** The identity key of a record: [(pub["title"].lower(), pub["year"])]. *)
Definition key_of (pub : publication) : string * Z :=
  (Str.lower (title pub), year pub).

(** The state of the [while] loop of [collect_publications]. *)
Record loop_state : Type := LoopState {
  start : Z;
  pages_fetched : Z;
  seen : gset (string * Z);
  all_publications : list publication;
}.

Inductive control : Type := Break | Continue.

(** How a run of a loop under a bound on its iterations ends. *)
Inductive outcome (A : Type) : Type :=
  | Finished (r : result A) (tr : list event)
  | OutOfFuel (tr : list event).
Arguments Finished {A} r tr.
Arguments OutOfFuel {A} tr.

(** The body of [for pub in page_publications]. *)
Definition merge_pub (acc : gset (string * Z) * list publication)
    (pub : publication) : gset (string * Z) * list publication :=
  let key := key_of pub in
  if decide (key ∈ acc.1) then acc
  else ({[ key ]} ∪ acc.1, acc.2 ++ [pub]).

Definition merge_page (acc : gset (string * Z) * list publication)
    (page_publications : list publication)
  : gset (string * Z) * list publication :=
  fold_left merge_pub page_publications acc.

(** [response.raise_for_status()] raises for 4xx and 5xx. *)
Definition is_error_status (status_code : Z) : bool :=
  (400 <=? status_code) && (status_code <? 600).

Definition blocked_marker : string := "unusual traffic".
Definition blocked_message : string :=
  "Google Scholar blocked the request due to unusual traffic.".

(** A Python [float], the type of the inter-page delay; a finite value is
    read as a rational number. *)
Inductive pyfloat : Type :=
  | Finite (q : Q)
  | PosInf
  | NegInf
  | NaN.

Coercion Finite : Q >-> pyfloat.

(** [x > 0] *)
Definition float_positive (x : pyfloat) : bool :=
  match x with
  | Finite q => if Qlt_le_dec 0 q then true else false
  | PosInf => true
  | NegInf | NaN => false
  end.

(** [time.sleep] turns the delay into a count of nanoseconds that has to
    fit a signed 64-bit integer.  The product of the delay and 10^9 is
    rounded to the nearest double before the test, so the delays that are
    too large are those from (2^63 - 512) / 10^9 seconds on, and the
    negative ones those below -(2^63 + 1024) / 10^9 seconds (CPython
    3.11). *)
Definition sleep_overflows (q : Q) : bool :=
  Qle_bool (Qmake 9223372036854775296 1) (q * Qmake 1000000000 1)
  || negb (Qle_bool (Qmake (-9223372036854776832) 1) (q * Qmake 1000000000 1)).

Definition overflow_message : string :=
  "timestamp too large to convert to C _PyTime_t".

(** What the script asks of the file system when it writes the data
    file, and how the file system may refuse. *)
Inductive fs_request : Type :=
  | Makedirs (path : string)         (* [os.makedirs(path, exist_ok=True)] *)
  | OpenForWriting (path : string).  (* [open(path, "w")] *)

Inductive os_failure : Type :=
  | NotFound | IsDirectory | Denied | Exists | OtherFailure.

(** The subclass of [OSError] raised for a failure. *)
Definition os_error (f : os_failure) (path : string) : exn :=
  match f with
  | NotFound => FileNotFoundError path
  | IsDirectory => IsADirectoryError path
  | Denied => PermissionError path
  | Exists => FileExistsError path
  | OtherFailure => OSError path
  end.

Section Scraper.

(** [BeautifulSoup(html, "html.parser").select("tr.gsc_a_tr")], with what
    the script reads from each row. *)
Variable select_rows : string -> list row.

Variable E : env.

Definition parse_publications (html : string) : result (list publication) :=
  parse_rows (select_rows html) [].

(** [session.get(url, headers=HEADERS, timeout=30)] *)
Definition session_get (url : string) : prog (Z * string) :=
  fun tr =>
    let r := net E tr url in
    match r with
    | Response status_code text => (Ok (status_code, text), tr ++ [EvGet url r])
    | NoResponse => (Raise RequestException, tr ++ [EvGet url r])
    end.

Definition raise_for_status (status_code : Z) : prog unit :=
  if is_error_status status_code then raise (HTTPError status_code) else ret tt.

Definition fetch_page (url : string) : prog string :=
  (response <- session_get url ;;
   raise_for_status response.1 ;;
   let text := response.2 in
   if Str.contains blocked_marker (Str.lower text)
   then raise (RuntimeError blocked_message)
   else ret text)%prog.

(** [time.sleep(sleep_seconds)]: [OverflowError] for a delay that is
    too large or infinite, [ValueError] for a negative one and for NaN. *)
Definition time_sleep (sleep_seconds : pyfloat) : prog unit :=
  match sleep_seconds with
  | Finite q =>
      if sleep_overflows q then raise (OverflowError overflow_message)
      else if Qlt_le_dec q 0
      then raise (ValueError "sleep length must be non-negative")
      else emit (EvSleep q)
  | PosInf | NegInf => raise (OverflowError overflow_message)
  | NaN => raise (ValueError "Invalid value NaN (not a number)")
  end.

Section Collect.

Variable user_id : string.
Variable pagesize : Z.
Variable sleep_seconds : pyfloat.
Variable max_pages : Z.

(** One iteration of [while True]. *)
Definition loop_body (st : loop_state) : prog (control * loop_state) :=
  (let url := build_list_url user_id (start st) pagesize in
   html <- fetch_page url ;;
   page_publications <- lift (parse_publications html) ;;
   match page_publications with
   | [] => ret (Break, st)
   | _ =>
     let '(seen', all') :=
       merge_page (seen st, all_publications st) page_publications in
     let st := {| start := start st; pages_fetched := pages_fetched st;
                  seen := seen'; all_publications := all' |} in
     if Z.of_nat (length page_publications) <? pagesize then ret (Break, st)
     else
       let st := {| start := start st; pages_fetched := pages_fetched st + 1;
                    seen := seen st; all_publications := all_publications st |} in
       if negb (max_pages =? 0) && (max_pages <=? pages_fetched st)
       then ret (Break, st)
       else
         let st := {| start := start st + pagesize;
                      pages_fetched := pages_fetched st;
                      seen := seen st; all_publications := all_publications st |} in
         (if float_positive sleep_seconds then time_sleep sleep_seconds
          else ret tt) ;;
         ret (Continue, st)
   end)%prog.

(** [while True], cut off after [fuel] iterations. *)
Fixpoint while_loop (fuel : nat) (st : loop_state) (tr : list event)
  : outcome loop_state :=
  match fuel with
  | O => OutOfFuel tr
  | S fuel' =>
      match loop_body st tr with
      | (Raise e, tr') => Finished (Raise e) tr'
      | (Ok (Break, st'), tr') => Finished (Ok st') tr'
      | (Ok (Continue, st'), tr') => while_loop fuel' st' tr'
      end
  end.

Definition initial_state : loop_state :=
  {| start := 0; pages_fetched := 0; seen := ∅; all_publications := [] |}.

Definition collect_publications (fuel : nat) (tr : list event)
  : outcome (list publication) :=
  match while_loop fuel initial_state tr with
  | Finished (Ok st) tr' => Finished (Ok (all_publications st)) tr'
  | Finished (Raise e) tr' => Finished (Raise e) tr'
  | OutOfFuel tr' => OutOfFuel tr'
  end.

End Collect.

(** ** Writing the data file and the entry point *)

(** What the file system answers to a request, given what happened
    before: [None] when it does what is asked. *)
Variable fs : list event -> fs_request -> option os_failure.

(** [os.makedirs(path, exist_ok=True)]; the empty path is an error on
    every file system. *)
Definition makedirs (path : string) : prog unit :=
  fun tr =>
    if Str.is_empty path then (Raise (FileNotFoundError path), tr)
    else match fs tr (Makedirs path) with
         | Some failure => (Raise (os_error failure path), tr)
         | None => (Ok tt, tr ++ [EvMakedirs path])
         end.

(** [with open(path, "w", encoding="utf-8") as handle], and the writes to
    [handle] that make up [content]: one event with the whole content.
    A path that names a directory is not opened by any file system; once
    the file is open, writing to it is taken to succeed. *)
Definition write_file (path content : string) : prog unit :=
  fun tr =>
    match fs tr (OpenForWriting path) with
    | Some failure => (Raise (os_error failure path), tr)
    | None =>
        if Path.names_directory path then (Raise (IsADirectoryError path), tr)
        else (Ok tt, tr ++ [EvWrite path content])
    end.

(** The dict that is serialized. *)
Definition output_data (scholar_url : string) (publications : list publication)
  : json :=
  JDict [ ("source", JString scholar_url);
          ("last_updated", JString (isoformat (today E)));
          ("publications", JList (List.map json_of_publication publications)) ].

(** The directory is made, the file opened for writing, the document
    dumped and a line feed added. *)
Definition write_output (output_path scholar_url : string)
    (publications : list publication) : prog unit :=
  (let publications := sort_by_year_desc publications in
   let data := output_data scholar_url publications in
   makedirs (Path.dirname output_path) ;;
   write_file output_path (Json.dumps 0 data +:+ String "010"%char ""))%prog.

(** The content of the data file. *)
Definition output_document (scholar_url : string)
    (publications : list publication) : string :=
  Json.dumps 0 (output_data scholar_url (sort_by_year_desc publications))
  +:+ String "010"%char "".

Definition parse_config_scholar_url (config_path : string) : option string :=
  match file E config_path with
  | None => None
  | Some content => scan_config_lines (readlines content)
  end.

(** The command line after [argparse]. *)
Record args : Type := Args {
  arg_scholar_url : option string;
  arg_config : string;
  arg_output : string;
  arg_pagesize : Z;
  arg_sleep : pyfloat;
  arg_max_pages : Z;
}.

(** The check [urlparse] makes of a bracketed host, and
    [urllib.parse.unquote]. *)
Variable netloc_check : string -> option string.
Variable unquote : string -> string.

Definition missing_url_message : string :=
  "Missing Google Scholar URL. Provide --scholar-url or set it in _config.yml.".
Definition missing_user_message : string :=
  "Unable to parse user ID from Google Scholar URL.".

(** [a or b] on optional texts: [None] and the empty text are false. *)
Definition truthy (s : option string) : bool :=
  match s with
  | Some (String _ _) => true
  | _ => false
  end.

Definition main (fuel : nat) (a : args) : outcome unit :=
  let scholar_url :=
    if truthy (arg_scholar_url a) then arg_scholar_url a
    else parse_config_scholar_url (arg_config a) in
  match scholar_url with
  | Some (String _ _ as scholar_url) =>
      match extract_user_id netloc_check unquote scholar_url with
      | Raise e => Finished (Raise e) []
      | Ok (Some (String _ _ as user_id)) =>
          match collect_publications user_id (arg_pagesize a) (arg_sleep a)
                  (arg_max_pages a) fuel [] with
          | Finished (Ok publications) tr =>
              let '(r, tr') :=
                write_output (arg_output a) scholar_url publications tr in
              Finished r tr'
          | Finished (Raise e) tr => Finished (Raise e) tr
          | OutOfFuel tr => OutOfFuel tr
          end
      | Ok _ => Finished (Raise (SystemExit missing_user_message)) []
      end
  | _ => Finished (Raise (SystemExit missing_url_message)) []
  end.

End Scraper.

(** ** Notions the properties are stated with *)

Definition keys (l : list publication) : list (string * Z) :=
  List.map key_of l.

(** The records of [xs] that no earlier record shares its identity key
    with; [earlier] holds the records that came before [xs]. *)
Fixpoint first_occurrences_from (earlier xs : list publication)
  : list publication :=
  match xs with
  | [] => []
  | x :: r =>
      (if bool_decide (key_of x ∈ keys earlier) then [] else [x])
      ++ first_occurrences_from (earlier ++ [x]) r
  end.

Definition first_occurrences (xs : list publication) : list publication :=
  first_occurrences_from [] xs.

(** The records with key [k]. *)
Definition with_key (k : string * Z) (l : list publication) : list publication :=
  List.filter (fun p => bool_decide (key_of p = k)) l.

(** The relation between the seen set and the accumulated list. *)
Definition seen_invariant (seen : gset (string * Z))
    (all_publications : list publication) : Prop :=
  seen = list_to_set (keys all_publications)
  ∧ NoDup (keys all_publications).

(** The state after the records of [page] were merged into [st]. *)
Definition merged (st : loop_state) (page : list publication)
    (start' pages_fetched' : Z) : loop_state :=
  let acc := merge_page (seen st, all_publications st) page in
  {| start := start'; pages_fetched := pages_fetched';
     seen := acc.1; all_publications := acc.2 |}.

(** [max_pages and pages_fetched >= max_pages] *)
Definition cap_reached (max_pages pages_fetched' : Z) : bool :=
  negb (max_pages =? 0) && (max_pages <=? pages_fetched').

(** A response that makes [fetch_page] raise. *)
Definition fetch_failed (r : response) : bool :=
  match r with
  | NoResponse => true
  | Response status_code text =>
      is_error_status status_code
      || Str.contains blocked_marker (Str.lower text)
  end.

Definition is_write (ev : event) : bool :=
  match ev with EvWrite _ _ => true | _ => false end.

Definition is_get (ev : event) : bool :=
  match ev with EvGet _ _ => true | _ => false end.

(** The events of a collection without failure: answered requests and
    sleeps. *)
Definition clean_event (ev : event) : bool :=
  match ev with
  | EvGet _ r => negb (fetch_failed r)
  | EvSleep _ => true
  | _ => false
  end.

(** The write events of a trace. *)
Definition writes (tr : list event) : list event := List.filter is_write tr.

(** The text made of the one character U+00B2, SUPERSCRIPT TWO. *)
Definition superscript_two : string := String "178"%char "".

(** [marker] occurs in [text] up to the case of letters. *)
Definition contains_ignoring_case (marker text : string) : Prop :=
  ∃ before mid after,
    text = before +:+ mid +:+ after ∧ Str.lower mid = marker.

(** [YYYY-MM-DD]: ten characters, digits but for the two hyphens. *)
Definition is_iso_date (s : string) : bool :=
  match s with
  | String y1 (String y2 (String y3 (String y4 (String h1
      (String m1 (String m2 (String h2 (String d1 (String d2 "")))))))))
    => Str.forallb Str.isdecimal
         (String y1 (String y2 (String y3 (String y4
           (String m1 (String m2 (String d1 (String d2 ""))))))))
       && bool_decide (h1 = "-"%char) && bool_decide (h2 = "-"%char)
  | _ => false
  end.

(** [n] characters, all decimal digits. *)
Definition has_digits (n : nat) (s : string) : bool :=
  (String.length s =? n)%nat && Str.forallb Str.isdecimal s.

(** The records of year [y]. *)
Definition of_year (y : Z) (l : list publication) : list publication :=
  List.filter (fun p => year p =? y) l.

(** Years do not increase along the list. *)
Definition year_descending (l : list publication) : Prop :=
  StronglySorted (fun p q => year q <= year p) l.

Definition valid_date (d : date) : Prop :=
  1 <= d_year d <= 9999 ∧ 1 <= d_month d <= 12 ∧ 1 <= d_day d <= 31.

Definition trace_of {A} (o : outcome A) : list event :=
  match o with
  | Finished _ tr => tr
  | OutOfFuel tr => tr
  end.

(** The shape of the events a loop adds to the trace: clean events, and
    after them, only when the loop ended with an exception, possibly one
    failed request. *)
Definition loop_events {A} (o : outcome A) (evs : list event) : Prop :=
  ∃ good last,
    evs = good ++ last
    ∧ forallb clean_event good = true
    ∧ (last = []
       ∨ ∃ url r e, last = [EvGet url r] ∧ fetch_failed r = true
                    ∧ o = Finished (Raise e) (trace_of o)).

Section Notions.

Variable select_rows : string -> list row.
Variable E : env.

(** The records a fetch event contributed: those extracted from the body
    of a response. *)
Definition page_of_event (ev : event) : list publication :=
  match ev with
  | EvGet _ (Response _ text) =>
      match parse_publications select_rows text with
      | Ok page => page
      | Raise _ => []
      end
  | _ => []
  end.

(** All extracted records of a trace, in page order. *)
Definition extracted_records (tr : list event) : list publication :=
  flat_map page_of_event tr.

(** The states in which an iteration of the loop starts. *)
Inductive reachable (user_id : string) (pagesize : Z) (sleep_seconds : pyfloat)
    (max_pages : Z) (tr0 : list event) : loop_state -> list event -> Prop :=
  | reach_start : reachable user_id pagesize sleep_seconds max_pages tr0
                    initial_state tr0
  | reach_next st tr st' tr' :
      reachable user_id pagesize sleep_seconds max_pages tr0 st tr ->
      loop_body select_rows E user_id pagesize sleep_seconds max_pages st tr
        = (Ok (Continue, st'), tr') ->
      reachable user_id pagesize sleep_seconds max_pages tr0 st' tr'.


End Notions.

(** The configuration line of the end-to-end scenario, and the URL it
    holds. *)
Definition scenario_config_line : string :=
  "googlescholar: https://scholar.google.com/citations?user=XYZ123".

Definition scenario_url : string :=
  "https://scholar.google.com/citations?user=XYZ123".

(** ** A small world to run the script in *)

Module Demo.

(** A toy markup: every character of the body is a row, whose title is
    that character and whose year cell reads 2020. *)
Fixpoint select_rows (html : string) : list row :=
  match html with
  | EmptyString => []
  | String c r =>
      {| title_el := Some {| anchor_text := String c ""; anchor_href := Some "/x" |};
         gs_gray := ["A Author"; "Venue"];
         year_cell := Some "2020" |} :: select_rows r
  end.

Definition count_gets (tr : list event) : nat :=
  length (List.filter is_get tr).

(** A server that answers the successive requests with the given
    responses, and with an empty page after them. *)
Definition serve (answers : list response) (tr : list event) (url : string)
  : response :=
  default (Response 200 "") (answers !! count_gets tr).

Definition world (answers : list response) : env :=
  {| net := serve answers;
     file := fun path => if bool_decide (path = "_config.yml")
                         then Some scenario_config_line else None;
     today := {| d_year := 2026; d_month := 11; d_day := 4 |} |}.

(** A file system that does whatever it is asked. *)
Definition fs (tr : list event) (request : fs_request) : option os_failure :=
  None.

(** A check of bracketed hosts that lets every host pass. *)
Definition netloc_check (netloc : string) : option string := None.

(** A stand-in for [unquote] that is right on texts without percent
    escapes. *)
Definition unquote (s : string) : string := s.

(** The record the toy markup yields for the character [c]. *)
Definition pub (c : ascii) : publication :=
  {| title := String c ""; authors := "A Author"; venue := "Venue";
     year := 2020; scholar_url := "https://scholar.google.com/x" |}.

Definition url (start pagesize : Z) : string :=
  build_list_url "XYZ123" start pagesize.

(** Two pages of two rows; the first row of the second page repeats the
    first row of the first page in another case. *)
Definition two_pages : list response :=
  [Response 200 "ab"; Response 200 "Ac"].



(** The loop state and the trace after the first page of two rows. *)
Definition after_first_page : loop_state :=
  merged initial_state [pub "a"; pub "b"] 2 1.

Definition trace_after_first_page : list event :=
  [EvGet (url 0 2) (Response 200 "ab"); EvSleep 1].

(** A full page, and then a response that reports blocking. *)
Definition blocked_second_page : list response :=
  [Response 200 "ab"; Response 200 "Our systems have detected Unusual Traffic."].

Definition cli (pagesize max_pages : Z) : args :=
  {| arg_scholar_url := None; arg_config := "_config.yml";
     arg_output := "_data/scholar_publications.json";
     arg_pagesize := pagesize; arg_sleep := 1%Q; arg_max_pages := max_pages |}.

End Demo.

(** ** Further notions *)

(** A row with a title anchor. *)
Definition has_title (r : row) : bool :=
  match title_el r with Some _ => true | None => false end.

(** The year text of a row: the text of its year cell, empty without
    one. *)
Definition year_text_of (r : row) : string := default "" (year_cell r).

(** A year text [int] does not take although [isdigit] accepts it: one
    with a digit that is not decimal, or one of more than 4300
    characters. *)
Definition bad_year_text (s : string) : bool :=
  str_isdigit s
  && (negb (Str.forallb Str.isdecimal s)
      || (max_str_digits <? String.length s)%nat).

(** The record a row with a title anchor is turned into. *)
Definition row_record (r : row) (pub : publication) : Prop :=
  ∃ a, title_el r = Some a
       ∧ title pub = anchor_text a
       ∧ authors pub = default "" (gs_gray r !! 0%nat)
       ∧ venue pub = default "" (gs_gray r !! 1%nat)
       ∧ scholar_url pub
         = resolve_href (Str.strip (default "" (anchor_href a)))
       ∧ parse_year (year_text_of r) = Ok (year pub).

(** The URLs requested in a trace, in order. *)
Definition requested (tr : list event) : list string :=
  omap (fun ev => match ev with EvGet url _ => Some url | _ => None end) tr.

(** The sleep an iteration that goes on adds to the trace. *)
Definition sleep_events (sleep_seconds : pyfloat) : list event :=
  match sleep_seconds with
  | Finite q => if Qlt_le_dec 0 q then [EvSleep q] else []
  | _ => []
  end.

(** A delay the loop hands to [time.sleep] and [time.sleep] does not
    take: a positive one of 2^63 - 512 nanoseconds or more, or
    infinity. *)
Definition sleep_fails (sleep_seconds : pyfloat) : bool :=
  match sleep_seconds with
  | Finite q =>
      (if Qlt_le_dec 0 q then true else false)
      && Qle_bool (Qmake (2 ^ 63 - 512) 1) (q * Qmake (10 ^ 9) 1)
  | PosInf => true
  | NegInf | NaN => false
  end.

(** The URL of the request for the page with number [k]. *)
Definition nth_url (user_id : string) (pagesize : Z) (k : nat) : string :=
  build_list_url user_id (Z.of_nat k * pagesize) pagesize.

(** The profile URL [main] works with: the one of the command line when
    it is given and not empty, else the one of the configuration file. *)
Definition chosen_url (E : env) (a : args) : option string :=
  if truthy (arg_scholar_url a) then arg_scholar_url a
  else parse_config_scholar_url E (arg_config a).


(** The query of the listing URL. *)
Definition list_query (user_id : string) (start pagesize : Z) : string :=
  "hl=en&user=" +:+ Url.quote_plus user_id
  +:+ "&view_op=list_works&sortby=pubdate&cstart=" +:+ Url.str_of_int start
  +:+ "&pagesize=" +:+ Url.str_of_int pagesize.

(** The characters of the decimal text of an integer. *)
Definition int_char (c : ascii) : bool :=
  Str.isdecimal c || (Str.ord c =? 45)%N.



(** The loop of a lazy plus over a character class, as in [Re.run];
    [k] matches the rest of the pattern. *)
Definition plus_lazy (cls : ascii -> bool) (k : string -> string -> option string)
  : string -> string -> option string :=
  fix plus (s acc : string) : option string :=
    match s with
    | String c r =>
        if cls c then
          let acc := acc +:+ String c "" in
          match k r acc with
          | Some g => Some g
          | None => plus r acc
          end
        else None
    | EmptyString => None
    end.

(** A line that gives the key [googlescholar] the value [v], with white
    space [w1] .. [w4] where the pattern allows it; [w4] holds the line
    end when there is one. *)
Definition key_line (w1 w2 w3 v w4 : string) : string :=
  w1 +:+ "googlescholar" +:+ w2 +:+ ":" +:+ w3 +:+ v +:+ w4.

(** The value without the quote it starts with and the quote it ends
    with, when it has both. *)
Definition without_quotes (value : string) : string :=
  if (Str.startswith squote value || Str.startswith dquote value)
     && (Str.endswith squote value || Str.endswith dquote value)
  then Str.slice_1_m1 value else value.

(** The characters of the data file: the printable ASCII characters and
    the line feed. *)
Definition printable_ascii (c : ascii) : bool :=
  Str.in_range 32 126 c || (Str.ord c =? 10)%N.

(** ** Reading the data file back *)

(** A reader of JSON texts, after the grammar of RFC 8259, for the values
    the script writes: strings, integers, arrays and objects.  It is what
    the content of the data file is measured against. *)
Module JsonRead.

(** White space: space, line feed, carriage return and tab. *)
Definition is_ws (c : ascii) : bool :=
  (Str.ord c =? 32)%N || (Str.ord c =? 10)%N || (Str.ord c =? 13)%N
  || (Str.ord c =? 9)%N.

Fixpoint skip_ws (s : string) : string :=
  match s with
  | String c r => if is_ws c then skip_ws r else s
  | EmptyString => EmptyString
  end.

Definition hex_value (c : ascii) : option N :=
  if Str.in_range 48 57 c then Some (Str.ord c - 48)%N
  else if Str.in_range 97 102 c then Some (Str.ord c - 87)%N
  else if Str.in_range 65 70 c then Some (Str.ord c - 55)%N
  else None.

(** The code point of [\uXXXX]. *)
Definition hex4 (h1 h2 h3 h4 : ascii) : option N :=
  match hex_value h1, hex_value h2, hex_value h3, hex_value h4 with
  | Some a, Some b, Some c, Some d => Some (((a * 16 + b) * 16 + c) * 16 + d)%N
  | _, _, _, _ => None
  end.

(** The character a two-character escape stands for. *)
Definition unescape (e : ascii) : option ascii :=
  let n := Str.ord e in
  if (n =? 34)%N then Some (ascii_of_N 34)
  else if (n =? 92)%N then Some (ascii_of_N 92)
  else if (n =? 47)%N then Some (ascii_of_N 47)
  else if (n =? 110)%N then Some (ascii_of_N 10)
  else if (n =? 114)%N then Some (ascii_of_N 13)
  else if (n =? 116)%N then Some (ascii_of_N 9)
  else if (n =? 102)%N then Some (ascii_of_N 12)
  else if (n =? 98)%N then Some (ascii_of_N 8)
  else None.

Definition prepend (c : ascii) (r : option (string * string))
  : option (string * string) :=
  match r with
  | Some (s, rest) => Some (String c s, rest)
  | None => None
  end.

(** The characters of a string after its opening quote, up to the
    closing quote, and the text behind it.  Control characters have to be
    escaped; code points from 256 on are outside the texts of this
    model. *)
Fixpoint read_chars (s : string) : option (string * string) :=
  match s with
  | EmptyString => None
  | String c r =>
      if (Str.ord c =? 34)%N then Some (EmptyString, r)
      else if (Str.ord c =? 92)%N then
        match r with
        | String e r1 =>
            if (Str.ord e =? 117)%N then
              match r1 with
              | String h1 (String h2 (String h3 (String h4 r2))) =>
                  match hex4 h1 h2 h3 h4 with
                  | Some n =>
                      if (n <? 256)%N then prepend (ascii_of_N n) (read_chars r2)
                      else None
                  | None => None
                  end
              | _ => None
              end
            else
              match unescape e with
              | Some c' => prepend c' (read_chars r1)
              | None => None
              end
        | EmptyString => None
        end
      else if (Str.ord c <? 32)%N then None
      else prepend c (read_chars r)
  end.

(** The decimal digits [s] starts with, and the rest. *)
Fixpoint read_digits (s : string) : string * string :=
  match s with
  | String c r =>
      if Str.isdecimal c
      then let '(digits, rest) := read_digits r in (String c digits, rest)
      else (EmptyString, s)
  | EmptyString => (EmptyString, EmptyString)
  end.

(** An integer: an optional minus sign and one digit or more. *)
Definition read_int (s : string) : option (Z * string) :=
  let '(negative, s) :=
    match s with
    | String c r => if (Str.ord c =? 45)%N then (true, r) else (false, s)
    | EmptyString => (false, s)
    end in
  match read_digits s with
  | (EmptyString, _) => None
  | (digits, rest) =>
      Some (if negative : bool then - decimal_value 0 digits
            else decimal_value 0 digits, rest)
  end.

(** A value, the elements of an array behind its bracket and the members
    of an object behind its brace; [fuel] bounds the depth of the
    recursion. *)
Fixpoint read_value (fuel : nat) (s : string) : option (json * string) :=
  match fuel with
  | O => None
  | S fuel =>
      match skip_ws s with
      | String c r =>
          if (Str.ord c =? 34)%N then
            match read_chars r with
            | Some (text, rest) => Some (JString text, rest)
            | None => None
            end
          else if (Str.ord c =? 91)%N then
            match skip_ws r with
            | String c' r' =>
                if (Str.ord c' =? 93)%N then Some (JList [], r')
                else match read_items fuel r with
                     | Some (items, rest) => Some (JList items, rest)
                     | None => None
                     end
            | EmptyString => None
            end
          else if (Str.ord c =? 123)%N then
            match skip_ws r with
            | String c' r' =>
                if (Str.ord c' =? 125)%N then Some (JDict [], r')
                else match read_members fuel r with
                     | Some (fields, rest) => Some (JDict fields, rest)
                     | None => None
                     end
            | EmptyString => None
            end
          else
            match read_int (String c r) with
            | Some (n, rest) => Some (JInt n, rest)
            | None => None
            end
      | EmptyString => None
      end
  end
with read_items (fuel : nat) (s : string) : option (list json * string) :=
  match fuel with
  | O => None
  | S fuel =>
      match read_value fuel s with
      | Some (item, r) =>
          match skip_ws r with
          | String c r' =>
              if (Str.ord c =? 44)%N then
                match read_items fuel r' with
                | Some (items, rest) => Some (item :: items, rest)
                | None => None
                end
              else if (Str.ord c =? 93)%N then Some ([item], r')
              else None
          | EmptyString => None
          end
      | None => None
      end
  end
with read_members (fuel : nat) (s : string)
  : option (list (string * json) * string) :=
  match fuel with
  | O => None
  | S fuel =>
      match skip_ws s with
      | String c r =>
          if (Str.ord c =? 34)%N then
            match read_chars r with
            | Some (name, r1) =>
                match skip_ws r1 with
                | String c1 r2 =>
                    if (Str.ord c1 =? 58)%N then
                      match read_value fuel r2 with
                      | Some (value, r3) =>
                          match skip_ws r3 with
                          | String c3 r4 =>
                              if (Str.ord c3 =? 44)%N then
                                match read_members fuel r4 with
                                | Some (fields, rest) =>
                                    Some ((name, value) :: fields, rest)
                                | None => None
                                end
                              else if (Str.ord c3 =? 125)%N
                              then Some ([(name, value)], r4)
                              else None
                          | EmptyString => None
                          end
                      | None => None
                      end
                    else None
                | EmptyString => None
                end
            | None => None
            end
          else None
      | EmptyString => None
      end
  end.

(** The number of values in [j], which bounds the depth the reader has to
    go to. *)
Fixpoint size (j : json) : nat :=
  match j with
  | JString _ | JInt _ => 1
  | JList items => S (length items + list_sum (List.map size items))
  | JDict fields =>
      S (length fields + list_sum (List.map (fun kv => size (snd kv)) fields))
  end.

(** The value a text denotes: one value, with nothing but white space
    behind it. *)
Definition loads (s : string) : option json :=
  match read_value (S (String.length s)) s with
  | Some (j, rest) => if Str.is_empty (skip_ws rest) then Some j else None
  | None => None
  end.

End JsonRead.

(** A text that does not go on with a digit. *)
Definition no_digit_head (s : string) : bool :=
  match s with
  | String c _ => negb (Str.isdecimal c)
  | EmptyString => true
  end.

(** A text of white space. *)
Definition all_ws (s : string) : bool := Str.forallb JsonRead.is_ws s.

(** The characters a JSON value written by [dumps] starts with: the
    quote, the bracket, the brace, the minus sign and the digits. *)
Definition value_start (c : ascii) : bool :=
  (Str.ord c =? 34)%N || (Str.ord c =? 91)%N || (Str.ord c =? 123)%N
  || (Str.ord c =? 45)%N || Str.isdecimal c.

(** The reader reads back what [dumps] wrote for [j], at every depth
    of nesting and whatever follows, provided what follows does not go
    on with a digit. *)
Definition reads_back (j : json) : Prop :=
  ∀ level fuel rest,
    (JsonRead.size j <= fuel)%nat -> no_digit_head rest = true ->
    JsonRead.read_value fuel (Json.dumps level j +:+ rest) = Some (j, rest).

(** The date a text [YYYY-MM-DD] denotes. *)
Definition date_of_iso (s : string) : option date :=
  match s with
  | String y1 (String y2 (String y3 (String y4 (String h1
      (String m1 (String m2 (String h2 (String d1 (String d2 "")))))))))
    => if is_iso_date s
       then Some {| d_year := decimal_value 0
                                (String y1 (String y2 (String y3 (String y4 ""))));
                    d_month := decimal_value 0 (String m1 (String m2 ""));
                    d_day := decimal_value 0 (String d1 (String d2 "")) |}
       else None
  | _ => None
  end.

(** The fields of the record a JSON object was made from. *)
Definition publication_of_json (j : json) : option publication :=
  match j with
  | JDict [("title", JString t); ("authors", JString a); ("venue", JString v);
           ("year", JInt y); ("scholar_url", JString u)] =>
      Some {| title := t; authors := a; venue := v; year := y; scholar_url := u |}
  | _ => None
  end.

(** The distance between the successive requests of a run. *)
Definition offsets (pagesize : Z) (n : nat) : list Z :=
  List.map (fun k => Z.of_nat k * pagesize) (seq 0 n).

(** The claim that a run in which some request was answered with a
    status that is no success status ends with an exception and writes
    nothing. *)
Definition failed_fetch_aborts_claim (select_rows : string -> list row)
    (E : env) (fs : list event -> fs_request -> option os_failure)
    (netloc_check : string -> option string) (unquote : string -> string)
    (fuel : nat) (a : args) : Prop :=
  let out := main select_rows E fs netloc_check unquote fuel a in
  ∀ i url status_code text,
    trace_of out !! i = Some (EvGet url (Response status_code text)) ->
    ¬ (200 <= status_code < 300) ->
    (∃ e, out = Finished (Raise e) (trace_of out))
    ∧ writes (trace_of out) = [].

(** A response with a status that is no success and no error. *)
Definition not_modified : response := Response 304 "ab".

(** A delay of ten thousand million seconds. *)
Definition huge_delay : Q := Qmake 10000000000 1.

(** * Properties *)

(** ** The model on some inputs *)

Example build_list_url_example :
  build_list_url "XYZ 123" 100 100
  = "https://scholar.google.com/citations?hl=en&user=XYZ+123&view_op=list_works&sortby=pubdate&cstart=100&pagesize=100".
Proof. reflexivity. Qed.

(** A comment is skipped, the first line with the key is taken, and the
    quotes around its value are dropped. *)
Example scan_config_lines_example :
  scan_config_lines
    ["# googlescholar: no" +:+ String "010"%char "";
     "title: x" +:+ String "010"%char "";
     "googlescholar :  'https://a/b?user=Q'  " +:+ String "010"%char "";
     "googlescholar: other"]
  = Some "https://a/b?user=Q".
Proof. reflexivity. Qed.

(** A key with white space for a value gives the empty text; a key
    without anything after the colon does not match. *)
Example scan_config_lines_blank :
  scan_config_lines ["googlescholar:  " +:+ String "010"%char ""] = Some ""
  ∧ scan_config_lines ["googlescholar:" +:+ String "010"%char ""] = None
  ∧ scan_config_lines ["googlescholar:a"] = Some "a".
Proof. repeat split; reflexivity. Qed.

Example readlines_example :
  readlines ("a" +:+ String "013"%char (String "010"%char "b")
             +:+ String "013"%char "c")
  = ["a" +:+ String "010"%char ""; "b" +:+ String "010"%char ""; "c"].
Proof. reflexivity. Qed.

Example extract_user_id_example :
  extract_user_id (fun _ => None) (fun s => s)
    "https://scholar.google.com/citations?hl=en&user=XYZ123&x#frag?user=no"
  = Ok (Some "XYZ123").
Proof. reflexivity. Qed.

Example dirname_example :
  Path.dirname "_data/scholar_publications.json" = "_data"
  ∧ Path.dirname "out.json" = ""
  ∧ Path.dirname "/a" = "/"
  ∧ Path.dirname "a//b" = "a"
  ∧ Path.dirname "a/b/" = "a/b".
Proof. repeat split; reflexivity. Qed.

Example isoformat_example :
  isoformat {| d_year := 2026; d_month := 3; d_day := 9 |} = "2026-03-09".
Proof. reflexivity. Qed.

Example sort_by_year_desc_example :
  List.map title
    (sort_by_year_desc
       [ Publication "a" "" "" 2020 ""; Publication "b" "" "" 2021 "";
         Publication "c" "" "" 2020 ""; Publication "d" "" "" 2021 "" ])
  = ["b"; "d"; "a"; "c"].
Proof. reflexivity. Qed.

Example strip_example :
  Str.strip ("  a b " +:+ String "010"%char "") = "a b"
  ∧ Str.lower "AbZ[@" = "abz[@"
  ∧ Str.slice_1_m1 "'ab'" = "ab"
  ∧ Str.split "&" "a&&b=c&" = ["a"; ""; "b=c"; ""].
Proof. repeat split; reflexivity. Qed.

(** ** Year parsing *)

Lemma isdecimal_isdigit c : Str.isdecimal c = true -> Str.isdigit c = true.
Proof. intros H. unfold Str.isdigit. now rewrite H. Qed.

(** No character that [isdigit] accepts is white space, a sign or an
    underscore: behind [isdigit], [int] sees digits only. *)
Lemma isdigit_plain c :
  Str.isdigit c = true ->
  Str.isspace c = false ∧ c ≠ "+"%char ∧ c ≠ "-"%char ∧ c ≠ "_"%char.
Proof.
  destruct c as [[] [] [] [] [] [] [] []]; vm_compute; intros H;
    try discriminate H; repeat split; congruence.
Qed.

Lemma forallb_isdecimal_isdigit s :
  Str.forallb Str.isdecimal s = true -> Str.forallb Str.isdigit s = true.
Proof.
  induction s as [|c s IH]; simpl; [done|].
  rewrite !andb_true_iff. intros [Hc Hs]. split; [by apply isdecimal_isdigit | auto].
Qed.

(** A text of decimal digits, no more than 4300, parses to its value. *)
Lemma parse_year_decimal s :
  s ≠ "" -> Str.forallb Str.isdecimal s = true ->
  (String.length s <= 4300)%nat ->
  parse_year s = Ok (decimal_value 0 s).
Proof.
  intros Hne Hdec Hlen. unfold parse_year, str_isdigit, py_int.
  rewrite (forallb_isdecimal_isdigit s Hdec), Hdec.
  destruct s as [|c s]; [done|].
  change (negb (Str.is_empty (String c s)) && true) with true.
  cbv beta iota. unfold max_str_digits.
  by rewrite (proj2 (Nat.ltb_ge _ _)) by lia.
Qed.

(** A text of more than 4300 decimal digits is refused by [int]. *)
Lemma parse_year_too_long s :
  Str.forallb Str.isdecimal s = true ->
  (4300 < String.length s)%nat ->
  ∃ msg, parse_year s = Raise (ValueError msg).
Proof.
  intros Hdec Hlen. unfold parse_year, str_isdigit, py_int.
  rewrite (forallb_isdecimal_isdigit s Hdec), Hdec.
  destruct s as [|c s]; [simpl in Hlen; lia|].
  change (negb (Str.is_empty (String c s)) && true) with true.
  cbv beta iota. unfold max_str_digits.
  rewrite (proj2 (Nat.ltb_lt _ _)) by lia. by eexists.
Qed.

(** A text that is empty or has a character that is no digit parses to 0. *)
Lemma parse_year_not_digits s :
  str_isdigit s = false -> parse_year s = Ok 0.
Proof. intros H. unfold parse_year. now rewrite H. Qed.

Lemma parse_year_examples :
  parse_year "2023" = Ok 2023 ∧ parse_year "" = Ok 0 ∧ parse_year "n/a" = Ok 0.
Proof. repeat split; reflexivity. Qed.

(** C4 (the code departs from the claim). Year parsing is claimed never
    to raise.  The year text consisting of SUPERSCRIPT TWO passes
    [isdigit], so the script hands it to [int], which raises [ValueError];
    the row and with it the page are lost to the exception. *)
Theorem parse_year_superscript_raises :
  str_isdigit superscript_two = true
  ∧ parse_year superscript_two
    = Raise (ValueError "invalid literal for int() with base 10")
  ∧ parse_row {| title_el := Some {| anchor_text := "T"; anchor_href := None |};
                 gs_gray := []; year_cell := Some superscript_two |}
    = Raise (ValueError "invalid literal for int() with base 10").
Proof. repeat split; reflexivity. Qed.

(** ** Link resolution *)

Lemma parse_row_link r a pub :
  title_el r = Some a -> parse_row r = Ok (Some pub) ->
  scholar_url pub = resolve_href (Str.strip (default "" (anchor_href a))).
Proof.
  intros Ha. unfold parse_row. rewrite Ha.
  destruct (parse_year _); simpl; [|discriminate].
  intros [= <-]. reflexivity.
Qed.

Lemma startswith_nonempty p s :
  p ≠ "" -> Str.startswith p s = true -> Str.is_empty s = false.
Proof. destruct p, s; simpl; congruence. Qed.

(** C8. The link of a record is the [href] of the row's title anchor,
    stripped: when it starts with a slash the origin
    https://scholar.google.com is put in front of it, otherwise it is kept
    as it is. *)
Theorem detail_link_resolution (r : row) (a : anchor) (href : string)
    (pub : publication) :
  title_el r = Some a ->
  anchor_href a = Some href ->
  parse_row r = Ok (Some pub) ->
  let link := Str.strip href in
  (Str.startswith "/" link = true ->
     scholar_url pub = "https://scholar.google.com" +:+ link)
  ∧ (Str.startswith "/" link = false -> scholar_url pub = link)
  ∧ resolve_href "/citations?view_op=view_citation&hl=en&user=ABC"
    = "https://scholar.google.com/citations?view_op=view_citation&hl=en&user=ABC"
  ∧ resolve_href "https://example.org/paper.pdf" = "https://example.org/paper.pdf".
Proof.
  intros Ha Hh Hp link.
  pose proof (parse_row_link r a pub Ha Hp) as Hu.
  rewrite Hh in Hu. simpl in Hu. fold link in Hu.
  repeat split; try reflexivity.
  - intros Hs. rewrite Hu. unfold resolve_href.
    rewrite (startswith_nonempty "/" link) by done. now rewrite Hs.
  - intros Hs. rewrite Hu. unfold resolve_href. rewrite Hs.
    destruct link; reflexivity.
Qed.

Lemma detail_link_resolution_witness :
  scholar_url {| title := "T"; authors := ""; venue := ""; year := 2020;
                 scholar_url := "https://scholar.google.com/citations?user=ABC" |}
  = "https://scholar.google.com" +:+ "/citations?user=ABC".
Proof.
  refine (proj1 (detail_link_resolution
    {| title_el := Some {| anchor_text := "T";
                           anchor_href := Some " /citations?user=ABC " |};
       gs_gray := []; year_cell := Some "2020" |}
    {| anchor_text := "T"; anchor_href := Some " /citations?user=ABC " |}
    " /citations?user=ABC " _ eq_refl eq_refl eq_refl) eq_refl).
Defined.
(** ** Merging a page into the accumulated collection *)

Lemma keys_app l1 l2 : keys (l1 ++ l2) = keys l1 ++ keys l2.
Proof. unfold keys. apply List.map_app. Qed.

Lemma merge_page_app acc p1 p2 :
  merge_page acc (p1 ++ p2) = merge_page (merge_page acc p1) p2.
Proof. unfold merge_page. apply fold_left_app. Qed.

Lemma list_to_set_absorb (l : list (string * Z)) k :
  k ∈ (list_to_set l : gset (string * Z)) ->
  (list_to_set l : gset (string * Z)) = list_to_set l ∪ list_to_set [k].
Proof.
  intros H. simpl. rewrite union_empty_r_L. apply set_eq. intros x.
  rewrite elem_of_union, elem_of_singleton. split; [tauto|].
  intros [?| ->]; done.
Qed.

Lemma list_to_set_snoc (l : list (string * Z)) k :
  ({[k]} ∪ list_to_set l : gset (string * Z))
  = list_to_set l ∪ list_to_set [k].
Proof. simpl. rewrite union_empty_r_L. apply union_comm_L. Qed.

Lemma merge_pub_seen_invariant s l pub :
  seen_invariant s l ->
  seen_invariant (merge_pub (s, l) pub).1 (merge_pub (s, l) pub).2.
Proof.
  intros [Hs Hnd]. unfold merge_pub. simpl.
  destruct (decide (key_of pub ∈ s)) as [Hin|Hin]; simpl; [by split|].
  split.
  - rewrite keys_app, list_to_set_app_L. subst s. apply list_to_set_snoc.
  - rewrite keys_app. apply NoDup_app. repeat split; [done| |].
    + intros k Hk Hk'. apply list_elem_of_singleton in Hk'. subst k.
      apply Hin. subst s. by apply elem_of_list_to_set.
    + simpl. apply NoDup_singleton.
Qed.

Lemma merge_page_seen_invariant page s l :
  seen_invariant s l ->
  seen_invariant (merge_page (s, l) page).1 (merge_page (s, l) page).2.
Proof.
  revert s l. induction page as [|pub page IH]; intros s l H; [done|].
  change (merge_page (s, l) (pub :: page))
    with (merge_page (merge_pub (s, l) pub) page).
  pose proof (merge_pub_seen_invariant s l pub H) as H'.
  destruct (merge_pub (s, l) pub) as [s' l']. by apply IH.
Qed.

(** ** First occurrences *)

Lemma first_occurrences_from_app e xs ys :
  first_occurrences_from e (xs ++ ys)
  = first_occurrences_from e xs ++ first_occurrences_from (e ++ xs) ys.
Proof.
  revert e. induction xs as [|x xs IH]; intros e; simpl.
  - by rewrite app_nil_r.
  - rewrite IH, <- !app_assoc. reflexivity.
Qed.

Lemma first_occurrences_snoc xs x :
  first_occurrences (xs ++ [x])
  = first_occurrences xs
    ++ (if bool_decide (key_of x ∈ keys xs) then [] else [x]).
Proof.
  unfold first_occurrences. rewrite first_occurrences_from_app. simpl.
  by rewrite app_nil_r.
Qed.

(** Merging one record keeps the accumulated list equal to the first
    occurrences of everything extracted so far, and the seen set equal to
    the keys of everything extracted so far. *)
Lemma merge_pub_first_occurrences xs s l pub :
  s = list_to_set (keys xs) -> l = first_occurrences xs ->
  (merge_pub (s, l) pub).1 = list_to_set (keys (xs ++ [pub]))
  ∧ (merge_pub (s, l) pub).2 = first_occurrences (xs ++ [pub]).
Proof.
  intros Hs Hl. unfold merge_pub. simpl.
  rewrite first_occurrences_snoc, keys_app, list_to_set_app_L. simpl.
  destruct (decide (key_of pub ∈ s)) as [Hin|Hin]; simpl.
  - rewrite bool_decide_eq_true_2
      by (subst s; by apply elem_of_list_to_set in Hin).
    rewrite app_nil_r. split; [|done]. subst s. by apply list_to_set_absorb.
  - rewrite bool_decide_eq_false_2
      by (intros Hk; apply Hin; subst s; by apply elem_of_list_to_set).
    split; [|by subst l]. subst s. apply list_to_set_snoc.
Qed.

Lemma merge_page_first_occurrences page xs s l :
  s = list_to_set (keys xs) -> l = first_occurrences xs ->
  (merge_page (s, l) page).1 = list_to_set (keys (xs ++ page))
  ∧ (merge_page (s, l) page).2 = first_occurrences (xs ++ page).
Proof.
  revert xs s l. induction page as [|pub page IH]; intros xs s l Hs Hl.
  - rewrite app_nil_r. by split.
  - change (merge_page (s, l) (pub :: page))
      with (merge_page (merge_pub (s, l) pub) page).
    destruct (merge_pub_first_occurrences xs s l pub Hs Hl) as [H1 H2].
    destruct (merge_pub (s, l) pub) as [s' l']. simpl in H1, H2.
    replace (xs ++ pub :: page) with ((xs ++ [pub]) ++ page)
      by (by rewrite <- app_assoc).
    by apply IH.
Qed.

(** A record is among the first occurrences exactly when it stands at a
    position before which no record has its key. *)
Lemma elem_of_first_occurrences_from e xs x :
  x ∈ first_occurrences_from e xs ↔
  ∃ i, xs !! i = Some x ∧ (key_of x ∉ keys e)
       ∧ ∀ j y, (j < i)%nat -> xs !! j = Some y -> key_of y ≠ key_of x.
Proof.
  revert e. induction xs as [|a xs IH]; intros e; simpl.
  - split; [intros H; by apply elem_of_nil in H | intros (i & H & _); done].
  - rewrite elem_of_app, IH. split.
    + intros [H | (i & Hi & He & Hj)].
      * case_bool_decide as Ha; [by apply elem_of_nil in H|].
        apply list_elem_of_singleton in H. subst a.
        exists 0%nat. repeat split; [done|]. intros j y Hlt. lia.
      * rewrite keys_app, elem_of_app in He.
        exists (S i). repeat split; [done| |].
        -- intros Hin. apply He. by left.
        -- intros [|j] y Hlt Hy; simpl in Hy.
           ++ injection Hy as <-. intros Heq. apply He. right.
              simpl. rewrite Heq. apply list_elem_of_here.
           ++ apply (Hj j y); [lia | done].
    + intros ([|i] & Hi & He & Hj); simpl in Hi.
      * injection Hi as <-. left. rewrite bool_decide_eq_false_2 by done.
        apply list_elem_of_here.
      * right. exists i. repeat split; [done| |].
        -- rewrite keys_app, elem_of_app. intros [Hin | Hin]; [done|].
           simpl in Hin. apply list_elem_of_singleton in Hin.
           by apply (Hj 0%nat a); [lia | | ].
        -- intros j y Hlt Hy. apply (Hj (S j) y); [lia | done].
Qed.

Lemma elem_of_first_occurrences xs x :
  x ∈ first_occurrences xs ↔
  ∃ i, xs !! i = Some x
       ∧ ∀ j y, (j < i)%nat -> xs !! j = Some y -> key_of y ≠ key_of x.
Proof.
  unfold first_occurrences. rewrite elem_of_first_occurrences_from.
  split; intros (i & Hi & H); exists i.
  - by destruct H.
  - repeat split; [done | | done]. simpl. apply not_elem_of_nil.
Qed.
(** ** The inter-page delay *)

Lemma sleep_events_cases x :
  sleep_events x = [] ∨ ∃ q, sleep_events x = [EvSleep q].
Proof.
  destruct x as [q| | |]; simpl; try by left.
  destruct (Qlt_le_dec 0 q); [right; by exists q | by left].
Qed.

(** The delays [time.sleep] is given and refuses are the positive ones of
    2^63 - 512 nanoseconds or more, and infinity. *)
Lemma sleep_fails_iff x :
  sleep_fails x = true
  ↔ x = PosInf
    ∨ ∃ q, x = Finite q
           ∧ (0 < q)%Q
           ∧ (Qmake 9223372036854775296 1 <= q * Qmake 1000000000 1)%Q.
Proof.
  destruct x as [q| | |]; simpl.
  - rewrite andb_true_iff, Qle_bool_iff. split.
    + intros [Hp Ho]. right. exists q. destruct (Qlt_le_dec 0 q); done.
    + intros [? | (q' & [= <-] & Hp & Ho)]; [done|].
      destruct (Qlt_le_dec 0 q) as [|Hle]; [done|].
      exfalso. apply (Qlt_irrefl 0). by apply Qlt_le_trans with q.
  - split; [by left | done].
  - split; [done | by intros [? | (q & ? & _)]].
  - split; [done | by intros [? | (q & ? & _)]].
Qed.

(** What [if sleep_seconds > 0: time.sleep(sleep_seconds)] does. *)
Lemma sleep_step x tr :
  (if float_positive x then time_sleep x else ret tt) tr
  = if sleep_fails x then (Raise (OverflowError overflow_message), tr)
    else (Ok tt, tr ++ sleep_events x).
Proof.
  destruct x as [q| | |]; simpl; try (by rewrite app_nil_r).
  2: reflexivity.
  destruct (Qlt_le_dec 0 q) as [Hpos|Hle]; simpl; [|by rewrite app_nil_r].
  unfold sleep_overflows.
  assert (Qle_bool (Qmake (-9223372036854776832) 1) (q * Qmake 1000000000 1) = true) as ->.
  { apply Qle_bool_iff. lra. }
  rewrite orb_false_r.
  destruct (Qle_bool _ _); [reflexivity|].
  destruct (Qlt_le_dec q 0) as [Hneg|]; [|reflexivity].
  exfalso. lra.
Qed.

Lemma sleep_fails_huge : sleep_fails huge_delay = true.
Proof. reflexivity. Qed.

(** ** One iteration of the pagination loop *)

Section Loop.

Variable select_rows : string -> list row.
Variable E : env.
Variable user_id : string.
Variable pagesize : Z.
Variable sleep_seconds : pyfloat.
Variable max_pages : Z.

Abbreviation body := (loop_body select_rows E user_id pagesize sleep_seconds max_pages).
Abbreviation loop := (while_loop select_rows E user_id pagesize sleep_seconds max_pages).
Abbreviation collect := (collect_publications select_rows E user_id pagesize sleep_seconds max_pages).
Abbreviation parse := (parse_publications select_rows).

(** What [fetch_page] does, by the response. *)
Lemma fetch_page_cases url tr :
  fetch_page E url tr =
  (match net E tr url with
   | NoResponse => Raise RequestException
   | Response status_code text =>
       if is_error_status status_code then Raise (HTTPError status_code)
       else if Str.contains blocked_marker (Str.lower text)
            then Raise (RuntimeError blocked_message)
            else Ok text
   end, tr ++ [EvGet url (net E tr url)]).
Proof.
  unfold fetch_page, bind, session_get, raise_for_status, raise, ret.
  destruct (net E tr url) as [sc text|]; [|reflexivity]. simpl.
  destruct (is_error_status sc); [reflexivity|].
  destruct (Str.contains _ _); reflexivity.
Qed.

Lemma fetch_page_trace url tr :
  (fetch_page E url tr).2 = tr ++ [EvGet url (net E tr url)].
Proof. by rewrite fetch_page_cases. Qed.

Lemma fetch_page_ok url tr html tr1 :
  fetch_page E url tr = (Ok html, tr1) ->
  ∃ status_code,
    net E tr url = Response status_code html
    ∧ fetch_failed (Response status_code html) = false
    ∧ tr1 = tr ++ [EvGet url (Response status_code html)].
Proof.
  rewrite fetch_page_cases. intros [= H <-]. revert H.
  destruct (net E tr url) as [sc text|]; [|discriminate]. simpl.
  destruct (is_error_status sc) eqn:Hs; [discriminate|].
  destruct (Str.contains _ _) eqn:Hc; [discriminate|].
  intros [= ->]. exists sc. simpl. by rewrite Hs, Hc.
Qed.

Lemma fetch_page_raise url tr e tr1 :
  fetch_page E url tr = (Raise e, tr1) ->
  fetch_failed (net E tr url) = true
  ∧ tr1 = tr ++ [EvGet url (net E tr url)].
Proof.
  rewrite fetch_page_cases. intros [= H <-]. split; [|done]. revert H.
  destruct (net E tr url) as [sc text|]; [|done]. simpl.
  destruct (is_error_status sc); [done|].
  destruct (Str.contains _ _); [by rewrite orb_true_r | discriminate].
Qed.

(** The iteration, after a fetch that returned [html] and an extraction
    that returned [page]. *)
Lemma loop_body_fetched st tr html tr1 page :
  fetch_page E (build_list_url user_id (start st) pagesize) tr = (Ok html, tr1) ->
  parse html = Ok page ->
  body st tr =
  match page with
  | [] => (Ok (Break, st), tr1)
  | _ =>
      if Z.of_nat (length page) <? pagesize
      then (Ok (Break, merged st page (start st) (pages_fetched st)), tr1)
      else if cap_reached max_pages (pages_fetched st + 1)
      then (Ok (Break, merged st page (start st) (pages_fetched st + 1)), tr1)
      else if sleep_fails sleep_seconds
      then (Raise (OverflowError overflow_message), tr1)
      else (Ok (Continue,
                merged st page (start st + pagesize) (pages_fetched st + 1)),
            tr1 ++ sleep_events sleep_seconds)
  end.
Proof.
  intros Hf Hp. unfold loop_body, bind, lift. rewrite Hf, Hp.
  destruct page as [|p page]; [reflexivity|].
  unfold merged, cap_reached.
  destruct (merge_page _ _) as [s' l']. cbn [fst snd length].
  destruct (_ <? pagesize); [reflexivity|].
  cbn [start pages_fetched seen all_publications].
  destruct (negb _ && _); [reflexivity|].
  rewrite sleep_step. by destruct (sleep_fails sleep_seconds).
Qed.


Lemma loop_body_fetch_raise st tr e tr1 :
  fetch_page E (build_list_url user_id (start st) pagesize) tr = (Raise e, tr1) ->
  body st tr = (Raise e, tr1).
Proof. intros Hf. unfold loop_body, bind. by rewrite Hf. Qed.

Lemma loop_body_parse_raise st tr html tr1 e :
  fetch_page E (build_list_url user_id (start st) pagesize) tr = (Ok html, tr1) ->
  parse html = Raise e ->
  body st tr = (Raise e, tr1).
Proof. intros Hf Hp. unfold loop_body, bind, lift. by rewrite Hf, Hp. Qed.


(** An iteration that does not raise fetched a page without failure,
    merged its records, and added to the trace the request and at most a
    sleep. *)
Lemma loop_body_ok st tr c st' tr' :
  body st tr = (Ok (c, st'), tr') ->
  ∃ status_code html page evs,
    net E tr (build_list_url user_id (start st) pagesize)
      = Response status_code html
    ∧ fetch_failed (Response status_code html) = false
    ∧ parse html = Ok page
    ∧ seen st' = (merge_page (seen st, all_publications st) page).1
    ∧ all_publications st'
      = (merge_page (seen st, all_publications st) page).2
    ∧ tr' = tr ++ EvGet (build_list_url user_id (start st) pagesize)
                    (Response status_code html) :: evs
    ∧ (evs = [] ∨ evs = sleep_events sleep_seconds).
Proof.
  intros Hb.
  destruct (fetch_page E (build_list_url user_id (start st) pagesize) tr)
    as [[html|e] tr1] eqn:Hf.
  2:{ rewrite (loop_body_fetch_raise _ _ _ _ Hf) in Hb. discriminate. }
  destruct (parse html) as [page|e] eqn:Hp.
  2:{ rewrite (loop_body_parse_raise _ _ _ _ _ Hf Hp) in Hb. discriminate. }
  rewrite (loop_body_fetched _ _ _ _ _ Hf Hp) in Hb.
  destruct (fetch_page_ok _ _ _ _ Hf) as (sc & Hn & Hff & ->).
  exists sc, html, page.
  destruct page as [|p page].
  { injection Hb as <- <- <-. exists []. by repeat split; try left. }
  destruct (_ <? pagesize).
  { injection Hb as <- <- <-. exists []. by repeat split; try left. }
  destruct (cap_reached _ _).
  { injection Hb as <- <- <-. exists []. by repeat split; try left. }
  destruct (sleep_fails sleep_seconds); [discriminate|].
  injection Hb as <- <- <-.
  exists (sleep_events sleep_seconds). rewrite <- app_assoc.
  by repeat split; try right.
Qed.

(** Every iteration starts by sending the request for the current
    offset. *)
Lemma loop_body_requests st tr :
  ∃ evs, (body st tr).2
         = tr ++ EvGet (build_list_url user_id (start st) pagesize)
                   (net E tr (build_list_url user_id (start st) pagesize))
                 :: evs.
Proof.
  destruct (body st tr) as [[[c st']|e] tr'] eqn:Hb.
  - destruct (loop_body_ok _ _ _ _ _ Hb) as (sc & html & page & evs & Hn & _ & _ & _ & _ & -> & _).
    exists evs. by rewrite Hn.
  - exists []. simpl.
    destruct (fetch_page E (build_list_url user_id (start st) pagesize) tr)
      as [[html|e'] tr1] eqn:Hf.
    + destruct (parse html) as [page|e''] eqn:Hp.
      * rewrite (loop_body_fetched _ _ _ _ _ Hf Hp) in Hb.
        destruct page; [discriminate|].
        destruct (_ <? _); [discriminate|].
        destruct (cap_reached _ _); [discriminate|].
        destruct (sleep_fails sleep_seconds); [|discriminate].
        injection Hb as _ <-. by destruct (fetch_page_ok _ _ _ _ Hf) as (sc & -> & _ & ->).
      * rewrite (loop_body_parse_raise _ _ _ _ _ Hf Hp) in Hb.
        injection Hb as _ <-. by destruct (fetch_page_ok _ _ _ _ Hf) as (sc & -> & _ & ->).
    + rewrite (loop_body_fetch_raise _ _ _ _ Hf) in Hb.
      injection Hb as _ <-. by destruct (fetch_page_raise _ _ _ _ Hf) as [_ ->].
Qed.

(** ** The seen set and the accumulated list *)

Lemma loop_body_seen_invariant st tr c st' tr' :
  seen_invariant (seen st) (all_publications st) ->
  body st tr = (Ok (c, st'), tr') ->
  seen_invariant (seen st') (all_publications st').
Proof.
  intros Hinv Hb.
  destruct (loop_body_ok _ _ _ _ _ Hb) as (sc & html & page & evs & _ & _ & _ & -> & -> & _).
  by apply merge_page_seen_invariant.
Qed.

Lemma initial_seen_invariant :
  seen_invariant (seen initial_state) (all_publications initial_state).
Proof. split; [reflexivity | constructor]. Qed.

Lemma reachable_seen_invariant tr0 st tr :
  reachable select_rows E user_id pagesize sleep_seconds max_pages tr0 st tr ->
  seen_invariant (seen st) (all_publications st).
Proof.
  induction 1 as [|st tr st' tr' _ IH Hb].
  - apply initial_seen_invariant.
  - by apply (loop_body_seen_invariant st tr Continue st' tr').
Qed.

(** A run that returns does so from an iteration that started in a
    reachable state and left the loop. *)
Lemma while_loop_finished tr0 fuel st tr r tr' :
  reachable select_rows E user_id pagesize sleep_seconds max_pages tr0 st tr ->
  loop fuel st tr = Finished r tr' ->
  ∃ st1 tr1,
    reachable select_rows E user_id pagesize sleep_seconds max_pages tr0 st1 tr1
    ∧ match r with
      | Ok st' => body st1 tr1 = (Ok (Break, st'), tr')
      | Raise e => body st1 tr1 = (Raise e, tr')
      end.
Proof.
  revert st tr. induction fuel as [|fuel IH]; intros st tr Hr; simpl; [discriminate|].
  destruct (body st tr) as [[[[] st2]|e] tr2] eqn:Hb.
  - intros [= <- <-]. by exists st, tr.
  - apply IH. by apply (reach_next _ _ _ _ _ _ _ st tr).
  - intros [= <- <-]. by exists st, tr.
Qed.

Lemma collect_publications_ok fuel tr0 pubs tr :
  collect fuel tr0 = Finished (Ok pubs) tr ->
  ∃ st, loop fuel initial_state tr0 = Finished (Ok st) tr
        ∧ pubs = all_publications st.
Proof.
  unfold collect_publications.
  destruct (loop fuel initial_state tr0) as [[st|e] tr1|tr1]; try discriminate.
  intros [= <- <-]. by exists st.
Qed.

(** C10. In every state in which an iteration of the pagination loop
    starts, after every record merged by the inner loop whatever page is
    being merged, and in the state the iteration ends in, the seen set is
    the set of the identity keys of the accumulated records and these
    keys are pairwise distinct; so the collection that is returned has no
    two records with the same identity key. *)
Theorem seen_set_tracks_collection :
  (∀ tr0 st tr,
     reachable select_rows E user_id pagesize sleep_seconds max_pages tr0 st tr ->
     seen_invariant (seen st) (all_publications st)
     ∧ (∀ page k,
          let acc := merge_page (seen st, all_publications st) (take k page) in
          seen_invariant acc.1 acc.2)
     ∧ (∀ c st' tr',
          body st tr = (Ok (c, st'), tr') ->
          seen_invariant (seen st') (all_publications st')))
  ∧ (∀ fuel tr0 pubs tr,
       collect fuel tr0 = Finished (Ok pubs) tr -> NoDup (keys pubs)).
Proof.
  split.
  - intros tr0 st tr Hr.
    pose proof (reachable_seen_invariant tr0 st tr Hr) as Hinv.
    repeat split; try apply Hinv.
    + apply (merge_page_seen_invariant (take k page) _ _ Hinv).
    + apply (merge_page_seen_invariant (take k page) _ _ Hinv).
    + eapply loop_body_seen_invariant; eauto.
    + eapply loop_body_seen_invariant; eauto.
  - intros fuel tr0 pubs tr Hc.
    destruct (collect_publications_ok _ _ _ _ Hc) as (st & Hl & ->).
    destruct (while_loop_finished tr0 fuel initial_state tr0 (Ok st) tr
                (reach_start _ _ _ _ _ _ _) Hl) as (st1 & tr1 & Hr & Hb).
    apply (loop_body_seen_invariant st1 tr1 Break st tr); [|done].
    by apply (reachable_seen_invariant tr0 st1 tr1).
Qed.

(** ** First record wins *)

Abbreviation records := (extracted_records select_rows).

Lemma records_sleep_events x : records (sleep_events x) = [].
Proof. by destruct (sleep_events_cases x) as [-> | [q ->]]. Qed.

Lemma extracted_records_app tr1 tr2 :
  records (tr1 ++ tr2) = records tr1 ++ records tr2.
Proof. unfold extracted_records. apply flat_map_app. Qed.

(** The records an iteration adds to the extracted ones are those of the
    page it merges. *)
Lemma loop_body_first_occurrences xs st tr c st' tr' :
  seen st = list_to_set (keys xs) ->
  all_publications st = first_occurrences xs ->
  body st tr = (Ok (c, st'), tr') ->
  ∃ evs, tr' = tr ++ evs
         ∧ seen st' = list_to_set (keys (xs ++ records evs))
         ∧ all_publications st' = first_occurrences (xs ++ records evs).
Proof.
  intros Hs Hl Hb.
  destruct (loop_body_ok _ _ _ _ _ Hb)
    as (sc & html & page & evs & _ & _ & Hp & Hs' & Hl' & -> & Hevs).
  eexists. split; [reflexivity|].
  assert (records (EvGet (build_list_url user_id (start st) pagesize)
                     (Response sc html) :: evs) = page) as ->.
  { change (records (?ev :: evs)) with (page_of_event select_rows ev ++ records evs).
    assert (records evs = []) as ->
      by (destruct Hevs as [-> | ->]; [done | apply records_sleep_events]).
    simpl. by rewrite Hp, app_nil_r. }
  rewrite Hs', Hl'. by apply merge_page_first_occurrences.
Qed.

Lemma while_loop_first_occurrences fuel xs st tr st' tr' :
  seen st = list_to_set (keys xs) ->
  all_publications st = first_occurrences xs ->
  loop fuel st tr = Finished (Ok st') tr' ->
  ∃ evs, tr' = tr ++ evs
         ∧ all_publications st' = first_occurrences (xs ++ records evs).
Proof.
  revert xs st tr. induction fuel as [|fuel IH]; intros xs st tr Hs Hl; simpl;
    [discriminate|].
  destruct (body st tr) as [[[[] st2]|e] tr2] eqn:Hb; [| |discriminate].
  - intros [= <- <-].
    destruct (loop_body_first_occurrences xs _ _ _ _ _ Hs Hl Hb)
      as (evs & -> & _ & H). by exists evs.
  - intros Hloop.
    destruct (loop_body_first_occurrences xs _ _ _ _ _ Hs Hl Hb)
      as (evs & -> & Hs2 & Hl2).
    destruct (IH _ _ _ Hs2 Hl2 Hloop) as (evs' & -> & H).
    exists (evs ++ evs'). split; [by rewrite app_assoc|].
    by rewrite extracted_records_app, app_assoc.
Qed.

Lemma with_key_first_occurrences_from k e xs :
  with_key k (first_occurrences_from e xs)
  = if bool_decide (k ∈ keys e) then [] else take 1 (with_key k xs).
Proof.
  unfold with_key. revert e. induction xs as [|x xs IH]; intros e; simpl.
  - by case_bool_decide.
  - rewrite List.filter_app, IH, keys_app.
    destruct (bool_decide (key_of x = k)) eqn:Hx.
    + apply bool_decide_eq_true in Hx. subst k.
      rewrite (bool_decide_eq_true_2 (key_of x ∈ keys e ++ keys [x]))
        by (apply elem_of_app; right; apply list_elem_of_here).
      rewrite app_nil_r. case_bool_decide; simpl; [done|].
      rewrite bool_decide_eq_true_2 by done. by rewrite take_0.
    + apply bool_decide_eq_false in Hx.
      assert (with_key k (if bool_decide (key_of x ∈ keys e) then [] else [x]) = []) as Hnil.
      { unfold with_key. case_bool_decide; simpl; [done|].
        by rewrite bool_decide_eq_false_2. }
      unfold with_key in Hnil. rewrite Hnil. simpl.
      assert (k ∈ keys e ++ keys [x] ↔ k ∈ keys e) as Hiff.
      { rewrite elem_of_app. simpl. rewrite list_elem_of_singleton.
        split; [intros [Hk | Hk]; [done | by subst k] | by left]. }
      by rewrite (bool_decide_ext _ _ Hiff).
Qed.

(** C1. The collection [collect_publications] returns consists of the
    extracted records that no earlier extracted record shares its identity
    key with, in page order: of the records with one identity key, in the
    order of the pages and within a page, it holds the first and no
    other. *)
Theorem first_record_wins (fuel : nat) (tr0 : list event)
    (pubs : list publication) (tr : list event) :
  collect fuel tr0 = Finished (Ok pubs) tr ->
  ∃ evs, tr = tr0 ++ evs
    ∧ pubs = first_occurrences (records evs)
    ∧ (∀ k, with_key k pubs = take 1 (with_key k (records evs)))
    ∧ (∀ x, x ∈ pubs ↔
         ∃ i, records evs !! i = Some x
              ∧ ∀ j y, (j < i)%nat -> records evs !! j = Some y ->
                       key_of y ≠ key_of x).
Proof.
  intros Hc. destruct (collect_publications_ok _ _ _ _ Hc) as (st & Hl & ->).
  destruct (while_loop_first_occurrences fuel [] initial_state tr0 st tr
              eq_refl eq_refl Hl) as (evs & -> & H).
  simpl in H. exists evs. repeat split; try done.
  - intros k. rewrite H. unfold first_occurrences.
    rewrite with_key_first_occurrences_from.
    rewrite bool_decide_eq_false_2; [done | apply not_elem_of_nil].
  - rewrite H. apply elem_of_first_occurrences.
  - rewrite H. apply elem_of_first_occurrences.
Qed.

(** ** When the loop stops and when it goes on *)



Lemma merge_page_seen_only (page : list publication) s l :
  (∀ p, p ∈ page -> key_of p ∈ s) -> merge_page (s, l) page = (s, l).
Proof.
  induction page as [|p page IH]; intros H; [done|].
  change (merge_page (s, l) (p :: page))
    with (merge_page (merge_pub (s, l) p) page).
  unfold merge_pub. simpl. rewrite decide_True by (apply H; apply list_elem_of_here).
  apply IH. intros q Hq. apply H. by apply list_elem_of_further.
Qed.






End Loop.

(** ** The properties on the small world *)

Lemma seen_set_tracks_collection_witness :
  seen_invariant (seen initial_state) (all_publications initial_state)
  ∧ NoDup (keys [Demo.pub "a"; Demo.pub "b"; Demo.pub "c"]).
Proof.
  pose proof (seen_set_tracks_collection Demo.select_rows
                (Demo.world Demo.two_pages) "XYZ123" 2 1%Q 0) as [H1 H2].
  split.
  - apply (H1 [] initial_state []). constructor.
  - apply (H2 5%nat [] _
             [EvGet (Demo.url 0 2) (Response 200 "ab"); EvSleep 1;
              EvGet (Demo.url 2 2) (Response 200 "Ac"); EvSleep 1;
              EvGet (Demo.url 4 2) (Response 200 "")]).
    vm_compute. reflexivity.
Defined.

Lemma first_record_wins_witness :
  ∃ evs,
    [EvGet (Demo.url 0 2) (Response 200 "ab"); EvSleep 1;
     EvGet (Demo.url 2 2) (Response 200 "Ac"); EvSleep 1;
     EvGet (Demo.url 4 2) (Response 200 "")] = [] ++ evs
    ∧ [Demo.pub "a"; Demo.pub "b"; Demo.pub "c"]
      = first_occurrences (extracted_records Demo.select_rows evs)
    ∧ (∀ k, with_key k [Demo.pub "a"; Demo.pub "b"; Demo.pub "c"]
            = take 1 (with_key k (extracted_records Demo.select_rows evs)))
    ∧ (∀ x, x ∈ [Demo.pub "a"; Demo.pub "b"; Demo.pub "c"] ↔
         ∃ i, extracted_records Demo.select_rows evs !! i = Some x
              ∧ ∀ j y, (j < i)%nat ->
                       extracted_records Demo.select_rows evs !! j = Some y ->
                       key_of y ≠ key_of x).
Proof.
  apply (first_record_wins Demo.select_rows (Demo.world Demo.two_pages)
           "XYZ123" 2 1%Q 0 5%nat).
  vm_compute. reflexivity.
Defined.




(** ** Substrings *)

Lemma startswith_app p s :
  Str.startswith p s = true ↔ ∃ rest, s = p +:+ rest.
Proof.
  revert s. induction p as [|a p IH]; intros s; simpl.
  - split; [by exists s | done].
  - destruct s as [|b s].
    + split; [done | intros [rest H]; discriminate].
    + destruct (ascii_dec a b) as [->|Hne].
      * rewrite IH. split; intros [rest H]; exists rest.
        -- simpl. by rewrite H.
        -- simpl in H. by injection H.
      * split; [done | intros [rest H]; simpl in H; injection H as Hba _; by subst].
Qed.

Lemma contains_app p s :
  Str.contains p s = true ↔ ∃ before after, s = before +:+ p +:+ after.
Proof.
  induction s as [|c s IH].
  - simpl. rewrite orb_false_r, startswith_app. split.
    + intros [rest H]. by exists "", rest.
    + intros (before & after & H). destruct before; [by exists after|discriminate].
  - change (Str.contains p (String c s))
      with (Str.startswith p (String c s) || Str.contains p s).
    rewrite orb_true_iff, startswith_app, IH. split.
    + intros [[rest H] | (before & after & H)].
      * by exists "", rest.
      * exists (String c before), after. simpl. by rewrite H.
    + intros (before & after & H). destruct before as [|b before].
      * left. by exists after.
      * right. simpl in H. injection H as _ H. by exists before, after.
Qed.

Lemma lower_app a b : Str.lower (a +:+ b) = Str.lower a +:+ Str.lower b.
Proof. induction a as [|c a IH]; simpl; [done|]. unfold Str.lower in *. simpl. by rewrite IH. Qed.

Lemma lower_split s a b :
  Str.lower s = a +:+ b ->
  ∃ s1 s2, s = s1 +:+ s2 ∧ Str.lower s1 = a ∧ Str.lower s2 = b.
Proof.
  revert s. induction a as [|c a IH]; intros s H.
  - by exists "", s.
  - destruct s as [|d s]; [discriminate|].
    unfold Str.lower in H. simpl in H. injection H as Hc H.
    destruct (IH s H) as (s1 & s2 & -> & H1 & H2).
    exists (String d s1), s2. unfold Str.lower in *. simpl. by rewrite Hc, H1.
Qed.

(** The test of [fetch_page] finds the marker exactly when the body
    contains it up to the case of letters. *)
Lemma contains_lower marker text :
  Str.contains marker (Str.lower text) = true
  ↔ contains_ignoring_case marker text.
Proof.
  rewrite contains_app. unfold contains_ignoring_case. split.
  - intros (a & b & H).
    destruct (lower_split _ _ _ H) as (before & rest & -> & Ha & Hr).
    destruct (lower_split _ _ _ Hr) as (mid & after & -> & Hm & Hb).
    by exists before, mid, after.
  - intros (before & mid & after & -> & Hm).
    exists (Str.lower before), (Str.lower after).
    by rewrite !lower_app, Hm.
Qed.

(** ** Page Fetcher *)

Lemma success_not_error status_code :
  200 <= status_code < 300 -> is_error_status status_code = false.
Proof. intros H. unfold is_error_status. apply andb_false_iff. left. lia. Qed.

(** C7. For a response with a success status: when the body contains
    the marker "unusual traffic" up to the case of letters, [fetch_page]
    raises [RuntimeError], which is not the [HTTPError] raised for an
    error status, and the loop ends with that exception, the blocked
    request being the last event of the run: nothing is sent again.
    Otherwise [fetch_page] returns the body. *)
Theorem blocked_response_raises (E : env) (url : string) (tr : list event)
    (status_code : Z) (text : string) :
  net E tr url = Response status_code text ->
  200 <= status_code < 300 ->
  (contains_ignoring_case blocked_marker text ->
     fetch_page E url tr
       = (Raise (RuntimeError blocked_message),
          tr ++ [EvGet url (Response status_code text)])
     ∧ (∀ s, RuntimeError blocked_message ≠ HTTPError s)
     ∧ (∀ select_rows user_id pagesize sleep_seconds max_pages fuel st,
          url = build_list_url user_id (start st) pagesize ->
          while_loop select_rows E user_id pagesize sleep_seconds max_pages
            (S fuel) st tr
          = Finished (Raise (RuntimeError blocked_message))
              (tr ++ [EvGet url (Response status_code text)])))
  ∧ (¬ contains_ignoring_case blocked_marker text ->
     fetch_page E url tr
       = (Ok text, tr ++ [EvGet url (Response status_code text)])).
Proof.
  intros Hn Hs. pose proof (fetch_page_cases E url tr) as Hf.
  rewrite Hn, (success_not_error _ Hs) in Hf. split.
  - intros Hc. apply contains_lower in Hc. rewrite Hc in Hf.
    repeat split; [done | done |].
    intros select_rows user_id pagesize sleep_seconds max_pages fuel st ->.
    simpl. by rewrite (loop_body_fetch_raise _ _ _ _ _ _ _ _ _ _ Hf).
  - intros Hc. rewrite <- contains_lower in Hc.
    apply not_true_is_false in Hc. by rewrite Hc in Hf.
Qed.

(** An error status raises [HTTPError], whatever the body. *)
Lemma error_status_raises (E : env) (url : string) (tr : list event)
    (status_code : Z) (text : string) :
  net E tr url = Response status_code text ->
  400 <= status_code < 600 ->
  fetch_page E url tr
  = (Raise (HTTPError status_code), tr ++ [EvGet url (Response status_code text)]).
Proof.
  intros Hn Hs. rewrite fetch_page_cases, Hn.
  unfold is_error_status. by rewrite (proj2 (Z.leb_le _ _)), (proj2 (Z.ltb_lt _ _)) by lia.
Qed.

Lemma blocked_response_raises_witness :
  fetch_page (Demo.world [Response 200 "Our systems have detected Unusual Traffic."])
    (Demo.url 0 2) []
  = (Raise (RuntimeError blocked_message),
     [] ++ [EvGet (Demo.url 0 2)
              (Response 200 "Our systems have detected Unusual Traffic.")]).
Proof.
  refine (proj1 (proj1 (blocked_response_raises
    (Demo.world [Response 200 "Our systems have detected Unusual Traffic."])
    (Demo.url 0 2) [] 200 "Our systems have detected Unusual Traffic."
    eq_refl _) _)).
  - lia.
  - exists "Our systems have detected ", "Unusual Traffic", ".". by split.
Defined.

(** ** The trace of a run *)

Section Traces.

Variable select_rows : string -> list row.
Variable E : env.
Variable user_id : string.
Variable pagesize : Z.
Variable sleep_seconds : pyfloat.
Variable max_pages : Z.

Abbreviation body' := (loop_body select_rows E user_id pagesize sleep_seconds max_pages).
Abbreviation loop' := (while_loop select_rows E user_id pagesize sleep_seconds max_pages).
Abbreviation collect' := (collect_publications select_rows E user_id pagesize sleep_seconds max_pages).

Lemma loop_body_events_ok st tr c st' tr' :
  body' st tr = (Ok (c, st'), tr') ->
  ∃ evs, tr' = tr ++ evs ∧ forallb clean_event evs = true.
Proof.
  intros Hb.
  destruct (loop_body_ok _ _ _ _ _ _ _ _ _ _ _ Hb)
    as (sc & html & page & evs & _ & Hff & _ & _ & _ & -> & Hevs).
  eexists. split; [reflexivity|]. apply andb_true_intro. split.
  - unfold clean_event. by rewrite Hff.
  - destruct Hevs as [-> | ->]; [done|].
    by destruct (sleep_events_cases sleep_seconds) as [-> | [q ->]].
Qed.

Lemma loop_body_events_raise st tr e tr' :
  body' st tr = (Raise e, tr') ->
  ∃ ev, tr' = tr ++ [ev]
        ∧ (clean_event ev = true
           ∨ ∃ url r, ev = EvGet url r ∧ fetch_failed r = true).
Proof.
  intros Hb.
  destruct (fetch_page E (build_list_url user_id (start st) pagesize) tr)
    as [[html|e'] tr1] eqn:Hf.
  - destruct (fetch_page_ok _ _ _ _ _ Hf) as (sc & Hn & Hff & ->).
    destruct (parse_publications select_rows html) as [page|e''] eqn:Hp.
    + rewrite (loop_body_fetched _ _ _ _ _ _ _ _ _ _ _ Hf Hp) in Hb.
      destruct page; [discriminate|].
      destruct (_ <? _); [discriminate|].
      destruct (cap_reached _ _); [discriminate|].
      destruct (sleep_fails sleep_seconds); [|discriminate].
      injection Hb as _ <-. eexists. split; [reflexivity|]. left.
      unfold clean_event. by rewrite Hff.
    + rewrite (loop_body_parse_raise _ _ _ _ _ _ _ _ _ _ _ Hf Hp) in Hb.
      injection Hb as _ <-. eexists. split; [reflexivity|]. left.
      unfold clean_event. by rewrite Hff.
  - rewrite (loop_body_fetch_raise _ _ _ _ _ _ _ _ _ _ Hf) in Hb.
    injection Hb as _ <-.
    destruct (fetch_page_raise _ _ _ _ _ Hf) as [Hff ->].
    eexists. split; [reflexivity|]. right. by eexists _, _.
Qed.

Lemma while_loop_events fuel st tr :
  ∃ evs, trace_of (loop' fuel st tr) = tr ++ evs
         ∧ loop_events (loop' fuel st tr) evs.
Proof.
  revert st tr. induction fuel as [|fuel IH]; intros st tr; simpl.
  { exists []. split; [by rewrite app_nil_r|]. exists [], []. by repeat split; try left. }
  destruct (body' st tr) as [[[[] st2]|e] tr2] eqn:Hb.
  - destruct (loop_body_events_ok _ _ _ _ _ Hb) as (evs & -> & Hc).
    exists evs. split; [done|]. exists evs, []. rewrite app_nil_r.
    by repeat split; try left.
  - destruct (loop_body_events_ok _ _ _ _ _ Hb) as (evs & -> & Hc).
    destruct (IH st2 (tr ++ evs)) as (evs' & Ht & good & last & -> & Hg & Hl).
    exists (evs ++ good ++ last). split; [by rewrite Ht, <- app_assoc|].
    exists (evs ++ good), last. rewrite <- app_assoc. repeat split; [|done].
    rewrite forallb_app. by rewrite Hc, Hg.
  - destruct (loop_body_events_raise _ _ _ _ Hb) as (ev & -> & Hev).
    exists [ev]. split; [done|].
    destruct Hev as [Hc | (url & r & -> & Hff)].
    + exists [ev], []. simpl. rewrite Hc. by repeat split; try left.
    + exists [], [EvGet url r]. split; [done|]. split; [done|].
      right. by eexists _, _, _.
Qed.

Lemma collect_publications_events fuel tr :
  ∃ evs, trace_of (collect' fuel tr) = tr ++ evs
         ∧ loop_events (collect' fuel tr) evs.
Proof.
  destruct (while_loop_events fuel initial_state tr)
    as (evs & Ht & good & last & -> & Hg & Hl).
  unfold collect_publications.
  destruct (loop' fuel initial_state tr) as [[st|e] tr1|tr1]; simpl in *;
    (exists (good ++ last); split; [done|]; exists good, last;
     repeat split; [done|];
     destruct Hl as [-> | (url & r & e' & -> & Hff & Ho)]; [by left|];
     try discriminate Ho; right; by eexists _, _, _).
Qed.

End Traces.

Lemma clean_event_not_write ev : clean_event ev = true -> is_write ev = false.
Proof. by destruct ev. Qed.

Lemma clean_writes evs : forallb clean_event evs = true -> writes evs = [].
Proof.
  induction evs as [|ev evs IH]; simpl; [done|].
  intros [Hc Hr]%andb_true_iff. unfold writes in *. simpl.
  by rewrite (clean_event_not_write _ Hc), IH.
Qed.

Lemma writes_app tr1 tr2 : writes (tr1 ++ tr2) = writes tr1 ++ writes tr2.
Proof. unfold writes. apply List.filter_app. Qed.

Lemma clean_lookup (evs : list event) i url r :
  forallb clean_event evs = true -> evs !! i = Some (EvGet url r) ->
  fetch_failed r = false.
Proof.
  intros Hc Hi. rewrite forallb_forall in Hc.
  assert (In (EvGet url r) evs) as Hin
    by (apply list_elem_of_In; by apply list_elem_of_lookup_2 with i).
  specialize (Hc _ Hin). simpl in Hc. by apply negb_true_iff in Hc.
Qed.

(** ** Writing the data file *)

Lemma write_output_cases (E : env) fs output_path scholar_url publications tr :
  write_output E fs output_path scholar_url publications tr
  = let dir := Path.dirname output_path in
    if Str.is_empty dir then (Raise (FileNotFoundError dir), tr)
    else
      match fs tr (Makedirs dir) with
      | Some failure => (Raise (os_error failure dir), tr)
      | None =>
          match fs (tr ++ [EvMakedirs dir]) (OpenForWriting output_path) with
          | Some failure =>
              (Raise (os_error failure output_path), tr ++ [EvMakedirs dir])
          | None =>
              if Path.names_directory output_path
              then (Raise (IsADirectoryError output_path), tr ++ [EvMakedirs dir])
              else (Ok tt,
                    tr ++ [EvMakedirs dir;
                           EvWrite output_path
                             (output_document E scholar_url publications)])
          end
      end.
Proof.
  unfold write_output, bind, makedirs, write_file, output_document. cbv zeta.
  destruct (Str.is_empty _); [reflexivity|].
  destruct (fs tr _); [reflexivity|].
  destruct (fs _ _); [reflexivity|].
  destruct (Path.names_directory _); [reflexivity|]. by rewrite <- app_assoc.
Qed.

Lemma os_error_not_exit failure path msg : os_error failure path ≠ SystemExit msg.
Proof. by destruct failure. Qed.

(** [write_output] either makes the directory and writes the file, or
    raises an error of the file system without having written. *)
Lemma write_output_outcome (E : env) fs output_path scholar_url publications
    tr r tr' :
  write_output E fs output_path scholar_url publications tr = (r, tr') ->
  let dir := Path.dirname output_path in
  (r = Ok tt
   ∧ tr' = tr ++ [EvMakedirs dir;
                  EvWrite output_path (output_document E scholar_url publications)]
   ∧ Str.is_empty dir = false
   ∧ Path.names_directory output_path = false
   ∧ fs tr (Makedirs dir) = None
   ∧ fs (tr ++ [EvMakedirs dir]) (OpenForWriting output_path) = None)
  ∨ (∃ e, r = Raise e ∧ (∀ msg, e ≠ SystemExit msg)
          ∧ (tr' = tr ∨ tr' = tr ++ [EvMakedirs dir])).
Proof.
  rewrite write_output_cases. cbv zeta.
  destruct (Str.is_empty _) eqn:He.
  { intros [= <- <-]. right. eexists. split; [done|]. split; [done | by left]. }
  destruct (fs tr _) as [f1|] eqn:H1.
  { intros [= <- <-]. right. eexists. split; [done|].
    split; [intros msg; apply os_error_not_exit | by left]. }
  destruct (fs (tr ++ _) _) as [f2|] eqn:H2.
  { intros Heq. injection Heq as <- <-. right. eexists. split; [done|].
    split; [intros msg; apply os_error_not_exit | by right]. }
  destruct (Path.names_directory _) eqn:Hn.
  { intros Heq. injection Heq as <- <-. right. eexists. split; [done|].
    split; [done | by right]. }
  intros Heq. injection Heq as <- <-. left. by repeat split.
Qed.

Lemma clean_trace (tr : list event) :
  forallb clean_event tr = true ->
  (∀ i url r, tr !! i = Some (EvGet url r) -> fetch_failed r = true -> False)
  ∧ writes tr = []
  ∧ (∀ path content, EvWrite path content ∈ tr -> False).
Proof.
  intros Hc. split; [|split].
  - intros i url r Hi Hff. by rewrite (clean_lookup _ _ _ _ Hc Hi) in Hff.
  - by apply clean_writes.
  - intros path content Hin. apply list_elem_of_In in Hin.
    rewrite forallb_forall in Hc. by specialize (Hc _ Hin).
Qed.

Section Main.

Variable select_rows : string -> list row.
Variable E : env.
Variable fs : list event -> fs_request -> option os_failure.
Variable netloc_check : string -> option string.
Variable unquote : string -> string.

Abbreviation main' := (main select_rows E fs netloc_check unquote).

(** How [main] ends: before any request, or with the collection, which
    is handed to [write_output] when it was returned. *)
Lemma main_outcome fuel a :
  (∃ e, main' fuel a = Finished (Raise e) [])
  ∨ ∃ scholar_url user_id,
      match collect_publications select_rows E user_id (arg_pagesize a)
              (arg_sleep a) (arg_max_pages a) fuel [] with
      | Finished (Ok pubs) tr0 =>
          main' fuel a
          = (let '(r, tr') :=
               write_output E fs (arg_output a) scholar_url pubs tr0 in
             Finished r tr')
      | Finished (Raise e) tr0 => main' fuel a = Finished (Raise e) tr0
      | OutOfFuel tr0 => main' fuel a = OutOfFuel tr0
      end.
Proof.
  unfold main.
  destruct (if truthy (arg_scholar_url a) then _ else _) as [[|c u]|];
    [left; by eexists | | left; by eexists].
  destruct (extract_user_id netloc_check unquote (String c u)) as [[[|c' uid]|]|e];
    [left; by eexists | | left; by eexists | left; by eexists].
  right. exists (String c u), (String c' uid).
  by destruct (collect_publications _ _ _ _ _ _ _ _) as [[pubs|e] tr0|tr0].
Qed.

(** C6, amended. A failed fetch (an error status from 400 to 599, a
    blocked response, no response) is the last event of the run, which
    ends with an exception and without any write.  A write happens only
    as the last event of a run whose collection returned, the requests of
    which all succeeded; a run has at most one write, and exactly one
    when [main] returns. *)
Theorem output_written_once (fuel : nat) (a : args) :
  let out := main' fuel a in
  (∀ i url r,
     trace_of out !! i = Some (EvGet url r) -> fetch_failed r = true ->
     S i = length (trace_of out)
     ∧ (∃ e, out = Finished (Raise e) (trace_of out))
     ∧ writes (trace_of out) = [])
  ∧ (∀ path content,
       EvWrite path content ∈ trace_of out ->
       ∃ scholar_url user_id pubs tr0,
         collect_publications select_rows E user_id (arg_pagesize a)
           (arg_sleep a) (arg_max_pages a) fuel [] = Finished (Ok pubs) tr0
         ∧ forallb clean_event tr0 = true
         ∧ path = arg_output a
         ∧ content = output_document E scholar_url pubs
         ∧ out = Finished (Ok tt)
                   (tr0 ++ [EvMakedirs (Path.dirname path); EvWrite path content]))
  ∧ (∀ tr, out = Finished (Ok tt) tr -> length (writes tr) = 1%nat)
  ∧ (length (writes (trace_of out)) <= 1)%nat.
Proof.
  intros out. subst out.
  destruct (main_outcome fuel a) as [[e He] | (scholar_url & user_id & H)].
  { rewrite He. simpl. split; [|split; [|split]].
    - intros i url r Hi. by rewrite lookup_nil in Hi.
    - intros path content Hin. by apply elem_of_nil in Hin.
    - intros tr Htr. discriminate Htr.
    - lia. }
  destruct (collect_publications_events select_rows E user_id (arg_pagesize a)
              (arg_sleep a) (arg_max_pages a) fuel [])
    as (evs & Ht & good & last & -> & Hg & Hl).
  simpl in Ht.
  destruct (clean_trace good Hg) as (Hgets & Hwrites & Hnowrite).
  destruct (collect_publications _ _ _ _ _ _ _ _) as [[pubs|e] tr0|tr0] eqn:Hcol;
    simpl in Ht; subst tr0.
  - (* the collection returned *)
    destruct Hl as [-> | (url & r & e' & _ & _ & Ho)]; [|discriminate Ho].
    rewrite app_nil_r in H.
    destruct (write_output E fs (arg_output a) scholar_url pubs good)
      as [r tr'] eqn:Hw.
    rewrite H.
    apply write_output_outcome in Hw
      as [(-> & -> & _) | (e & -> & _ & [-> | ->])]; simpl.
    + (* the file was written *)
      assert (writes (good ++ [EvMakedirs (Path.dirname (arg_output a));
                EvWrite (arg_output a) (output_document E scholar_url pubs)])
              = [EvWrite (arg_output a) (output_document E scholar_url pubs)]) as Hw
        by (by rewrite writes_app, Hwrites).
      split; [|split; [|split]].
      * intros i url r Hi Hff. apply lookup_app_Some in Hi.
        destruct Hi as [Hi | [_ Hi]]; [destruct (Hgets i url r Hi Hff)|].
        destruct (i - length good)%nat as [|[|n]]; simpl in Hi; discriminate Hi.
      * intros path content Hin. apply elem_of_app in Hin.
        destruct Hin as [Hin | Hin]; [destruct (Hnowrite path content Hin)|].
        apply list_elem_of_In in Hin.
        destruct Hin as [Hin | [Hin | []]]; [discriminate Hin|].
        injection Hin as <- <-.
        exists scholar_url, user_id, pubs, good.
        rewrite app_nil_r in Hcol. by repeat split.
      * intros tr [= <-]. by rewrite Hw.
      * rewrite Hw. simpl. lia.
    + (* the directory could not be made *)
      split; [|split; [|split]].
      * intros i url r Hi Hff. destruct (Hgets i url r Hi Hff).
      * intros path content Hin. destruct (Hnowrite path content Hin).
      * intros tr Htr. discriminate Htr.
      * rewrite Hwrites. simpl. lia.
    + (* the file could not be opened *)
      assert (writes (good ++ [EvMakedirs (Path.dirname (arg_output a))]) = [])
        as Hw by (by rewrite writes_app, Hwrites).
      split; [|split; [|split]].
      * intros i url r Hi Hff. apply lookup_app_Some in Hi.
        destruct Hi as [Hi | [_ Hi]]; [destruct (Hgets i url r Hi Hff)|].
        destruct (i - length good)%nat as [|n]; simpl in Hi; discriminate Hi.
      * intros path content Hin.
        assert (In (EvWrite path content)
                  (writes (good ++ [EvMakedirs (Path.dirname (arg_output a))])))
          as Hin' by (apply filter_In; split; [by apply list_elem_of_In | done]).
        rewrite Hw in Hin'. destruct Hin'.
      * intros tr Htr. discriminate Htr.
      * rewrite Hw. simpl. lia.
  - (* the collection raised *)
    rewrite H. simpl.
    assert (writes (good ++ last) = []) as Hw.
    { rewrite writes_app, Hwrites.
      by destruct Hl as [-> | (url & r & e' & -> & _ & _)]. }
    split; [|split; [|split]].
    + intros i url r Hi Hff. apply lookup_app_Some in Hi.
      destruct Hi as [Hi | [Hge Hi]]; [destruct (Hgets i url r Hi Hff)|].
      destruct Hl as [-> | (url' & r' & e' & -> & _ & _)].
      { by rewrite lookup_nil in Hi. }
      destruct (i - length good)%nat as [|n] eqn:Hn; [|by destruct n].
      split; [|split; [by eexists | done]].
      rewrite length_app. simpl. lia.
    + intros path content Hin.
      assert (In (EvWrite path content) (writes (good ++ last))) as Hin'
        by (apply filter_In; split; [by apply list_elem_of_In | done]).
      rewrite Hw in Hin'. destruct Hin'.
    + intros tr Htr. discriminate Htr.
    + rewrite Hw. simpl. lia.
  - (* the bound on the iterations was hit *)
    rewrite H. simpl.
    destruct Hl as [-> | (url & r & e' & _ & _ & Ho)]; [|discriminate Ho].
    rewrite app_nil_r in *.
    split; [|split; [|split]].
    + intros i url r Hi Hff. destruct (Hgets i url r Hi Hff).
    + intros path content Hin. destruct (Hnowrite path content Hin).
    + intros tr Htr. discriminate Htr.
    + rewrite Hwrites. simpl. lia.
Qed.

End Main.

(** ** The sort *)

Lemma insert_by_year_perm p l : Permutation (insert_by_year p l) (p :: l).
Proof.
  induction l as [|q l IH]; simpl; [done|].
  destruct (year p <? year q); [|done].
  rewrite IH. apply perm_swap.
Qed.

Lemma sort_by_year_desc_perm l : Permutation (sort_by_year_desc l) l.
Proof.
  induction l as [|p l IH]; simpl; [done|].
  rewrite insert_by_year_perm. by constructor.
Qed.

Lemma insert_by_year_descending p l :
  year_descending l -> year_descending (insert_by_year p l).
Proof.
  unfold year_descending. induction 1 as [|q l Hl IH Hq]; simpl.
  - repeat constructor.
  - destruct (year p <? year q) eqn:Hpq.
    + constructor; [done|].
      apply Z.ltb_lt in Hpq.
      rewrite insert_by_year_perm. constructor; [lia | done].
    + apply Z.ltb_ge in Hpq. constructor; [by constructor|].
      constructor; [done|].
      eapply Forall_impl; [exact Hq|]. simpl. intros r Hr. lia.
Qed.

Lemma sort_by_year_desc_descending l : year_descending (sort_by_year_desc l).
Proof.
  induction l as [|p l IH]; simpl; [constructor|].
  by apply insert_by_year_descending.
Qed.

Lemma of_year_insert y p l :
  of_year y (insert_by_year p l) = of_year y (p :: l).
Proof.
  unfold of_year. induction l as [|q l IH]; simpl; [done|].
  destruct (year p <? year q) eqn:Hpq; [|done].
  apply Z.ltb_lt in Hpq. simpl. rewrite IH. simpl.
  destruct (year p =? y) eqn:Hp, (year q =? y) eqn:Hq; try done.
  apply Z.eqb_eq in Hp, Hq. lia.
Qed.

(** The sort is stable: the records of one year keep their order. *)
Lemma sort_by_year_desc_stable y l :
  of_year y (sort_by_year_desc l) = of_year y l.
Proof.
  induction l as [|p l IH]; simpl; [done|].
  rewrite of_year_insert. unfold of_year in *. simpl. by rewrite IH.
Qed.

(** ** The configuration file and the subject identifier *)

Lemma scan_config_lines_app before rest :
  scan_config_lines before = None ->
  scan_config_lines (before ++ rest) = scan_config_lines rest.
Proof.
  induction before as [|line before IH]; intros H; [done|].
  rewrite <- app_comm_cons.
  unfold scan_config_lines in *; fold scan_config_lines in *.
  destruct (Str.startswith "#" (Str.lstrip line)); [auto|].
  destruct (Re.match_group pattern line); [discriminate H | auto].
Qed.

(** A comment line is passed over. *)
Lemma scan_config_lines_comment line rest :
  Str.startswith "#" (Str.lstrip line) = true ->
  scan_config_lines (line :: rest) = scan_config_lines rest.
Proof.
  intros H. unfold scan_config_lines; fold scan_config_lines. by rewrite H.
Qed.

(** C9. Let the configuration file have the line
    [googlescholar: https://scholar.google.com/citations?user=XYZ123],
    with or without a line end, after lines none of which the scan
    stops at (comment lines and lines the pattern does not match).  Then
    the URL found is the one of that line, and the subject identifier
    extracted from it is XYZ123.  [unquote] is only known to leave texts
    without a percent sign as they are. *)
Theorem config_line_user_id (E : env)
    (netloc_check : string -> option string) (unquote : string -> string)
    (config_path content : string) (before after : list string)
    (line_end : string) :
  (∀ s, Str.existsb (UrlParse.is_char 37) s = false -> unquote s = s) ->
  file E config_path = Some content ->
  readlines content = before ++ (scenario_config_line +:+ line_end) :: after ->
  line_end = "" ∨ line_end = String "010"%char "" ->
  scan_config_lines before = None ->
  parse_config_scholar_url E config_path = Some scenario_url
  ∧ extract_user_id netloc_check unquote scenario_url = Ok (Some "XYZ123").
Proof.
  intros Hunq Hfile Hlines Hend Hbefore. split.
  - unfold parse_config_scholar_url. rewrite Hfile, Hlines.
    rewrite (scan_config_lines_app _ _ Hbefore).
    destruct Hend as [-> | ->]; reflexivity.
  - unfold extract_user_id.
    change (UrlParse.query netloc_check scenario_url) with (Ok (A:=string) "user=XYZ123").
    simpl rbind.
    change (UrlParse.parse_qs_get unquote "user=XYZ123" "user")
      with (match List.filter (fun nv : string * string => bool_decide (nv.1 = "user"))
                    [(unquote "user", unquote "XYZ123")] with
            | [] => None
            | nvs => Some (List.map snd nvs)
            end).
    by rewrite (Hunq "user"), (Hunq "XYZ123").
Qed.

Lemma config_line_user_id_witness :
  parse_config_scholar_url (Demo.world []) "_config.yml" = Some scenario_url
  ∧ extract_user_id Demo.netloc_check Demo.unquote scenario_url = Ok (Some "XYZ123").
Proof.
  apply (config_line_user_id (Demo.world []) Demo.netloc_check Demo.unquote
           "_config.yml"
           scenario_config_line [] [] "").
  - reflexivity.
  - reflexivity.
  - reflexivity.
  - by left.
  - reflexivity.
Defined.

(** ** The entry point on the small world *)

(** C6 as claimed fails.  The server answers the first request with
    status 304, which is no success status; [raise_for_status] lets it
    pass, the body is read as a page, and the run returns after having
    written the file. *)
Lemma failed_fetch_aborts_claim_fails :
  ¬ failed_fetch_aborts_claim Demo.select_rows (Demo.world [not_modified])
      Demo.fs Demo.netloc_check Demo.unquote 5 (Demo.cli 2 0).
Proof.
  intros H.
  destruct (H 0%nat (Demo.url 0 2) 304 "ab" eq_refl ltac:(lia)) as [[e He] _].
  vm_compute in He. discriminate He.
Qed.

Lemma output_written_once_witness :
  writes (trace_of (main Demo.select_rows (Demo.world Demo.blocked_second_page)
                      Demo.fs Demo.netloc_check Demo.unquote 5 (Demo.cli 2 0))) = []
  ∧ length (writes (trace_of (main Demo.select_rows (Demo.world Demo.two_pages)
                               Demo.fs Demo.netloc_check Demo.unquote 5 (Demo.cli 2 0)))) = 1%nat.
Proof.
  split.
  - refine (proj2 (proj2 (proj1 (output_written_once Demo.select_rows
              (Demo.world Demo.blocked_second_page) Demo.fs Demo.netloc_check Demo.unquote 5
              (Demo.cli 2 0))
              2%nat (Demo.url 2 2)
              (Response 200 "Our systems have detected Unusual Traffic.")
              _ _))); vm_compute; reflexivity.
  - refine (proj1 (proj2 (proj2 (output_written_once Demo.select_rows
              (Demo.world Demo.two_pages) Demo.fs Demo.netloc_check Demo.unquote 5
              (Demo.cli 2 0)))) _ _).
    vm_compute. reflexivity.
Defined.

(** With an output path that has no directory part, [os.makedirs] is
    given the empty path and raises after the collection was made:
    nothing is written. *)
Lemma main_bare_output_path :
  main Demo.select_rows (Demo.world [Response 200 "a"]) Demo.fs Demo.netloc_check Demo.unquote 5
    {| arg_scholar_url := Some scenario_url; arg_config := "_config.yml";
       arg_output := "publications.json"; arg_pagesize := 2; arg_sleep := 0%Q;
       arg_max_pages := 0 |}
  = Finished (Raise (FileNotFoundError ""))
      [EvGet (Demo.url 0 2) (Response 200 "a")].
Proof. vm_compute. reflexivity. Qed.

(** ** Texts *)

Lemma forallb_app p a b :
  Str.forallb p (a +:+ b) = Str.forallb p a && Str.forallb p b.
Proof. induction a as [|c a IH]; simpl; [done|]. by rewrite IH, andb_assoc. Qed.

Lemma existsb_app p a b :
  Str.existsb p (a +:+ b) = Str.existsb p a || Str.existsb p b.
Proof. induction a as [|c a IH]; simpl; [done|]. by rewrite IH, orb_assoc. Qed.

Lemma forallb_impl (p q : ascii -> bool) s :
  (∀ c, p c = true -> q c = true) ->
  Str.forallb p s = true -> Str.forallb q s = true.
Proof.
  intros Hpq. induction s as [|c s IH]; simpl; [done|].
  intros [Hc Hs]%andb_true_iff. by rewrite (Hpq c Hc), IH.
Qed.


Lemma append_nil_l (b : string) : "" +:+ b = b.
Proof. reflexivity. Qed.

Lemma append_cons c (a b : string) : String c a +:+ b = String c (a +:+ b).
Proof. reflexivity. Qed.

Lemma append_assoc (a b c : string) : (a +:+ b) +:+ c = a +:+ b +:+ c.
Proof.
  induction a as [|x a IH]; [reflexivity|].
  change (String x ((a +:+ b) +:+ c) = String x (a +:+ b +:+ c)). by f_equal.
Qed.

Lemma append_empty_r (a : string) : a +:+ "" = a.
Proof.
  induction a as [|x a IH]; [reflexivity|].
  change (String x (a +:+ "") = String x a). by f_equal.
Qed.

Lemma length_append (a b : string) :
  String.length (a +:+ b) = (String.length a + String.length b)%nat.
Proof.
  induction a as [|c a IH]; rewrite ?append_cons, ?append_nil_l; simpl; [done|].
  by rewrite IH.
Qed.






(** ** Decimal texts *)

Lemma string_of_uint_digits d :
  Str.forallb Str.isdecimal (DecimalString.NilEmpty.string_of_uint d) = true.
Proof. induction d; simpl; try done. Qed.

Lemma str_of_int_chars n : Str.forallb int_char (Url.str_of_int n) = true.
Proof.
  unfold Url.str_of_int.
  assert (∀ d, Str.forallb int_char (DecimalString.NilZero.string_of_uint d) = true) as H.
  { intros d. unfold DecimalString.NilZero.string_of_uint.
    destruct d; try done;
      apply (forallb_impl Str.isdecimal); try apply string_of_uint_digits;
      intros c Hc; unfold int_char; by rewrite Hc. }
  destruct (Z.to_int n) as [d|d]; simpl; [apply H|].
  change (Str.forallb int_char (DecimalString.NilZero.string_of_uint d) = true).
  apply H.
Qed.

Lemma decimal_value_acc d acc :
  decimal_value (Z.pos acc) (DecimalString.NilEmpty.string_of_uint d)
  = Z.pos (Pos.of_uint_acc d acc).
Proof.
  revert acc. induction d; intros acc; simpl; [done|..];
    rewrite <- IHd; f_equal; lia.
Qed.

Lemma decimal_value_uint d :
  decimal_value 0 (DecimalString.NilEmpty.string_of_uint d)
  = Z.of_N (Pos.of_uint d).
Proof.
  induction d; simpl; [done | done | ..]; apply (decimal_value_acc d).
Qed.

Lemma string_of_uint_nonempty d :
  d ≠ Decimal.Nil -> DecimalString.NilEmpty.string_of_uint d ≠ "".
Proof. by destruct d. Qed.

Lemma str_of_int_pos p :
  Url.str_of_int (Z.pos p)
  = DecimalString.NilEmpty.string_of_uint (Pos.to_uint p).
Proof.
  unfold Url.str_of_int. simpl.
  pose proof (DecimalPos.Unsigned.to_uint_nonnil p) as Hnil.
  unfold DecimalString.NilZero.string_of_uint. by destruct (Pos.to_uint p).
Qed.

Lemma str_of_int_neg p :
  Url.str_of_int (Z.neg p)
  = String "-" (DecimalString.NilEmpty.string_of_uint (Pos.to_uint p)).
Proof.
  unfold Url.str_of_int. simpl.
  pose proof (DecimalPos.Unsigned.to_uint_nonnil p) as Hnil.
  unfold DecimalString.NilZero.string_of_uint. by destruct (Pos.to_uint p).
Qed.

Lemma decimal_value_pos p :
  decimal_value 0 (DecimalString.NilEmpty.string_of_uint (Pos.to_uint p))
  = Z.pos p.
Proof. by rewrite decimal_value_uint, DecimalPos.Unsigned.of_to. Qed.

Lemma read_digits_app d rest :
  Str.forallb Str.isdecimal d = true -> no_digit_head rest = true ->
  JsonRead.read_digits (d +:+ rest) = (d, rest).
Proof.
  intros Hd Hr. induction d as [|c d IH]; rewrite ?append_cons, ?append_nil_l.
  - destruct rest as [|c r]; [done|]. simpl in *.
    apply negb_true_iff in Hr. by rewrite Hr.
  - simpl in *. apply andb_true_iff in Hd as [Hc Hd]. by rewrite Hc, (IH Hd).
Qed.

Lemma isdecimal_not_minus c : Str.isdecimal c = true -> (Str.ord c =? 45)%N = false.
Proof. destruct c as [[] [] [] [] [] [] [] []]; vm_compute; congruence. Qed.

(** The decimal text of an integer is read back as that integer, up to
    the first character that is no digit. *)
Lemma read_int_str_of_int n rest :
  no_digit_head rest = true ->
  JsonRead.read_int (Url.str_of_int n +:+ rest) = Some (n, rest).
Proof.
  intros Hr. unfold JsonRead.read_int. destruct n as [|p|p].
  - change (Url.str_of_int 0) with "0". rewrite append_cons, append_nil_l.
    change (Str.ord "0" =? 45)%N with false. cbv beta iota.
    change (String "0" rest) with ("0" +:+ rest).
    by rewrite read_digits_app.
  - rewrite str_of_int_pos.
    pose proof (string_of_uint_digits (Pos.to_uint p)) as Hd.
    pose proof (string_of_uint_nonempty _ (DecimalPos.Unsigned.to_uint_nonnil p)) as Hne.
    pose proof (decimal_value_pos p) as Hv.
    destruct (DecimalString.NilEmpty.string_of_uint (Pos.to_uint p)) as [|c d];
      [done|].
    rewrite append_cons.
    rewrite (isdecimal_not_minus c) by (simpl in Hd; by apply andb_true_iff in Hd as [? _]).
    rewrite <- append_cons, read_digits_app by done. by rewrite Hv.
  - rewrite str_of_int_neg, append_cons.
    change (Str.ord "-" =? 45)%N with true. cbv beta iota.
    pose proof (string_of_uint_digits (Pos.to_uint p)) as Hd.
    pose proof (string_of_uint_nonempty _ (DecimalPos.Unsigned.to_uint_nonnil p)) as Hne.
    pose proof (decimal_value_pos p) as Hv.
    rewrite read_digits_app by done.
    destruct (DecimalString.NilEmpty.string_of_uint (Pos.to_uint p)) as [|c d];
      [done|].
    by rewrite Hv.
Qed.

Lemma str_of_int_inj a b : Url.str_of_int a = Url.str_of_int b -> a = b.
Proof.
  intros H. pose proof (read_int_str_of_int a "" eq_refl) as Ha.
  rewrite H, read_int_str_of_int in Ha by done. by injection Ha.
Qed.

(** The decimal text of a positive number does not start with a zero. *)
Lemma to_uint_not_D0 p d : Pos.to_uint p ≠ Decimal.D0 d.
Proof.
  intros H. pose proof (DecimalPos.Unsigned.to_of (Pos.to_uint p)) as Hn.
  rewrite DecimalPos.Unsigned.of_to in Hn. simpl in Hn.
  rewrite H, DecimalFacts.unorm_D0 in Hn. unfold Decimal.unorm in Hn.
  destruct (Decimal.nzhead d) eqn:Hz; try discriminate Hn.
  - injection Hn as ->. by apply (DecimalPos.Unsigned.to_uint_nonzero p).
  - by apply (DecimalFacts.nzhead_nonzero d u).
Qed.

Lemma decimal_value_lower s acc :
  0 <= acc -> acc * 10 ^ Z.of_nat (String.length s) <= decimal_value acc s.
Proof.
  revert acc. induction s as [|c s IH]; intros acc Hacc; simpl decimal_value.
  - simpl. lia.
  - change (String.length (String c s)) with (S (String.length s)).
    rewrite Nat2Z.inj_succ, Z.pow_succ_r by lia.
    specialize (IH (10 * acc + Z.of_N (Str.ord c - 48)) ltac:(lia)).
    assert (0 <= 10 ^ Z.of_nat (String.length s)) by (apply Z.pow_nonneg; lia).
    nia.
Qed.

(** A number below 10^k is written with at most [k] digits. *)
Lemma str_of_int_length n k :
  0 <= n < 10 ^ Z.of_nat k -> (1 <= k)%nat ->
  (String.length (Url.str_of_int n) <= k)%nat.
Proof.
  intros Hn Hk. destruct n as [|p|p]; [simpl; lia | | lia].
  rewrite str_of_int_pos. pose proof (decimal_value_pos p) as Hv.
  pose proof (to_uint_not_D0 p) as Hz.
  pose proof (DecimalPos.Unsigned.to_uint_nonnil p) as Hnil.
  destruct (Pos.to_uint p) as [|u|u|u|u|u|u|u|u|u|u];
    [done | by destruct (Hz u) | ..];
    simpl DecimalString.NilEmpty.string_of_uint in *;
    simpl decimal_value in Hv;
    (match type of Hv with
     | decimal_value ?a ?s = _ =>
         pose proof (decimal_value_lower s a ltac:(lia)) as Hl;
         assert (10 ^ Z.of_nat (String.length s) < 10 ^ Z.of_nat k) as Hp
           by (assert (0 <= 10 ^ Z.of_nat (String.length s))
                 by (apply Z.pow_nonneg; lia); nia);
         apply Z.pow_lt_mono_r_iff in Hp; [simpl; lia | lia | lia]
     end).
Qed.

Lemma str_of_int_digits n :
  0 <= n -> Str.forallb Str.isdecimal (Url.str_of_int n) = true.
Proof.
  intros Hn. destruct n as [|p|p]; [done | | lia].
  rewrite str_of_int_pos. apply string_of_uint_digits.
Qed.

Lemma decimal_value_str_of_int n :
  0 <= n -> decimal_value 0 (Url.str_of_int n) = n.
Proof.
  intros Hn. destruct n as [|p|p]; [done | | lia].
  rewrite str_of_int_pos. apply decimal_value_pos.
Qed.

(** Filling with zeros, for a number below 10^w: [w] digits, and the
    same value. *)
Lemma zeros_facts k s :
  String.length (Str.concat (repeat "0" k) +:+ s) = (k + String.length s)%nat
  ∧ Str.forallb Str.isdecimal (Str.concat (repeat "0" k) +:+ s)
    = Str.forallb Str.isdecimal s
  ∧ decimal_value 0 (Str.concat (repeat "0" k) +:+ s) = decimal_value 0 s.
Proof.
  induction k as [|k (IH1 & IH2 & IH3)]; [done|].
  change (Str.concat (repeat "0" (S k)) +:+ s)
    with (String "0" (Str.concat (repeat "0" k) +:+ s)).
  change (decimal_value 0 (String "0" ?x)) with (decimal_value 0 x).
  change (Str.forallb Str.isdecimal (String "0" ?x))
    with (Str.forallb Str.isdecimal x).
  change (String.length (String "0" ?x)) with (S (String.length x)).
  by rewrite IH1, IH2, IH3.
Qed.

Lemma zfill_digits w n :
  0 <= n < 10 ^ Z.of_nat w -> (1 <= w)%nat ->
  has_digits w (zfill w (Url.str_of_int n)) = true
  ∧ decimal_value 0 (zfill w (Url.str_of_int n)) = n.
Proof.
  intros Hn Hw. pose proof (str_of_int_length n w Hn Hw) as Hlen.
  unfold zfill, has_digits.
  destruct (zeros_facts (w - String.length (Url.str_of_int n))
              (Url.str_of_int n)) as (H1 & H2 & H3).
  rewrite H1, H2, H3, str_of_int_digits, decimal_value_str_of_int by lia.
  split; [|done]. rewrite andb_true_r. apply Nat.eqb_eq. lia.
Qed.

Lemma str_of_int_nonempty n : Url.str_of_int n ≠ "".
Proof.
  intros H. pose proof (read_int_str_of_int n "" eq_refl) as Hn.
  rewrite H in Hn. discriminate Hn.
Qed.

Lemma append_inv_head (a b c : string) : a +:+ b = a +:+ c -> b = c.
Proof.
  induction a as [|x a IH]; rewrite ?append_cons, ?append_nil_l; [done|].
  intros [= H]. by apply IH.
Qed.

Lemma append_inv_tail (a b c : string) : a +:+ c = b +:+ c -> a = b.
Proof.
  revert b. induction a as [|x a IH]; intros [|y b];
    rewrite ?append_cons, ?append_nil_l; try done.
  - intros H. apply (f_equal String.length) in H. simpl in H.
    rewrite length_append in H. lia.
  - intros H. apply (f_equal String.length) in H. simpl in H.
    rewrite length_append in H. lia.
  - intros [= -> H]. f_equal. by apply IH.
Qed.

(** ** Building the request *)


Lemma quote_char_unreserved c :
  Url.unreserved c = true -> Url.quote_char c = String c "".
Proof. intros H. unfold Url.quote_char. by rewrite H. Qed.


Lemma quote_plus_unreserved s :
  Str.forallb Url.unreserved s = true -> Url.quote_plus s = s.
Proof.
  induction s as [|c s IH]; simpl; [done|].
  intros [Hc Hs]%andb_true_iff. by rewrite (quote_char_unreserved c Hc), IH.
Qed.

Lemma int_char_unreserved c : int_char c = true -> Url.unreserved c = true.
Proof. destruct c as [[] [] [] [] [] [] [] []]; vm_compute; congruence. Qed.

Lemma quote_plus_str_of_int n :
  Url.quote_plus (Url.str_of_int n) = Url.str_of_int n.
Proof.
  apply quote_plus_unreserved, (forallb_impl int_char); [|apply str_of_int_chars].
  apply int_char_unreserved.
Qed.

Lemma build_list_url_query user_id start pagesize :
  build_list_url user_id start pagesize
  = "https://scholar.google.com/citations?" +:+ list_query user_id start pagesize.
Proof.
  unfold build_list_url, list_query, Url.urlencode.
  rewrite !quote_plus_str_of_int. reflexivity.
Qed.

(** Requests for different offsets have different URLs. *)
Lemma build_list_url_inj user_id start start' pagesize :
  build_list_url user_id start pagesize = build_list_url user_id start' pagesize ->
  start = start'.
Proof.
  rewrite !build_list_url_query. unfold list_query. intros H.
  do 4 apply append_inv_head in H. apply append_inv_tail in H.
  by apply str_of_int_inj.
Qed.

(** * Further properties *)

(** ** Record Extractor: the rows and the records *)

Lemma parse_row_untitled r : has_title r = false -> parse_row r = Ok None.
Proof. unfold has_title, parse_row. by destruct (title_el r). Qed.

Lemma parse_row_titled r :
  has_title r = true ->
  (∃ pub, parse_row r = Ok (Some pub) ∧ row_record r pub)
  ∨ (∃ msg, parse_row r = Raise (ValueError msg)
            ∧ bad_year_text (year_text_of r) = true).
Proof.
  unfold has_title, parse_row, row_record, year_text_of.
  destruct (title_el r) as [a|]; [intros _ | discriminate].
  destruct (parse_year (default "" (year_cell r))) as [y|e] eqn:Hy; simpl.
  - left. eexists. split; [reflexivity|]. exists a. by repeat split.
  - right. unfold parse_year in Hy.
    destruct (str_isdigit (default "" (year_cell r))) eqn:Hd; [|discriminate].
    unfold py_int in Hy.
    destruct (negb _ && Str.forallb Str.isdecimal _) eqn:Hc.
    + destruct (max_str_digits <? _)%nat eqn:Hlen; [|discriminate].
      injection Hy as <-. eexists. split; [reflexivity|].
      unfold bad_year_text. rewrite Hd, Hlen. apply orb_true_r.
    + injection Hy as <-. eexists. split; [reflexivity|].
      unfold bad_year_text. rewrite Hd.
      unfold str_isdigit in Hd. apply andb_true_iff in Hd as [Hne _].
      rewrite Hne in Hc. cbn [andb] in Hc. by rewrite Hc.
Qed.

Lemma parse_row_ok_titled r pub :
  parse_row r = Ok (Some pub) -> has_title r = true ∧ row_record r pub.
Proof.
  intros H. destruct (has_title r) eqn:Ht.
  - split; [done|].
    destruct (parse_row_titled r Ht) as [(pub' & H' & Hr) | (msg & H' & _)];
      rewrite H in H'; [by injection H' as -> | discriminate].
  - by rewrite (parse_row_untitled r Ht) in H.
Qed.

Lemma parse_rows_ok rows acc pubs :
  parse_rows rows acc = Ok pubs ->
  ∃ new, pubs = acc ++ new
         ∧ Forall2 row_record (List.filter has_title rows) new.
Proof.
  revert acc. induction rows as [|r rows IH]; intros acc; simpl.
  - intros [= <-]. exists []. by rewrite app_nil_r.
  - destruct (parse_row r) as [[pub|]|e] eqn:Hr; simpl; [| |discriminate].
    + destruct (parse_row_ok_titled r pub Hr) as [Ht Hrec]. rewrite Ht.
      intros H. destruct (IH _ H) as (new & -> & Hall).
      exists (pub :: new). rewrite <- app_assoc. split; [done|]. by constructor.
    + assert (has_title r = false) as ->.
      { destruct (has_title r) eqn:Ht; [|done].
        destruct (parse_row_titled r Ht) as [(pub' & H' & _) | (msg & H' & _)];
          rewrite Hr in H'; discriminate. }
      apply IH.
Qed.

Lemma parse_rows_raise rows acc e :
  parse_rows rows acc = Raise e ->
  (∃ msg, e = ValueError msg)
  ∧ ∃ r, r ∈ rows ∧ has_title r = true
         ∧ bad_year_text (year_text_of r) = true.
Proof.
  revert acc. induction rows as [|r rows IH]; intros acc; simpl; [discriminate|].
  destruct (parse_row r) as [[pub|]|e'] eqn:Hr; simpl.
  - intros H. destruct (IH _ H) as (Hm & r' & Hin & Ht & Hb).
    split; [done|]. exists r'. split; [by apply list_elem_of_further | done].
  - intros H. destruct (IH _ H) as (Hm & r' & Hin & Ht & Hb).
    split; [done|]. exists r'. split; [by apply list_elem_of_further | done].
  - intros [= <-].
    destruct (has_title r) eqn:Ht; [|by rewrite (parse_row_untitled r Ht) in Hr].
    destruct (parse_row_titled r Ht) as [(pub' & H' & _) | (msg & H' & Hb)];
      rewrite Hr in H'; [discriminate|]. injection H' as ->.
    split; [by eexists|]. exists r. split; [apply list_elem_of_here | done].
Qed.

Lemma parse_rows_total rows acc :
  (∀ r, r ∈ rows -> has_title r = true ->
        bad_year_text (year_text_of r) = false) ->
  ∃ pubs, parse_rows rows acc = Ok pubs.
Proof.
  intros Hgood. destruct (parse_rows rows acc) as [pubs|e] eqn:H; [by eexists|].
  destruct (parse_rows_raise _ _ _ H) as (_ & r & Hin & Ht & Hb).
  by rewrite (Hgood r Hin Ht) in Hb.
Qed.

(** X1. The records of a page are those of its rows with a title anchor, one
    for one and in the order of the rows; rows without a title anchor
    leave no record.  A missing link, author block, venue block or year
    cell gives the empty text, and year 0. *)
Theorem parse_publications_rows (select_rows : string -> list row)
    (html : string) (pubs : list publication) :
  parse_publications select_rows html = Ok pubs ->
  Forall2 row_record (List.filter has_title (select_rows html)) pubs
  ∧ (length pubs <= length (select_rows html))%nat.
Proof.
  unfold parse_publications. intros H.
  destruct (parse_rows_ok _ _ _ H) as (new & -> & Hall). simpl.
  split; [done|].
  rewrite <- (Forall2_length _ _ _ Hall). apply List.filter_length_le.
Qed.

Lemma parse_publications_rows_witness :
  Forall2 row_record
    (List.filter has_title
       ((fun _ => [ {| title_el := None; gs_gray := ["x"]; year_cell := Some "1999" |};
                    {| title_el := Some {| anchor_text := "T"; anchor_href := None |};
                       gs_gray := ["A"]; year_cell := None |} ]) "page"))
    [ {| title := "T"; authors := "A"; venue := ""; year := 0; scholar_url := "" |} ]
  ∧ (1 <= 2)%nat.
Proof.
  apply (parse_publications_rows
    (fun _ => [ {| title_el := None; gs_gray := ["x"]; year_cell := Some "1999" |};
                {| title_el := Some {| anchor_text := "T"; anchor_href := None |};
                   gs_gray := ["A"]; year_cell := None |} ]) "page").
  reflexivity.
Defined.



(** ** Record Extractor: the year *)

Lemma decimal_value_nonneg s acc : 0 <= acc -> 0 <= decimal_value acc s.
Proof.
  revert acc. induction s as [|c s IH]; intros acc Hacc; simpl; [done|].
  apply IH. lia.
Qed.

Lemma parse_year_nonneg s y : parse_year s = Ok y -> 0 <= y.
Proof.
  unfold parse_year, py_int. destruct (str_isdigit s); [|by intros [= <-]].
  destruct (_ && _); [|discriminate].
  destruct (_ <? _)%nat; [discriminate|]. intros [= <-].
  by apply decimal_value_nonneg.
Qed.

(** X3. No record of an extracted page has a negative year. *)
Theorem parse_publications_year_nonneg (select_rows : string -> list row)
    (html : string) (pubs : list publication) :
  parse_publications select_rows html = Ok pubs ->
  Forall (fun p => 0 <= year p) pubs.
Proof.
  unfold parse_publications. intros H.
  destruct (parse_rows_ok _ _ _ H) as (new & -> & Hall). simpl.
  apply Forall_forall. intros p Hp.
  apply list_elem_of_lookup in Hp as [i Hi].
  destruct (Forall2_lookup_r _ _ _ _ _ Hall Hi) as (r & _ & Hrec).
  destruct Hrec as (a & _ & _ & _ & _ & _ & Hy).
  by apply (parse_year_nonneg _ _ Hy).
Qed.

Lemma parse_publications_year_nonneg_witness :
  Forall (fun p => 0 <= year p) [Demo.pub "a"; Demo.pub "b"].
Proof.
  apply (parse_publications_year_nonneg Demo.select_rows "ab"). reflexivity.
Defined.

(** ** Pagination Driver: offsets, bounds and growth *)

Section Driver.

Variable select_rows : string -> list row.
Variable E : env.
Variable user_id : string.
Variable pagesize : Z.
Variable sleep_seconds : pyfloat.
Variable max_pages : Z.

Abbreviation step := (loop_body select_rows E user_id pagesize sleep_seconds max_pages).
Abbreviation run := (while_loop select_rows E user_id pagesize sleep_seconds max_pages).
Abbreviation gather := (collect_publications select_rows E user_id pagesize sleep_seconds max_pages).
Abbreviation page_url := (fun st => build_list_url user_id (start st) pagesize).

(** An iteration adds to the trace its request and, when it goes on,
    the sleep; nothing else. *)
Lemma loop_body_trace st tr :
  ∃ evs, (step st tr).2 = tr ++ EvGet (page_url st) (net E tr (page_url st)) :: evs
         ∧ (evs = [] ∨ evs = sleep_events sleep_seconds).
Proof.
  destruct (step st tr) as [[[c st']|e] tr'] eqn:Hb.
  - destruct (loop_body_ok _ _ _ _ _ _ _ _ _ _ _ Hb)
      as (sc & html & page & evs & Hn & _ & _ & _ & _ & -> & Hevs).
    exists evs. simpl. by rewrite Hn.
  - destruct (loop_body_events_raise _ _ _ _ _ _ _ _ _ _ Hb) as (ev & -> & _).
    destruct (loop_body_requests select_rows E user_id pagesize sleep_seconds
                max_pages st tr) as [evs Hevs].
    rewrite Hb in Hevs. simpl in Hevs.
    apply app_inv_head in Hevs. injection Hevs as -> <-.
    exists []. by split; [|left].
Qed.

(** What an iteration that goes on has done. *)
Lemma loop_body_continue st tr st' tr' :
  step st tr = (Ok (Continue, st'), tr') ->
  pages_fetched st' = pages_fetched st + 1
  ∧ start st' = start st + pagesize
  ∧ cap_reached max_pages (pages_fetched st + 1) = false
  ∧ sleep_fails sleep_seconds = false
  ∧ tr' = tr ++ EvGet (page_url st) (net E tr (page_url st))
               :: sleep_events sleep_seconds.
Proof.
  intros Hb.
  destruct (fetch_page E (page_url st) tr) as [[html|e] tr1] eqn:Hf.
  2:{ rewrite (loop_body_fetch_raise _ _ _ _ _ _ _ _ _ _ Hf) in Hb. discriminate. }
  destruct (parse_publications select_rows html) as [page|e] eqn:Hp.
  2:{ rewrite (loop_body_parse_raise _ _ _ _ _ _ _ _ _ _ _ Hf Hp) in Hb.
      discriminate. }
  rewrite (loop_body_fetched _ _ _ _ _ _ _ _ _ _ _ Hf Hp) in Hb.
  destruct (fetch_page_ok _ _ _ _ _ Hf) as (sc & Hn & _ & ->).
  destruct page as [|p page]; [discriminate|].
  destruct (_ <? pagesize); [discriminate|].
  destruct (cap_reached _ _) eqn:Hcap; [discriminate|].
  destruct (sleep_fails sleep_seconds) eqn:Hs; [discriminate|].
  injection Hb as <- <-. rewrite Hn.
  split; [done|]. split; [done|]. split; [done|]. split; [done|].
  by rewrite <- app_assoc.
Qed.

Lemma requested_app tr1 tr2 : requested (tr1 ++ tr2) = requested tr1 ++ requested tr2.
Proof. unfold requested. apply omap_app. Qed.

Lemma requested_sleep_events : requested (sleep_events sleep_seconds) = [].
Proof. by destruct (sleep_events_cases sleep_seconds) as [-> | [q ->]]. Qed.

(** In a state in which an iteration starts, as many pages were counted
    as requests were sent, the offset is that number times the page
    size, and the requests sent were those for the offsets 0, the page
    size, twice the page size and so on. *)
Lemma reachable_offsets tr0 st tr :
  reachable select_rows E user_id pagesize sleep_seconds max_pages tr0 st tr ->
  ∃ evs n, tr = tr0 ++ evs
    ∧ pages_fetched st = Z.of_nat n
    ∧ start st = Z.of_nat n * pagesize
    ∧ requested evs = List.map (nth_url user_id pagesize) (seq 0 n).
Proof.
  induction 1 as [|st tr st' tr' _ IH Hb].
  - exists [], 0%nat. by rewrite app_nil_r.
  - destruct IH as (evs & n & -> & Hpf & Hst & Hreq).
    destruct (loop_body_continue _ _ _ _ Hb) as (Hpf' & Hst' & _ & _ & ->).
    exists (evs ++ EvGet (page_url st) (net E (tr0 ++ evs) (page_url st))
                 :: sleep_events sleep_seconds), (S n).
    split; [by rewrite app_assoc|]. split; [lia|]. split; [lia|].
    rewrite requested_app, seq_S, List.map_app, <- Hreq.
    change (requested (?ev :: ?l)) with (page_url st :: requested l).
    rewrite requested_sleep_events. unfold nth_url. simpl. by rewrite Hst.
Qed.

Lemma while_loop_out_of_fuel tr0 fuel st tr tr' :
  reachable select_rows E user_id pagesize sleep_seconds max_pages tr0 st tr ->
  run fuel st tr = OutOfFuel tr' ->
  ∃ st', reachable select_rows E user_id pagesize sleep_seconds max_pages
           tr0 st' tr'.
Proof.
  revert st tr. induction fuel as [|fuel IH]; intros st tr Hr; simpl.
  - intros [= <-]. by exists st.
  - destruct (step st tr) as [[[[] st2]|e] tr2] eqn:Hb; [discriminate| |discriminate].
    apply IH. by apply (reach_next _ _ _ _ _ _ _ st tr).
Qed.

Lemma NoDup_map_inj {A B} (f : A -> B) (l : list A) :
  (∀ x y, f x = f y -> x = y) -> NoDup l -> NoDup (List.map f l).
Proof.
  intros Hf. induction 1 as [|x l Hx Hl IH]; simpl; constructor; [|done].
  intros Hin. apply list_elem_of_In, in_map_iff in Hin as (y & Hy & Hin).
  apply Hf in Hy. subst y. by apply Hx, list_elem_of_In.
Qed.

Lemma nth_url_inj k k' :
  pagesize ≠ 0 -> nth_url user_id pagesize k = nth_url user_id pagesize k' ->
  k = k'.
Proof.
  intros Hp H. unfold nth_url in H. apply build_list_url_inj in H. nia.
Qed.

(** X4. The requests of a run, however it ends, are those for the offsets
    0, the page size, twice the page size and so on, in this order.
    With a page size other than 0 no URL is requested twice; with the
    page size 0 every request is for the same URL. *)
Theorem requests_by_offset (fuel : nat) (tr0 : list event) :
  ∃ evs n,
    trace_of (gather fuel tr0) = tr0 ++ evs
    ∧ requested evs = List.map (nth_url user_id pagesize) (seq 0 n)
    ∧ (pagesize ≠ 0 -> NoDup (requested evs))
    ∧ (pagesize = 0 ->
       ∀ url, url ∈ requested evs -> url = build_list_url user_id 0 0).
Proof.
  assert (∃ evs n, trace_of (run fuel initial_state tr0) = tr0 ++ evs
            ∧ requested evs = List.map (nth_url user_id pagesize) (seq 0 n)) as H.
  { destruct (run fuel initial_state tr0) as [r tr|tr] eqn:Hrun; simpl.
    - destruct (while_loop_finished select_rows E user_id pagesize sleep_seconds
                  max_pages tr0 fuel initial_state tr0 r tr
                  (reach_start _ _ _ _ _ _ _) Hrun) as (st1 & tr1 & Hr & Hb).
      destruct (reachable_offsets _ _ _ Hr) as (evs & n & -> & _ & Hst & Hreq).
      destruct (loop_body_trace st1 (tr0 ++ evs)) as (evs' & Ht & Hevs').
      assert (tr = (step st1 (tr0 ++ evs)).2) as ->
        by (destruct r; by rewrite Hb).
      rewrite Ht. eexists _, (S n). rewrite <- app_assoc. split; [reflexivity|].
      rewrite requested_app, seq_S, List.map_app, <- Hreq.
      change (requested (?ev :: ?l)) with (page_url st1 :: requested l).
      unfold nth_url. simpl. rewrite Hst.
      destruct Hevs' as [-> | ->]; [done | by rewrite requested_sleep_events].
    - destruct (while_loop_out_of_fuel tr0 fuel initial_state tr0 tr
                  (reach_start _ _ _ _ _ _ _) Hrun) as (st' & Hr).
      destruct (reachable_offsets _ _ _ Hr) as (evs & n & -> & _ & _ & Hreq).
      by exists evs, n. }
  destruct H as (evs & n & Ht & Hreq). exists evs, n.
  split; [|split; [done|split]].
  - unfold collect_publications.
    by destruct (run fuel initial_state tr0) as [[st|e] tr|tr].
  - intros Hp. rewrite Hreq. apply NoDup_map_inj; [|apply NoDup_seq].
    intros k k'. by apply nth_url_inj.
  - intros -> url Hin. rewrite Hreq in Hin.
    apply list_elem_of_In, in_map_iff in Hin as (k & <- & _).
    unfold nth_url. by rewrite Z.mul_0_r.
Qed.

(** ** Pagination Driver: the page cap *)

Lemma cap_not_reached pf :
  max_pages ≠ 0 -> cap_reached max_pages pf = false -> pf < max_pages.
Proof.
  unfold cap_reached. intros Hm H. apply andb_false_iff in H as [H | H].
  - apply negb_false_iff, Z.eqb_eq in H. done.
  - by apply Z.leb_gt in H.
Qed.

Lemma while_loop_cap fuel st tr :
  max_pages ≠ 0 ->
  0 <= pages_fetched st ->
  (Z.to_nat (Z.max 1 (max_pages - pages_fetched st)) <= fuel)%nat ->
  ∃ r evs,
    run fuel st tr = Finished r (tr ++ evs)
    ∧ (length (requested evs)
       <= Z.to_nat (Z.max 1 (max_pages - pages_fetched st)))%nat.
Proof.
  intros Hm. revert st tr. induction fuel as [|fuel IH]; intros st tr Hpf Hfuel.
  { lia. }
  simpl. destruct (loop_body_trace st tr) as (evs & Ht & Hevs).
  assert (length (requested (EvGet (page_url st) (net E tr (page_url st)) :: evs))
          = 1%nat) as Hone.
  { change (requested (?ev :: ?l)) with (page_url st :: requested l).
    destruct Hevs as [-> | ->]; [done | by rewrite requested_sleep_events]. }
  destruct (step st tr) as [[[[] st2]|e] tr2] eqn:Hb; simpl in Ht; subst tr2.
  - eexists _, _. split; [reflexivity|]. rewrite Hone. lia.
  - destruct (loop_body_continue _ _ _ _ Hb) as (Hpf' & _ & Hcap & _ & _).
    apply (cap_not_reached _ Hm) in Hcap.
    destruct (IH st2 (tr ++ EvGet (page_url st) (net E tr (page_url st)) :: evs))
      as (r & evs' & Hrun & Hlen); [lia | lia |].
    exists r, ((EvGet (page_url st) (net E tr (page_url st)) :: evs) ++ evs').
    rewrite app_assoc. split; [done|].
    rewrite requested_app, length_app, Hone. lia.
  - eexists _, _. split; [reflexivity|]. rewrite Hone. lia.
Qed.

(** X5. With a page cap other than 0 the loop comes to an end by itself: a
    run bounded by no less iterations than the cap (one, for a negative
    cap) does not hit the bound, and it sends at most as many requests
    as the cap says (one, for a negative cap). *)
Theorem cap_bounds_requests (fuel : nat) (tr0 : list event) :
  max_pages ≠ 0 ->
  (Z.to_nat (Z.max 1 max_pages) <= fuel)%nat ->
  ∃ r evs,
    gather fuel tr0 = Finished r (tr0 ++ evs)
    ∧ (length (requested evs) <= Z.to_nat (Z.max 1 max_pages))%nat.
Proof.
  intros Hm Hfuel.
  destruct (while_loop_cap fuel initial_state tr0 Hm) as (r & evs & Hrun & Hlen);
    [done | by rewrite Z.sub_0_r |].
  rewrite Z.sub_0_r in Hlen. unfold collect_publications. rewrite Hrun.
  destruct r as [st|e]; by eexists _, _.
Qed.

(** ** Pagination Driver: the collection only grows *)

Lemma merge_pub_grows s l p :
  (∃ k, (merge_pub (s, l) p).2 = l ++ k)
  ∧ s ⊆ (merge_pub (s, l) p).1
  ∧ key_of p ∈ (merge_pub (s, l) p).1.
Proof.
  unfold merge_pub. simpl. destruct (decide (key_of p ∈ s)); simpl.
  - split; [exists []; by rewrite app_nil_r|]. by split.
  - split; [by eexists|]. split.
    + apply union_subseteq_r.
    + apply elem_of_union_l. by apply elem_of_singleton.
Qed.

Lemma merge_page_grows page s l :
  (∃ k, (merge_page (s, l) page).2 = l ++ k)
  ∧ s ⊆ (merge_page (s, l) page).1
  ∧ ∀ p, p ∈ page -> key_of p ∈ (merge_page (s, l) page).1.
Proof.
  revert s l. induction page as [|p page IH]; intros s l.
  - split; [exists []; by rewrite app_nil_r|]. split; [done|].
    intros p Hp. by apply elem_of_nil in Hp.
  - change (merge_page (s, l) (p :: page))
      with (merge_page (merge_pub (s, l) p) page).
    destruct (merge_pub_grows s l p) as ([k Hk] & Hs & Hp).
    destruct (merge_pub (s, l) p) as [s' l']. simpl in *. subst l'.
    destruct (IH s' (l ++ k)) as ([k' Hk'] & Hs' & Hp').
    split; [exists (k ++ k'); by rewrite Hk', app_assoc|].
    split; [by transitivity s'|].
    intros q Hq. apply elem_of_cons in Hq as [-> | Hq]; [by apply Hs' | by apply Hp'].
Qed.

(** X6. An iteration that does not raise leaves the records collected so
    far in place and adds new ones behind them, forgets no key it has
    seen, and has seen the key of every record of its page; a run that
    returns, returns an extension of the list it started with. *)
Theorem collection_grows (st : loop_state) (tr : list event) :
  (∀ c st' tr',
     step st tr = (Ok (c, st'), tr') ->
     all_publications st `prefix_of` all_publications st'
     ∧ seen st ⊆ seen st'
     ∧ tr `prefix_of` tr')
  ∧ (∀ fuel st' tr',
       run fuel st tr = Finished (Ok st') tr' ->
       all_publications st `prefix_of` all_publications st'
       ∧ seen st ⊆ seen st').
Proof.
  assert (∀ st tr c st' tr',
            step st tr = (Ok (c, st'), tr') ->
            all_publications st `prefix_of` all_publications st'
            ∧ seen st ⊆ seen st' ∧ tr `prefix_of` tr') as Hstep.
  { clear st tr. intros st tr c st' tr' Hb.
    destruct (loop_body_ok _ _ _ _ _ _ _ _ _ _ _ Hb)
      as (sc & html & page & evs & _ & _ & _ & -> & -> & -> & _).
    destruct (merge_page_grows page (seen st) (all_publications st))
      as ([k Hk] & Hs & _).
    split; [by exists k|]. split; [done|]. by eexists. }
  split; [apply Hstep|].
  intros fuel. revert st tr. induction fuel as [|fuel IH]; intros st tr st' tr';
    simpl; [discriminate|].
  destruct (step st tr) as [[[[] st2]|e] tr2] eqn:Hb; [| |discriminate].
  - intros [= <- <-]. destruct (Hstep _ _ _ _ _ Hb) as (H1 & H2 & _). by split.
  - intros Hrun. destruct (Hstep _ _ _ _ _ Hb) as (H1 & H2 & _).
    destruct (IH _ _ _ _ Hrun) as (H1' & H2').
    split; [by transitivity (all_publications st2) | by transitivity (seen st2)].
Qed.

(** X7. Merging a page a second time changes nothing: a page the server
    sends again adds no record. *)
Theorem merge_page_twice (acc : gset (string * Z) * list publication)
    (page : list publication) :
  merge_page (merge_page acc page) page = merge_page acc page.
Proof.
  destruct acc as [s l].
  destruct (merge_page_grows page s l) as (_ & _ & Hseen).
  destruct (merge_page (s, l) page) as [s' l'] eqn:Hm. simpl in Hseen.
  by apply merge_page_seen_only.
Qed.

End Driver.

(** ** Pagination Driver: how a run ends *)

Section Endings.

Variable select_rows : string -> list row.
Variable E : env.
Variable user_id : string.
Variable pagesize : Z.
Variable sleep_seconds : pyfloat.
Variable max_pages : Z.

Abbreviation step' := (loop_body select_rows E user_id pagesize sleep_seconds max_pages).
Abbreviation run' := (while_loop select_rows E user_id pagesize sleep_seconds max_pages).
Abbreviation gather' := (collect_publications select_rows E user_id pagesize sleep_seconds max_pages).








End Endings.

(** ** The entry point *)

(** Only the answers of the server matter to the collection. *)
Lemma fetch_page_net (E E' : env) url tr :
  net E = net E' -> fetch_page E url tr = fetch_page E' url tr.
Proof. intros H. by rewrite !fetch_page_cases, H. Qed.

Lemma loop_body_net select_rows (E E' : env) user_id pagesize sleep_seconds
    max_pages st tr :
  net E = net E' ->
  loop_body select_rows E user_id pagesize sleep_seconds max_pages st tr
  = loop_body select_rows E' user_id pagesize sleep_seconds max_pages st tr.
Proof. intros H. unfold loop_body, bind. by rewrite (fetch_page_net E E' _ _ H). Qed.

Lemma collect_publications_net select_rows (E E' : env) user_id pagesize
    sleep_seconds max_pages fuel tr :
  net E = net E' ->
  collect_publications select_rows E user_id pagesize sleep_seconds max_pages fuel tr
  = collect_publications select_rows E' user_id pagesize sleep_seconds max_pages fuel tr.
Proof.
  intros H. unfold collect_publications. f_equal.
  generalize initial_state. revert tr.
  induction fuel as [|fuel IH]; intros tr st; simpl; [done|].
  rewrite (loop_body_net _ E E' _ _ _ _ _ _ H).
  destruct (loop_body _ E' _ _ _ _ _ _) as [[[[] st2]|e] tr2]; [done| |done].
  apply IH.
Qed.

Section EntryPoint.

Variable select_rows : string -> list row.
Variable E : env.
Variable fs : list event -> fs_request -> option os_failure.
Variable netloc_check : string -> option string.
Variable unquote : string -> string.

Abbreviation entry := (main select_rows E fs netloc_check unquote).

Lemma main_unfold fuel a :
  entry fuel a
  = match chosen_url E a with
    | Some (String _ _ as scholar_url) =>
        match extract_user_id netloc_check unquote scholar_url with
        | Raise e => Finished (Raise e) []
        | Ok (Some (String _ _ as user_id)) =>
            match collect_publications select_rows E user_id (arg_pagesize a)
                    (arg_sleep a) (arg_max_pages a) fuel [] with
            | Finished (Ok publications) tr =>
                let '(r, tr') :=
                  write_output E fs (arg_output a) scholar_url publications tr in
                Finished r tr'
            | Finished (Raise e) tr => Finished (Raise e) tr
            | OutOfFuel tr => OutOfFuel tr
            end
        | Ok _ => Finished (Raise (SystemExit missing_user_message)) []
        end
    | _ => Finished (Raise (SystemExit missing_url_message)) []
    end.
Proof. reflexivity. Qed.


(** X11. When [main] returns, the file holds the first occurrences of the
    records extracted during the run, sorted by year, under the URL the
    user id was taken from, and no two of the records written share an
    identity key. *)
Theorem written_document_distinct (fuel : nat) (a : args) (tr : list event) :
  entry fuel a = Finished (Ok tt) tr ->
  ∃ scholar_url user_id evs,
    chosen_url E a = Some scholar_url
    ∧ extract_user_id netloc_check unquote scholar_url = Ok (Some user_id)
    ∧ collect_publications select_rows E user_id (arg_pagesize a)
        (arg_sleep a) (arg_max_pages a) fuel []
      = Finished (Ok (first_occurrences (extracted_records select_rows evs))) evs
    ∧ tr = evs ++ [EvMakedirs (Path.dirname (arg_output a));
                   EvWrite (arg_output a)
                     (output_document E scholar_url
                        (first_occurrences (extracted_records select_rows evs)))]
    ∧ NoDup (keys (sort_by_year_desc
                     (first_occurrences (extracted_records select_rows evs)))).
Proof.
  rewrite main_unfold.
  destruct (chosen_url E a) as [[|c u]|] eqn:Hu; try discriminate.
  destruct (extract_user_id netloc_check unquote (String c u)) as [[[|c' uid]|]|e] eqn:Hx;
    try discriminate.
  destruct (collect_publications _ _ _ _ _ _ _ _) as [[pubs|e] tr0|tr0] eqn:Hc;
    try discriminate.
  destruct (write_output E fs _ _ _ _) as [r tr'] eqn:Hw.
  apply write_output_outcome in Hw as [(-> & -> & _) | (e & -> & _)];
    [|discriminate].
  intros [= <-].
  destruct (collect_publications_ok _ _ _ _ _ _ _ _ _ _ Hc) as (st & Hl & ->).
  destruct (while_loop_first_occurrences _ _ _ _ _ _ fuel [] initial_state [] st tr0
              eq_refl eq_refl Hl) as (evs & Htr & Hall).
  simpl in Htr, Hall. subst tr0. rewrite Hall in *.
  exists (String c u), (String c' uid), evs. repeat split; try done.
  destruct (while_loop_finished _ _ _ _ _ _ [] fuel initial_state [] (Ok st) evs
              (reach_start _ _ _ _ _ _ _) Hl) as (st1 & tr1 & Hr & Hb).
  pose proof (loop_body_seen_invariant _ _ _ _ _ _ st1 tr1 Break st evs
                (reachable_seen_invariant _ _ _ _ _ _ [] st1 tr1 Hr) Hb) as [_ Hnd].
  rewrite Hall in Hnd.
  assert (Permutation
            (keys (sort_by_year_desc
                     (first_occurrences (extracted_records select_rows evs))))
            (keys (first_occurrences (extracted_records select_rows evs)))) as Hperm
    by (unfold keys; apply Permutation_map, sort_by_year_desc_perm).
  by rewrite Hperm.
Qed.

End EntryPoint.

(** X12. With a URL on the command line that is not empty, the configuration
    file plays no part: two worlds that differ in their files only give
    the same run. *)
Theorem url_argument_wins (select_rows : string -> list row) (E E' : env)
    (fs : list event -> fs_request -> option os_failure)
    (netloc_check : string -> option string)
    (unquote : string -> string) (fuel : nat) (a : args) :
  truthy (arg_scholar_url a) = true ->
  net E = net E' ->
  today E = today E' ->
  main select_rows E fs netloc_check unquote fuel a = main select_rows E' fs netloc_check unquote fuel a.
Proof.
  intros Ht Hn Hd. rewrite !main_unfold. unfold chosen_url. rewrite Ht.
  destruct (arg_scholar_url a) as [[|c u]|]; try done.
  destruct (extract_user_id netloc_check unquote (String c u)) as [[[|c' uid]|]|e]; try done.
  rewrite (collect_publications_net _ E E' _ _ _ _ _ _ Hn).
  destruct (collect_publications _ E' _ _ _ _ _ _) as [[pubs|e] tr0|tr0]; try done.
  rewrite !write_output_cases. unfold output_document, output_data. by rewrite Hd.
Qed.

(** ** Reading a listing URL back *)
















(** ** The year, written and read *)

(** X15. The decimal text of a number that is not negative and has no more
    than 4300 digits is read back by the year parser as that number: a
    year that was read from a page and written out in decimal reads as
    the same year.  A longer text is refused by [int]. *)
Theorem year_round_trip (n : Z) :
  0 <= n ->
  ((String.length (Url.str_of_int n) <= 4300)%nat ->
   parse_year (Url.str_of_int n) = Ok n)
  ∧ ((4300 < String.length (Url.str_of_int n))%nat ->
     ∃ msg, parse_year (Url.str_of_int n) = Raise (ValueError msg)).
Proof.
  intros Hn. destruct n as [|p|p]; [|rewrite str_of_int_pos|lia].
  - split; [done|]. intros Hlen. vm_compute in Hlen. lia.
  - split; intros Hlen.
    + rewrite parse_year_decimal; [by rewrite decimal_value_pos | | | done].
      * apply string_of_uint_nonempty, DecimalPos.Unsigned.to_uint_nonnil.
      * apply string_of_uint_digits.
    + apply parse_year_too_long; [apply string_of_uint_digits | done].
Qed.

Lemma year_round_trip_witness : parse_year (Url.str_of_int 2023) = Ok 2023.
Proof.
  apply (proj1 (year_round_trip 2023 ltac:(lia))).
  change (String.length (Url.str_of_int 2023)) with 4%nat. lia.
Defined.

(** ** The sort, again *)

Lemma sort_by_year_desc_fixed (l : list publication) :
  year_descending l -> sort_by_year_desc l = l.
Proof.
  unfold year_descending. induction 1 as [|p l Hl IH Hp]; simpl; [done|].
  rewrite IH. destruct l as [|q l]; [done|]. simpl.
  apply Forall_cons in Hp as [Hq _].
  by rewrite (proj2 (Z.ltb_ge _ _)) by lia.
Qed.

(** X16. A list whose years do not increase is left as it is: when the pages
    come by year, newest first, the file lists the records in the order
    they were collected.  So sorting twice is sorting once. *)
Theorem sort_by_year_desc_sorted (l : list publication) :
  (year_descending l -> sort_by_year_desc l = l)
  ∧ sort_by_year_desc (sort_by_year_desc l) = sort_by_year_desc l.
Proof.
  split; [apply sort_by_year_desc_fixed|].
  apply sort_by_year_desc_fixed, sort_by_year_desc_descending.
Qed.

Lemma sort_by_year_desc_sorted_witness :
  sort_by_year_desc [Publication "b" "" "" 2021 ""; Publication "a" "" "" 2020 ""]
  = [Publication "b" "" "" 2021 ""; Publication "a" "" "" 2020 ""].
Proof.
  apply (proj1 (sort_by_year_desc_sorted _)). unfold year_descending.
  repeat constructor; simpl; lia.
Defined.

(** ** Page Fetcher: the status comes first *)

(** X17. The status is looked at before the body: an error status raises
    [HTTPError] also when the body has the blocked marker, and a status
    outside 400..599, be it 2xx or not, lets the body through when it
    has no marker. *)
Theorem fetch_page_status_first (E : env) (url : string) (tr : list event)
    (status_code : Z) (text : string) :
  net E tr url = Response status_code text ->
  (400 <= status_code < 600 ->
   fetch_page E url tr
   = (Raise (HTTPError status_code),
      tr ++ [EvGet url (Response status_code text)]))
  ∧ (¬ (400 <= status_code < 600) ->
     Str.contains blocked_marker (Str.lower text) = false ->
     fetch_page E url tr
     = (Ok text, tr ++ [EvGet url (Response status_code text)])).
Proof.
  intros Hn. split.
  - by apply error_status_raises.
  - intros Hs Hc. rewrite fetch_page_cases, Hn, Hc.
    assert (is_error_status status_code = false) as ->; [|done].
    unfold is_error_status. apply andb_false_iff.
    destruct (Z.leb_spec 400 status_code); [right; lia | by left].
Qed.

Lemma fetch_page_status_first_witness :
  fetch_page (Demo.world [Response 503 "unusual traffic"]) (Demo.url 0 2) []
  = (Raise (HTTPError 503),
     [] ++ [EvGet (Demo.url 0 2) (Response 503 "unusual traffic")]).
Proof.
  refine (proj1 (fetch_page_status_first
            (Demo.world [Response 503 "unusual traffic"]) (Demo.url 0 2) []
            503 "unusual traffic" eq_refl) _).
  lia.
Defined.

(** No response at all raises [RequestException]. *)
Lemma fetch_page_no_response (E : env) url tr :
  net E tr url = NoResponse ->
  fetch_page E url tr = (Raise RequestException, tr ++ [EvGet url NoResponse]).
Proof. intros Hn. by rewrite fetch_page_cases, Hn. Qed.

(** ** The configuration line *)

Lemma rstrip_length s : (String.length (Str.rstrip s) <= String.length s)%nat.
Proof.
  induction s as [|c s IH]; simpl; [done|].
  destruct (Str.rstrip s); [destruct (Str.isspace c)|]; simpl in *; lia.
Qed.

Lemma lstrip_same_or_shorter s :
  Str.lstrip s = s ∨ (String.length (Str.lstrip s) < String.length s)%nat.
Proof.
  induction s as [|c s IH]; simpl; [by left|].
  destruct (Str.isspace c); [|by left]. right. destruct IH as [-> | IH]; lia.
Qed.

Lemma strip_fixed s : Str.strip s = s -> Str.lstrip s = s ∧ Str.rstrip s = s.
Proof.
  unfold Str.strip. intros H.
  destruct (lstrip_same_or_shorter s) as [Hl | Hl].
  - by rewrite Hl in H.
  - pose proof (rstrip_length (Str.lstrip s)) as Hr. rewrite H in Hr. lia.
Qed.

Lemma lstrip_fixed_head c s :
  Str.lstrip (String c s) = String c s -> Str.isspace c = false.
Proof.
  simpl. destruct (Str.isspace c); [|done]. intros H.
  destruct (lstrip_same_or_shorter s) as [Hl | Hl].
  - rewrite Hl in H. assert (String.length s = String.length (String c s)) by congruence.
    simpl in *. lia.
  - rewrite H in Hl. simpl in Hl. lia.
Qed.

Lemma rstrip_fixed_tail c s :
  Str.rstrip (String c s) = String c s -> Str.rstrip s = s.
Proof.
  simpl. destruct (Str.rstrip s) as [|c' s'] eqn:Hs.
  - destruct (Str.isspace c); [discriminate|]. by intros [= <-].
  - by intros [= <-].
Qed.

Lemma rstrip_spaces s : Str.forallb Str.isspace s = true -> Str.rstrip s = "".
Proof.
  induction s as [|c s IH]; simpl; [done|].
  intros [Hc Hs]%andb_true_iff. by rewrite (IH Hs), Hc.
Qed.

Lemma rstrip_fixed_not_spaces s :
  s ≠ "" -> Str.rstrip s = s ->
  Str.existsb (fun c => negb (Str.isspace c)) s = true.
Proof.
  intros Hne Hr. destruct (Str.existsb _ s) eqn:He; [done|]. exfalso.
  assert (Str.forallb Str.isspace s = true) as Hall.
  { clear Hne Hr. induction s as [|c s IH]; simpl in *; [done|].
    apply orb_false_iff in He as [Hc Hs]. apply negb_false_iff in Hc.
    by rewrite Hc, IH. }
  rewrite (rstrip_spaces s Hall) in Hr. by subst s.
Qed.

Lemma lstrip_spaces w t :
  Str.forallb Str.isspace w = true -> Str.lstrip (w +:+ t) = Str.lstrip t.
Proof.
  induction w as [|c w IH]; rewrite ?append_cons, ?append_nil_l; simpl; [done|].
  intros [Hc Hw]%andb_true_iff. by rewrite Hc, IH.
Qed.

Lemma run_star_cons cls rest c r cap :
  Re.run (Re.Star cls :: rest) (String c r) cap
  = if cls c then
      match Re.run (Re.Star cls :: rest) r cap with
      | Some g => Some g
      | None => Re.run rest (String c r) cap
      end
    else Re.run rest (String c r) cap.
Proof. reflexivity. Qed.

Lemma run_eol_more c c' s cap : Re.run [Re.Eol] (String c (String c' s)) cap = None.
Proof. reflexivity. Qed.

Lemma run_eol_one c cap :
  Str.isspace c = false -> Re.run [Re.Eol] (String c "") cap = None.
Proof.
  intros Hc. simpl. destruct (Str.ord c =? 10)%N eqn:H10; [|done].
  apply N.eqb_eq in H10. unfold Str.isspace, Str.in_range in Hc.
  rewrite H10 in Hc. discriminate Hc.
Qed.

(** A greedy star over a run of its class, when the rest of the pattern
    matches behind the run. *)
Lemma run_star_skip cls rest w t cap g :
  Str.forallb cls w = true ->
  Re.run rest t cap = Some g ->
  match t with String c _ => cls c = false | EmptyString => True end ->
  Re.run (Re.Star cls :: rest) (w +:+ t) cap = Some g.
Proof.
  intros Hw Hrest Ht. induction w as [|c w IH];
    rewrite ?append_cons, ?append_nil_l.
  - destruct t as [|c t]; [done|]. by rewrite run_star_cons, Ht.
  - simpl in Hw. apply andb_true_iff in Hw as [Hc Hw].
    by rewrite run_star_cons, Hc, (IH Hw).
Qed.

(** [\s*$] on white space to the end, and on a text with something else
    in it. *)
Lemma run_tail_spaces s cap :
  Str.forallb Str.isspace s = true ->
  Re.run [Re.Star Re.space; Re.Eol] s cap = Some cap.
Proof.
  intros Hs. rewrite <- (append_empty_r s).
  by apply run_star_skip.
Qed.

Lemma run_tail_other s cap :
  Str.existsb (fun c => negb (Str.isspace c)) s = true ->
  Re.run [Re.Star Re.space; Re.Eol] s cap = None.
Proof.
  induction s as [|c s IH]; [discriminate|].
  intros Hs. rewrite run_star_cons. unfold Re.space at 1.
  destruct (Str.isspace c) eqn:Hc.
  - simpl in Hs. rewrite Hc in Hs. simpl in Hs. rewrite (IH Hs).
    destruct s as [|c' s]; [discriminate Hs | apply run_eol_more].
  - destruct s as [|c' s]; [by apply run_eol_one | apply run_eol_more].
Qed.

Lemma run_group cls rest s cap :
  Re.run (Re.GroupPlusLazy cls :: rest) s cap = plus_lazy cls (Re.run rest) s "".
Proof. reflexivity. Qed.

Lemma plus_lazy_value v w acc :
  v ≠ "" ->
  Str.forallb Re.dot v = true ->
  Str.rstrip v = v ->
  Str.forallb Str.isspace w = true ->
  plus_lazy Re.dot (Re.run [Re.Star Re.space; Re.Eol]) (v +:+ w) acc
  = Some (acc +:+ v).
Proof.
  revert acc. induction v as [|c v IH]; intros acc Hne Hdot Hr Hw; [done|].
  simpl in Hdot. apply andb_true_iff in Hdot as [Hc Hdot].
  rewrite append_cons.
  change (plus_lazy Re.dot (Re.run [Re.Star Re.space; Re.Eol])
            (String c (v +:+ w)) acc)
    with (if Re.dot c then
            match Re.run [Re.Star Re.space; Re.Eol] (v +:+ w)
                    (acc +:+ String c "") with
            | Some g => Some g
            | None => plus_lazy Re.dot (Re.run [Re.Star Re.space; Re.Eol])
                        (v +:+ w) (acc +:+ String c "")
            end
          else None).
  rewrite Hc. pose proof (rstrip_fixed_tail c v Hr) as Hr'.
  destruct v as [|c' v'].
  - rewrite append_nil_l, (run_tail_spaces w _ Hw). done.
  - rewrite run_tail_other.
    + rewrite IH by done. by rewrite append_assoc.
    + rewrite existsb_app, (rstrip_fixed_not_spaces (String c' v')) by done. done.
Qed.

Lemma match_group_key_line w1 w2 w3 v w4 :
  Str.forallb Str.isspace w1 = true ->
  Str.forallb Str.isspace w2 = true ->
  Str.forallb Str.isspace w3 = true ->
  Str.forallb Str.isspace w4 = true ->
  v ≠ "" -> Str.strip v = v -> Str.forallb Re.dot v = true ->
  Re.match_group pattern (key_line w1 w2 w3 v w4) = Some v.
Proof.
  intros H1 H2 H3 H4 Hne Hstrip Hdot.
  destruct (strip_fixed v Hstrip) as [Hl Hr].
  destruct v as [|c v]; [done|].
  pose proof (lstrip_fixed_head c v Hl) as Hc.
  unfold Re.match_group, pattern, key_line.
  apply run_star_skip; [done | | done].
  change (Re.run (Re.Lit "googlescholar" :: ?rest) ("googlescholar" +:+ ?t) "")
    with (Re.run rest t "").
  apply run_star_skip; [done | | done].
  change (Re.run (Re.Lit ":" :: ?rest) (":" +:+ ?t) "") with (Re.run rest t "").
  apply run_star_skip; [done | | by rewrite append_cons].
  rewrite run_group. by rewrite plus_lazy_value.
Qed.

(** X18. A line that gives the key [googlescholar] a value is found whatever
    white space stands before the key, around the colon and after the
    value, and with or without a line end: for a value that is not empty,
    has no white space at its ends and no line feed inside, the scan
    stops at the line and returns the value, without its quotes when it
    starts and ends with one. *)
Theorem key_line_value (w1 w2 w3 v w4 : string) (rest : list string) :
  Str.forallb Str.isspace w1 = true ->
  Str.forallb Str.isspace w2 = true ->
  Str.forallb Str.isspace w3 = true ->
  Str.forallb Str.isspace w4 = true ->
  v ≠ "" -> Str.strip v = v -> Str.forallb Re.dot v = true ->
  scan_config_lines (key_line w1 w2 w3 v w4 :: rest) = Some (without_quotes v).
Proof.
  intros H1 H2 H3 H4 Hne Hstrip Hdot.
  unfold scan_config_lines; fold scan_config_lines.
  assert (Str.startswith "#" (Str.lstrip (key_line w1 w2 w3 v w4)) = false) as ->.
  { unfold key_line. by rewrite (lstrip_spaces w1 _ H1). }
  rewrite (match_group_key_line w1 w2 w3 v w4) by done.
  by rewrite Hstrip.
Qed.

Lemma key_line_value_witness :
  scan_config_lines
    [key_line "  " " " "   " "'https://scholar.google.com/citations?user=Q'"
       (" " +:+ String "010"%char "")]
  = Some "https://scholar.google.com/citations?user=Q".
Proof.
  apply (key_line_value "  " " " "   "
           "'https://scholar.google.com/citations?user=Q'"
           (" " +:+ String "010"%char "") []); done.
Defined.

(** ** The output path *)

Lemma existsb_rev_app p s acc :
  Str.existsb p (String.rev_app s acc) = Str.existsb p s || Str.existsb p acc.
Proof.
  revert acc. induction s as [|c s IH]; intros acc; simpl; [done|].
  rewrite IH. simpl. destruct (p c), (Str.existsb p s), (Str.existsb p acc); done.
Qed.

Lemma rev_app_app a b acc :
  String.rev_app (a +:+ b) acc = String.rev_app b (String.rev_app a acc).
Proof.
  revert acc. induction a as [|c a IH]; intros acc;
    rewrite ?append_cons, ?append_nil_l; simpl; [done|]. apply IH.
Qed.

Lemma rev_app_rev_app a acc acc' :
  String.rev_app (String.rev_app a acc) acc'
  = String.rev_app acc (a +:+ acc').
Proof.
  revert acc acc'. induction a as [|c a IH]; intros acc acc'; simpl; [done|].
  by rewrite IH.
Qed.

Lemma rev_rev a : String.rev (String.rev a) = a.
Proof. unfold String.rev. rewrite rev_app_rev_app. simpl. apply append_empty_r. Qed.

Lemma from_slash_none s :
  Str.existsb Path.is_slash s = false -> Path.from_slash s = "".
Proof.
  induction s as [|c s IH]; simpl; [done|].
  intros [Hc Hs]%orb_false_iff. by rewrite Hc, IH.
Qed.

Lemma from_slash_rev_app f acc :
  Str.existsb Path.is_slash f = false ->
  Path.from_slash (String.rev_app f acc) = Path.from_slash acc.
Proof.
  revert acc. induction f as [|c f IH]; intros acc; simpl; [done|].
  intros [Hc Hf]%orb_false_iff. rewrite (IH _ Hf). simpl. by rewrite Hc.
Qed.

Lemma dirname_bare path :
  Str.existsb Path.is_slash path = false -> Path.dirname path = "".
Proof.
  intros H. unfold Path.dirname, String.rev.
  rewrite from_slash_none; [done|]. by rewrite existsb_rev_app, H.
Qed.

Lemma dirname_file d0 l f :
  Path.is_slash l = false ->
  Str.existsb Path.is_slash f = false ->
  Path.dirname ((d0 +:+ String l "") +:+ "/" +:+ f) = d0 +:+ String l "".
Proof.
  intros Hl Hf. unfold Path.dirname, String.rev.
  rewrite !rev_app_app, (from_slash_rev_app f _ Hf).
  change (String.rev_app "/" ?acc) with (String "/" acc).
  change (String.rev_app (String l "") ?acc) with (String l acc).
  change (Path.from_slash (String "/" ?s)) with (String "/" s).
  change (Str.forallb Path.is_slash (String "/" (String l ?s)))
    with (Path.is_slash l && Str.forallb Path.is_slash s).
  rewrite Hl.
  change (Path.lstrip_slash (String "/" (String l ?s)))
    with (if Path.is_slash l then Path.lstrip_slash s else String l s).
  rewrite Hl.
  change (String l (String.rev_app d0 "")) with (String.rev_app (String l "") (String.rev_app d0 "")).
  rewrite <- rev_app_app. apply (rev_rev (d0 +:+ String l "")).
Qed.

Lemma rev_app_append f a b :
  String.rev_app f a +:+ b = String.rev_app f (a +:+ b).
Proof.
  revert a. induction f as [|c f IH]; intros a; simpl; [done|]. by rewrite IH.
Qed.

Lemma until_slash_app a b :
  Str.existsb Path.is_slash a = false ->
  Path.until_slash (a +:+ String "/" b) = a.
Proof.
  induction a as [|c a IH]; rewrite ?append_cons, ?append_nil_l; simpl; [done|].
  intros [Hc Ha]%orb_false_iff. by rewrite Hc, (IH Ha).
Qed.

Lemma until_slash_rev_app f acc :
  Str.existsb Path.is_slash f = false ->
  Path.until_slash (String.rev_app f (String "/" acc)) = String.rev_app f "".
Proof.
  intros Hf.
  rewrite <- (append_nil_l (String "/" acc)), <- rev_app_append.
  apply until_slash_app. by rewrite existsb_rev_app, Hf.
Qed.

(** The last component of a path that ends with a slash and a name is
    that name. *)
Lemma basename_file d f :
  Str.existsb Path.is_slash f = false ->
  Path.basename (d +:+ "/" +:+ f) = f.
Proof.
  intros Hf. unfold Path.basename, String.rev.
  rewrite !rev_app_app.
  change (String.rev_app "/" ?acc) with (String "/" acc).
  rewrite (until_slash_rev_app f _ Hf). apply (rev_rev f).
Qed.

Lemma names_directory_file d f :
  Str.existsb Path.is_slash f = false ->
  Path.names_directory (d +:+ "/" +:+ f)
  = Str.is_empty f || String.eqb f "." || String.eqb f "..".
Proof. intros Hf. unfold Path.names_directory. by rewrite (basename_file d f Hf). Qed.

(** X19. An output path without a slash has no directory part:
    [write_output] raises [FileNotFoundError] from [os.makedirs], and it
    makes no directory and writes no file. *)
Theorem write_output_bare_path (E : env)
    (fs : list event -> fs_request -> option os_failure)
    (output_path scholar_url : string)
    (publications : list publication) (tr : list event) :
  Str.existsb Path.is_slash output_path = false ->
  write_output E fs output_path scholar_url publications tr
  = (Raise (FileNotFoundError ""), tr).
Proof.
  intros H. by rewrite write_output_cases, (dirname_bare _ H).
Qed.

Lemma write_output_bare_path_witness :
  write_output (Demo.world []) Demo.fs "publications.json" scenario_url
    [Demo.pub "a"] []
  = (Raise (FileNotFoundError ""), []).
Proof. by apply write_output_bare_path. Defined.

(** X20. For an output path made of a directory that does not end with a
    slash, a slash and a file name: when the name is not empty and
    neither [.] nor [..], and the file system makes the directory and
    opens the file, [write_output] makes that directory and then writes
    the file under the path; when the name is empty, [.] or [..], it
    raises an exception and writes nothing, whatever the file system
    does. *)
Theorem write_output_directory (E : env)
    (fs : list event -> fs_request -> option os_failure)
    (d0 : string) (l : ascii)
    (f scholar_url : string) (publications : list publication)
    (tr : list event) :
  Path.is_slash l = false ->
  Str.existsb Path.is_slash f = false ->
  let dir := d0 +:+ String l "" in
  let path := dir +:+ "/" +:+ f in
  (f ≠ "" -> f ≠ "." -> f ≠ ".." ->
   fs tr (Makedirs dir) = None ->
   fs (tr ++ [EvMakedirs dir]) (OpenForWriting path) = None ->
   write_output E fs path scholar_url publications tr
   = (Ok tt,
      tr ++ [EvMakedirs dir;
             EvWrite path (output_document E scholar_url publications)]))
  ∧ (f = "" ∨ f = "." ∨ f = ".." ->
     ∃ e tr', write_output E fs path scholar_url publications tr = (Raise e, tr')
              ∧ writes tr' = writes tr).
Proof.
  intros Hl Hf dir path.
  assert (Path.dirname path = dir) as Hdir by apply (dirname_file d0 l f Hl Hf).
  assert (Path.names_directory path
          = Str.is_empty f || String.eqb f "." || String.eqb f "..") as Hnd
    by apply (names_directory_file dir f Hf).
  assert (Str.is_empty dir = false) as Hd by (unfold dir; by destruct d0).
  rewrite (write_output_cases E fs path scholar_url publications tr).
  cbv zeta. rewrite Hdir, Hd, Hnd. split.
  - intros H1 H2 H3 Hm Ho. rewrite Hm, Ho.
    assert (Str.is_empty f || String.eqb f "." || String.eqb f ".." = false) as ->;
      [|done].
    apply orb_false_iff. split; [apply orb_false_iff; split|].
    + by destruct f.
    + by apply String.eqb_neq.
    + by apply String.eqb_neq.
  - intros Hname.
    assert (Str.is_empty f || String.eqb f "." || String.eqb f ".." = true) as ->
      by (destruct Hname as [-> | [-> | ->]]; reflexivity).
    destruct (fs tr _); [by eexists _, _|].
    destruct (fs (tr ++ _) _); eexists _, _; (split; [done|]);
      by rewrite writes_app, app_nil_r.
Qed.

Lemma write_output_directory_witness :
  write_output (Demo.world []) Demo.fs
    (("_dat" +:+ String "a" "") +:+ "/" +:+ "p.json")
    scenario_url [Demo.pub "a"] []
  = (Ok tt,
     [] ++ [EvMakedirs ("_dat" +:+ String "a" "");
            EvWrite (("_dat" +:+ String "a" "") +:+ "/" +:+ "p.json")
              (output_document (Demo.world []) scenario_url [Demo.pub "a"])]).
Proof.
  by apply (proj1 (write_output_directory (Demo.world []) Demo.fs "_dat" "a"
                     "p.json" scenario_url [Demo.pub "a"] [] eq_refl eq_refl)).
Defined.

(** ** The characters of the data file *)

Lemma escape_char_printable c :
  Str.forallb printable_ascii (Json.escape_char c) = true.
Proof. destruct c as [[] [] [] [] [] [] [] []]; vm_compute; reflexivity. Qed.

Lemma escape_printable s : Str.forallb printable_ascii (Json.escape s) = true.
Proof.
  induction s as [|c s IH]; simpl; [done|].
  by rewrite forallb_app, escape_char_printable, IH.
Qed.

Lemma encode_string_printable s :
  Str.forallb printable_ascii (Json.encode_string s) = true.
Proof.
  unfold Json.encode_string. by rewrite !forallb_app, escape_printable.
Qed.

Lemma int_char_printable c : int_char c = true -> printable_ascii c = true.
Proof. destruct c as [[] [] [] [] [] [] [] []]; vm_compute; congruence. Qed.

Lemma str_of_int_printable n :
  Str.forallb printable_ascii (Url.str_of_int n) = true.
Proof.
  apply (forallb_impl int_char); [apply int_char_printable | apply str_of_int_chars].
Qed.

Lemma spaces_printable n : Str.forallb printable_ascii (Json.spaces n) = true.
Proof.
  induction n as [|n IH]; [done|].
  change (Json.spaces (S n)) with (" " +:+ Json.spaces n).
  by rewrite forallb_app, IH.
Qed.

Lemma newline_indent_printable level :
  Str.forallb printable_ascii (Json.newline_indent level) = true.
Proof. unfold Json.newline_indent. simpl. apply spaces_printable. Qed.

Lemma join_printable sep l :
  Str.forallb printable_ascii sep = true ->
  Forall (fun s => Str.forallb printable_ascii s = true) l ->
  Str.forallb printable_ascii (Json.join sep l) = true.
Proof.
  intros Hsep. induction 1 as [|s l Hs Hl IH]; [done|].
  destruct l as [|s' l]; [done|].
  change (Json.join sep (s :: s' :: l)) with (s +:+ sep +:+ Json.join sep (s' :: l)).
  by rewrite !forallb_app, Hs, Hsep, IH.
Qed.

Lemma dumps_dict level fields :
  Json.dumps level (JDict fields)
  = match fields with
    | [] => "{}"
    | _ =>
      "{" +:+ Json.newline_indent (S level)
      +:+ Json.join ("," +:+ Json.newline_indent (S level))
            (List.map (fun kv => Json.encode_string (fst kv) +:+ ": "
                                 +:+ Json.dumps (S level) (snd kv)) fields)
      +:+ Json.newline_indent level +:+ "}"
    end.
Proof. by destruct fields. Qed.

Lemma dumps_list level items :
  Json.dumps level (JList items)
  = match items with
    | [] => "[]"
    | _ =>
      "[" +:+ Json.newline_indent (S level)
      +:+ Json.join ("," +:+ Json.newline_indent (S level))
            (List.map (Json.dumps (S level)) items)
      +:+ Json.newline_indent level +:+ "]"
    end.
Proof. by destruct items. Qed.

Lemma dumps_dict_printable level fields :
  Forall (fun kv => Str.forallb printable_ascii (Json.dumps (S level) (snd kv)) = true)
    fields ->
  Str.forallb printable_ascii (Json.dumps level (JDict fields)) = true.
Proof.
  intros H. rewrite dumps_dict. destruct fields as [|kv fields]; [done|].
  rewrite !forallb_app, !newline_indent_printable, join_printable; [done| |].
  - by rewrite forallb_app, newline_indent_printable.
  - apply Forall_forall. intros s Hs. apply list_elem_of_In, in_map_iff in Hs.
    destruct Hs as (kv' & <- & Hin). apply list_elem_of_In in Hin.
    rewrite Forall_forall in H.
    by rewrite !forallb_app, encode_string_printable, (H kv' Hin).
Qed.

Lemma dumps_list_printable level items :
  Forall (fun j => Str.forallb printable_ascii (Json.dumps (S level) j) = true)
    items ->
  Str.forallb printable_ascii (Json.dumps level (JList items)) = true.
Proof.
  intros H. rewrite dumps_list. destruct items as [|j items]; [done|].
  rewrite !forallb_app, !newline_indent_printable, join_printable; [done| |].
  - by rewrite forallb_app, newline_indent_printable.
  - apply Forall_forall. intros s Hs. apply list_elem_of_In, in_map_iff in Hs.
    destruct Hs as (j' & <- & Hin). apply list_elem_of_In in Hin.
    rewrite Forall_forall in H. by apply H.
Qed.

Lemma dumps_publication_printable level p :
  Str.forallb printable_ascii (Json.dumps level (json_of_publication p)) = true.
Proof.
  apply dumps_dict_printable. unfold json_of_publication.
  repeat constructor; simpl; try apply encode_string_printable.
  apply str_of_int_printable.
Qed.

(** X21. The data file is plain ASCII: whatever the titles, names and URLs
    hold, every character written is a printable ASCII character or a
    line feed. *)
Theorem output_document_ascii (E : env) (scholar_url : string)
    (publications : list publication) :
  Str.forallb printable_ascii (output_document E scholar_url publications) = true.
Proof.
  unfold output_document, output_data. rewrite forallb_app.
  rewrite dumps_dict_printable; [done|].
  repeat constructor; simpl; try apply encode_string_printable.
  apply dumps_list_printable, Forall_forall. intros j Hj.
  apply list_elem_of_In, in_map_iff in Hj. destruct Hj as (p & <- & _).
  apply dumps_publication_printable.
Qed.

(** ** A configuration without the key *)

Lemma run_key_start rest s cap g :
  Re.run (Re.Star Re.space :: Re.Lit "googlescholar" :: rest) s cap = Some g ->
  Str.startswith "googlescholar" (Str.lstrip s) = true.
Proof.
  induction s as [|c s IH]; [intros H; vm_compute in H; discriminate H|].
  rewrite run_star_cons. unfold Re.space at 1. simpl Str.lstrip.
  destruct (Str.isspace c) eqn:Hc.
  - destruct (Re.run (Re.Star Re.space :: Re.Lit "googlescholar" :: rest) s cap)
      as [g'|] eqn:Hs; [intros [= <-]; by apply IH|].
    intros H. exfalso. revert H.
    change (Re.run (Re.Lit "googlescholar" :: rest) (String c s) cap)
      with (if Str.startswith "googlescholar" (String c s)
            then Re.run rest (Str.drop 13 (String c s)) cap else None).
    destruct (Str.startswith "googlescholar" (String c s)) eqn:Hst; [|discriminate].
    apply startswith_app in Hst as [tail Hst].
    rewrite append_cons in Hst. injection Hst as -> _.
    vm_compute in Hc. discriminate Hc.
  - change (Re.run (Re.Lit "googlescholar" :: rest) (String c s) cap)
      with (if Str.startswith "googlescholar" (String c s)
            then Re.run rest (Str.drop 13 (String c s)) cap else None).
    by destruct (Str.startswith "googlescholar" (String c s)).
Qed.

Lemma scan_config_lines_without_key lines :
  (∀ line, line ∈ lines ->
           Str.startswith "googlescholar" (Str.lstrip line) = false) ->
  scan_config_lines lines = None.
Proof.
  induction lines as [|line lines IH]; intros H; [done|].
  unfold scan_config_lines; fold scan_config_lines.
  destruct (Str.startswith "#" (Str.lstrip line)).
  - apply IH. intros l Hl. apply H. by apply list_elem_of_further.
  - destruct (Re.match_group pattern line) as [g|] eqn:Hm.
    + apply run_key_start in Hm. rewrite H in Hm; [done | apply list_elem_of_here].
    + apply IH. intros l Hl. apply H. by apply list_elem_of_further.
Qed.

(** X22. No URL is found when the configuration file is missing, or when none
    of its lines starts, after white space, with the key: a key that is
    commented out or stands later in a line does not count. *)
Theorem config_without_key (E : env) (config_path : string) :
  (file E config_path = None
   ∨ ∃ content,
       file E config_path = Some content
       ∧ ∀ line, line ∈ readlines content ->
                 Str.startswith "googlescholar" (Str.lstrip line) = false) ->
  parse_config_scholar_url E config_path = None.
Proof.
  unfold parse_config_scholar_url. intros [-> | (content & -> & H)]; [done|].
  by apply scan_config_lines_without_key.
Qed.

Lemma config_without_key_witness :
  parse_config_scholar_url
    {| net := Demo.serve [];
       file := fun _ => Some "# googlescholar: https://scholar.google.com/citations?user=Q";
       today := {| d_year := 2026; d_month := 1; d_day := 1 |} |}
    "_config.yml" = None.
Proof.
  apply config_without_key. right. eexists. split; [reflexivity|].
  intros line Hl. apply list_elem_of_In in Hl. destruct Hl as [<- | []].
  reflexivity.
Defined.

(** ** The further properties on the small world *)

Lemma cap_bounds_requests_witness :
  ∃ r evs,
    collect_publications Demo.select_rows (Demo.world Demo.two_pages)
      "XYZ123" 2 1%Q 1 1 []
    = Finished r ([] ++ evs)
    ∧ (length (requested evs) <= Z.to_nat (Z.max 1 1))%nat.
Proof.
  apply (cap_bounds_requests Demo.select_rows (Demo.world Demo.two_pages)
           "XYZ123" 2 1%Q 1 1%nat []); [done | simpl; lia].
Defined.

Lemma requests_by_offset_witness :
  ∃ evs n,
    trace_of (collect_publications Demo.select_rows (Demo.world Demo.two_pages)
                "XYZ123" 2 1%Q 0 5 []) = [] ++ evs
    ∧ requested evs = List.map (nth_url "XYZ123" 2) (seq 0 n)
    ∧ NoDup (requested evs).
Proof.
  destruct (requests_by_offset Demo.select_rows (Demo.world Demo.two_pages)
              "XYZ123" 2 1%Q 0 5%nat []) as (evs & n & H1 & H2 & H3 & _).
  exists evs, n. split; [done|]. split; [done|]. apply H3. lia.
Defined.

Lemma collection_grows_witness :
  all_publications Demo.after_first_page
    `prefix_of` all_publications
                  (merged Demo.after_first_page [Demo.pub "A"; Demo.pub "c"] 4 2)
  ∧ seen Demo.after_first_page
      ⊆ seen (merged Demo.after_first_page [Demo.pub "A"; Demo.pub "c"] 4 2).
Proof.
  pose proof (proj1 (collection_grows Demo.select_rows
            (Demo.world Demo.two_pages) "XYZ123" 2 1%Q 0
            Demo.after_first_page Demo.trace_after_first_page)
            Continue
            (merged Demo.after_first_page [Demo.pub "A"; Demo.pub "c"] 4 2)
            (Demo.trace_after_first_page
             ++ [EvGet (Demo.url 2 2) (Response 200 "Ac"); EvSleep 1])) as H.
  assert (loop_body Demo.select_rows (Demo.world Demo.two_pages) "XYZ123" 2
            1%Q 0 Demo.after_first_page Demo.trace_after_first_page
          = (Ok (Continue,
                 merged Demo.after_first_page [Demo.pub "A"; Demo.pub "c"] 4 2),
             Demo.trace_after_first_page
             ++ [EvGet (Demo.url 2 2) (Response 200 "Ac"); EvSleep 1])) as Hb
    by (vm_compute; reflexivity).
  destruct (H Hb) as (H1 & H2 & _). by split.
Defined.



Lemma written_document_distinct_witness :
  ∃ scholar_url user_id evs,
    chosen_url (Demo.world Demo.two_pages) (Demo.cli 2 0) = Some scholar_url
    ∧ extract_user_id Demo.netloc_check Demo.unquote scholar_url = Ok (Some user_id)
    ∧ collect_publications Demo.select_rows (Demo.world Demo.two_pages) user_id
        (arg_pagesize (Demo.cli 2 0)) (arg_sleep (Demo.cli 2 0))
        (arg_max_pages (Demo.cli 2 0)) 5 []
      = Finished (Ok (first_occurrences (extracted_records Demo.select_rows evs))) evs
    ∧ trace_of (main Demo.select_rows (Demo.world Demo.two_pages) Demo.fs
                  Demo.netloc_check Demo.unquote 5 (Demo.cli 2 0))
      = evs ++ [EvMakedirs (Path.dirname (arg_output (Demo.cli 2 0)));
                EvWrite (arg_output (Demo.cli 2 0))
                  (output_document (Demo.world Demo.two_pages) scholar_url
                     (first_occurrences (extracted_records Demo.select_rows evs)))]
    ∧ NoDup (keys (sort_by_year_desc
                     (first_occurrences (extracted_records Demo.select_rows evs)))).
Proof.
  apply (written_document_distinct Demo.select_rows (Demo.world Demo.two_pages)
           Demo.fs Demo.netloc_check Demo.unquote 5 (Demo.cli 2 0)).
  vm_compute. reflexivity.
Defined.

Lemma url_argument_wins_witness :
  main Demo.select_rows (Demo.world Demo.two_pages) Demo.fs Demo.netloc_check Demo.unquote 5
    {| arg_scholar_url := Some scenario_url; arg_config := "_config.yml";
       arg_output := "_data/p.json"; arg_pagesize := 2; arg_sleep := 0%Q;
       arg_max_pages := 0 |}
  = main Demo.select_rows
      {| net := Demo.serve Demo.two_pages; file := fun _ => None;
         today := {| d_year := 2026; d_month := 11; d_day := 4 |} |}
      Demo.fs Demo.netloc_check Demo.unquote 5
      {| arg_scholar_url := Some scenario_url; arg_config := "_config.yml";
         arg_output := "_data/p.json"; arg_pagesize := 2; arg_sleep := 0%Q;
         arg_max_pages := 0 |}.
Proof. by apply url_argument_wins. Defined.

(** * The data file, written and read *)

(** ** Reading the data file back *)

Lemma is_ws_not_digit c : JsonRead.is_ws c = true -> Str.isdecimal c = false.
Proof. destruct c as [[] [] [] [] [] [] [] []]; vm_compute; congruence. Qed.

Lemma value_start_plain c :
  value_start c = true ->
  JsonRead.is_ws c = false
  ∧ (Str.ord c =? 93)%N = false ∧ (Str.ord c =? 125)%N = false.
Proof. destruct c as [[] [] [] [] [] [] [] []]; vm_compute; intros H; by try discriminate H. Qed.

Lemma int_char_value_start c : int_char c = true -> value_start c = true.
Proof. destruct c as [[] [] [] [] [] [] [] []]; vm_compute; congruence. Qed.

Lemma skip_ws_app w s :
  all_ws w = true -> JsonRead.skip_ws (w +:+ s) = JsonRead.skip_ws s.
Proof.
  unfold all_ws. induction w as [|c w IH]; rewrite ?append_cons, ?append_nil_l;
    simpl; [done|].
  intros [Hc Hw]%andb_true_iff. by rewrite Hc, IH.
Qed.

Lemma skip_ws_start c s :
  JsonRead.is_ws c = false -> JsonRead.skip_ws (String c s) = String c s.
Proof. intros H. simpl. by rewrite H. Qed.

Lemma spaces_ws n : all_ws (Json.spaces n) = true.
Proof.
  unfold all_ws. induction n as [|n IH]; [done|].
  change (Json.spaces (S n)) with (" " +:+ Json.spaces n).
  by rewrite forallb_app, IH.
Qed.

Lemma newline_indent_ws level : all_ws (Json.newline_indent level) = true.
Proof. unfold all_ws, Json.newline_indent. simpl. apply spaces_ws. Qed.

Lemma no_digit_head_ws w s :
  all_ws w = true -> no_digit_head s = true -> no_digit_head (w +:+ s) = true.
Proof.
  destruct w as [|c w]; [done|]. rewrite append_cons. unfold all_ws. simpl.
  intros [Hc _]%andb_true_iff _. by rewrite (is_ws_not_digit c Hc).
Qed.

(** Strings *)

Lemma read_chars_escape_char c r :
  JsonRead.read_chars (Json.escape_char c +:+ r)
  = JsonRead.prepend c (JsonRead.read_chars r).
Proof. destruct c as [[] [] [] [] [] [] [] []]; reflexivity. Qed.

Lemma read_chars_escape s rest :
  JsonRead.read_chars (Json.escape s +:+ String "034"%char rest) = Some (s, rest).
Proof.
  induction s as [|c s IH]; [reflexivity|].
  change (Json.escape (String c s)) with (Json.escape_char c +:+ Json.escape s).
  by rewrite append_assoc, read_chars_escape_char, IH.
Qed.

Lemma encode_string_app s rest :
  Json.encode_string s +:+ rest
  = String "034"%char (Json.escape s +:+ String "034"%char rest).
Proof.
  unfold Json.encode_string, dquote. by rewrite !append_assoc.
Qed.

Lemma read_value_string fuel s rest :
  JsonRead.read_value (S fuel) (Json.encode_string s +:+ rest)
  = Some (JString s, rest).
Proof. rewrite encode_string_app. simpl. by rewrite read_chars_escape. Qed.

(** Integers *)

Lemma str_of_int_head n :
  ∃ c r, Url.str_of_int n = String c r ∧ int_char c = true.
Proof.
  pose proof (str_of_int_nonempty n) as Hne.
  pose proof (str_of_int_chars n) as Hc.
  destruct (Url.str_of_int n) as [|c r]; [done|].
  exists c, r. split; [done|]. simpl in Hc. by apply andb_true_iff in Hc as [? _].
Qed.

Lemma int_char_plain c :
  int_char c = true ->
  JsonRead.is_ws c = false ∧ (Str.ord c =? 34)%N = false
  ∧ (Str.ord c =? 91)%N = false ∧ (Str.ord c =? 123)%N = false.
Proof. destruct c as [[] [] [] [] [] [] [] []]; vm_compute; intros H; by try discriminate H. Qed.

Lemma read_value_int fuel n rest :
  no_digit_head rest = true ->
  JsonRead.read_value (S fuel) (Url.str_of_int n +:+ rest) = Some (JInt n, rest).
Proof.
  intros Hr. pose proof (read_int_str_of_int n rest Hr) as Hn.
  destruct (str_of_int_head n) as (c & r & Hs & Hc). rewrite Hs in *.
  destruct (int_char_plain c Hc) as (Hw & H1 & H2 & H3).
  rewrite append_cons in *. simpl JsonRead.read_value.
  rewrite Hw, H1, H2, H3. by rewrite Hn.
Qed.

(** Values *)

Lemma json_nested_ind (P : json -> Prop) :
  (∀ s, P (JString s)) ->
  (∀ n, P (JInt n)) ->
  (∀ items, Forall P items -> P (JList items)) ->
  (∀ fields, Forall (fun kv => P kv.2) fields -> P (JDict fields)) ->
  ∀ j, P j.
Proof.
  intros Hs Hi Hl Hd. fix IH 1. intros [s|n|items|fields].
  - apply Hs.
  - apply Hi.
  - apply Hl. induction items as [|x items IHitems]; constructor;
      [apply IH | exact IHitems].
  - apply Hd. induction fields as [|[k v] fields IHfields]; constructor;
      [apply IH | exact IHfields].
Qed.

Lemma dumps_head level j :
  ∃ c r, Json.dumps level j = String c r ∧ value_start c = true.
Proof.
  destruct j as [s|n|[|x items]|[|kv fields]]; try (by eexists _, _).
  destruct (str_of_int_head n) as (c & r & Hs & Hc).
  exists c, r. split; [done|]. by apply int_char_value_start.
Qed.

Lemma join_cons sep s s' l :
  Json.join sep (s :: s' :: l) = s +:+ sep +:+ Json.join sep (s' :: l).
Proof. reflexivity. Qed.

Lemma join_more sep s l :
  l ≠ [] -> Json.join sep (s :: l) = s +:+ sep +:+ Json.join sep l.
Proof. by destruct l. Qed.

Lemma join_head sep c r l :
  ∃ r', Json.join sep (String c r :: l) = String c r'.
Proof. destruct l as [|s' l]; [by eexists|]. rewrite join_cons. by eexists. Qed.

Lemma read_value_ws fuel w s :
  all_ws w = true ->
  JsonRead.read_value fuel (w +:+ s) = JsonRead.read_value fuel s.
Proof. intros Hw. destruct fuel; [done|]. simpl. by rewrite skip_ws_app. Qed.

Lemma read_members_ws fuel w s :
  all_ws w = true ->
  JsonRead.read_members fuel (w +:+ s) = JsonRead.read_members fuel s.
Proof. intros Hw. destruct fuel; [done|]. simpl. by rewrite skip_ws_app. Qed.

Lemma read_items_unfold fuel s :
  JsonRead.read_items (S fuel) s
  = match JsonRead.read_value fuel s with
    | Some (item, r) =>
        match JsonRead.skip_ws r with
        | String c r' =>
            if (Str.ord c =? 44)%N then
              match JsonRead.read_items fuel r' with
              | Some (items, rest) => Some (item :: items, rest)
              | None => None
              end
            else if (Str.ord c =? 93)%N then Some ([item], r')
            else None
        | EmptyString => None
        end
    | None => None
    end.
Proof. reflexivity. Qed.

Lemma read_members_unfold fuel c r :
  JsonRead.is_ws c = false ->
  JsonRead.read_members (S fuel) (String c r)
  = if (Str.ord c =? 34)%N then
      match JsonRead.read_chars r with
      | Some (name, r1) =>
          match JsonRead.skip_ws r1 with
          | String c1 r2 =>
              if (Str.ord c1 =? 58)%N then
                match JsonRead.read_value fuel r2 with
                | Some (value, r3) =>
                    match JsonRead.skip_ws r3 with
                    | String c3 r4 =>
                        if (Str.ord c3 =? 44)%N then
                          match JsonRead.read_members fuel r4 with
                          | Some (fields, rest) =>
                              Some ((name, value) :: fields, rest)
                          | None => None
                          end
                        else if (Str.ord c3 =? 125)%N
                        then Some ([(name, value)], r4)
                        else None
                    | EmptyString => None
                    end
                | None => None
                end
              else None
          | EmptyString => None
          end
      | None => None
      end
    else None.
Proof.
  intros Hc.
  change (JsonRead.read_members (S fuel) (String c r))
    with (match JsonRead.skip_ws (String c r) with
          | String c r =>
              if (Str.ord c =? 34)%N then
                match JsonRead.read_chars r with
                | Some (name, r1) =>
                    match JsonRead.skip_ws r1 with
                    | String c1 r2 =>
                        if (Str.ord c1 =? 58)%N then
                          match JsonRead.read_value fuel r2 with
                          | Some (value, r3) =>
                              match JsonRead.skip_ws r3 with
                              | String c3 r4 =>
                                  if (Str.ord c3 =? 44)%N then
                                    match JsonRead.read_members fuel r4 with
                                    | Some (fields, rest) =>
                                        Some ((name, value) :: fields, rest)
                                    | None => None
                                    end
                                  else if (Str.ord c3 =? 125)%N
                                  then Some ([(name, value)], r4)
                                  else None
                              | EmptyString => None
                              end
                          | None => None
                          end
                        else None
                    | EmptyString => None
                    end
                | None => None
                end
              else None
          | EmptyString => None
          end).
  by rewrite (skip_ws_start c r Hc).
Qed.

(** An array and an object that are not empty, behind their bracket and
    brace. *)
Lemma read_value_open_list fuel r c0 r0 :
  JsonRead.skip_ws r = String c0 r0 ->
  (Str.ord c0 =? 93)%N = false ->
  JsonRead.read_value (S fuel) (String "[" r)
  = match JsonRead.read_items fuel r with
    | Some (items, rest) => Some (JList items, rest)
    | None => None
    end.
Proof. intros Hs Hc. simpl. by rewrite Hs, Hc. Qed.

Lemma read_value_open_dict fuel r c0 r0 :
  JsonRead.skip_ws r = String c0 r0 ->
  (Str.ord c0 =? 125)%N = false ->
  JsonRead.read_value (S fuel) (String "{" r)
  = match JsonRead.read_members fuel r with
    | Some (fields, rest) => Some (JDict fields, rest)
    | None => None
    end.
Proof. intros Hs Hc. simpl. by rewrite Hs, Hc. Qed.

Lemma skip_ws_close w c rest :
  all_ws w = true -> JsonRead.is_ws c = false ->
  JsonRead.skip_ws (w +:+ String c "" +:+ rest) = String c rest.
Proof.
  intros Hw Hc. rewrite skip_ws_app by done.
  rewrite append_cons, append_nil_l. by apply skip_ws_start.
Qed.

Lemma read_items_join items :
  items ≠ [] ->
  Forall reads_back items ->
  ∀ level w1 w2 w fuel rest,
    all_ws w1 = true -> all_ws w2 = true -> all_ws w = true ->
    (length items + list_sum (List.map JsonRead.size items) <= fuel)%nat ->
    JsonRead.read_items fuel
      (w +:+ Json.join ("," +:+ w1) (List.map (Json.dumps level) items)
         +:+ w2 +:+ "]" +:+ rest)
    = Some (items, rest).
Proof.
  induction items as [|x items IH]; [done|]. intros _ HP.
  apply Forall_cons in HP as [Hx HP].
  intros level w1 w2 w fuel rest H1 H2 Hw Hfuel.
  destruct fuel as [|fuel]; [simpl in Hfuel; lia|].
  simpl in Hfuel. rewrite read_items_unfold.
  destruct items as [|y items].
  - change (Json.join ("," +:+ w1) (List.map (Json.dumps level) [x]))
      with (Json.dumps level x).
    rewrite read_value_ws, Hx; [|lia| |done].
    + by rewrite (skip_ws_close w2 "]" rest).
    + apply no_digit_head_ws; [done|]. reflexivity.
  - change (List.map (Json.dumps level) (x :: y :: items))
      with (Json.dumps level x :: Json.dumps level y
            :: List.map (Json.dumps level) items).
    rewrite join_cons, !append_assoc.
    rewrite read_value_ws, Hx; [|lia|reflexivity|done].
    rewrite append_cons, append_nil_l.
    rewrite (skip_ws_start "," _ eq_refl).
    change (Str.ord "," =? 44)%N with true. cbv beta iota.
    change (Json.dumps level y :: List.map (Json.dumps level) items)
      with (List.map (Json.dumps level) (y :: items)).
    rewrite (IH ltac:(done) HP level w1 w2 w1 fuel rest); try done.
    simpl in *. lia.
Qed.

Lemma read_members_join fields :
  fields ≠ [] ->
  Forall (fun kv => reads_back kv.2) fields ->
  ∀ level w1 w2 w fuel rest,
    all_ws w1 = true -> all_ws w2 = true -> all_ws w = true ->
    (length fields
     + list_sum (List.map (fun kv => JsonRead.size kv.2) fields) <= fuel)%nat ->
    JsonRead.read_members fuel
      (w +:+ Json.join ("," +:+ w1)
               (List.map (fun kv => Json.encode_string kv.1 +:+ ": "
                                    +:+ Json.dumps level kv.2) fields)
         +:+ w2 +:+ "}" +:+ rest)
    = Some (fields, rest).
Proof.
  induction fields as [|[k v] fields IH]; [done|]. intros _ HP.
  apply Forall_cons in HP as [Hv HP]. simpl in Hv.
  intros level w1 w2 w fuel rest H1 H2 Hw Hfuel.
  destruct fuel as [|fuel]; [simpl in Hfuel; lia|].
  simpl in Hfuel. rewrite read_members_ws by done.
  destruct fields as [|kv fields].
  - change (Json.join ("," +:+ w1)
              (List.map (fun kv => Json.encode_string kv.1 +:+ ": "
                                   +:+ Json.dumps level kv.2) [(k, v)]))
      with (Json.encode_string k +:+ ": " +:+ Json.dumps level v).
    rewrite !append_assoc, encode_string_app.
    rewrite read_members_unfold by reflexivity.
    change (Str.ord "034"%char =? 34)%N with true. cbv beta iota.
    rewrite read_chars_escape, append_cons.
    rewrite (skip_ws_start ":" _ eq_refl).
    change (Str.ord ":" =? 58)%N with true. cbv beta iota.
    rewrite (read_value_ws fuel " ") by done.
    rewrite Hv; [|lia|by apply no_digit_head_ws].
    by rewrite (skip_ws_close w2 "}" rest).
  - change (List.map (fun kv => Json.encode_string kv.1 +:+ ": "
                                +:+ Json.dumps level kv.2) ((k, v) :: kv :: fields))
      with ((Json.encode_string k +:+ ": " +:+ Json.dumps level v)
            :: List.map (fun kv => Json.encode_string kv.1 +:+ ": "
                                   +:+ Json.dumps level kv.2) (kv :: fields)).
    rewrite join_more by done. rewrite !append_assoc, encode_string_app.
    rewrite read_members_unfold by reflexivity.
    change (Str.ord "034"%char =? 34)%N with true. cbv beta iota.
    rewrite read_chars_escape, append_cons.
    rewrite (skip_ws_start ":" _ eq_refl).
    change (Str.ord ":" =? 58)%N with true. cbv beta iota.
    rewrite (read_value_ws fuel " ") by done.
    rewrite Hv; [|lia|reflexivity].
    rewrite append_cons, append_nil_l.
    rewrite (skip_ws_start "," _ eq_refl).
    change (Str.ord "," =? 44)%N with true. cbv beta iota.
    rewrite (IH ltac:(done) HP level w1 w2 w1 fuel rest); try done.
    simpl in *. lia.
Qed.

(** The reader reads back what [dumps] wrote, at every depth of nesting
    and whatever follows, provided what follows does not go on with a
    digit. *)
Lemma read_value_dumps j : reads_back j.
Proof.
  induction j as [s|n|items IH|fields IH] using json_nested_ind;
    intros level fuel rest Hfuel Hrest;
    (destruct fuel as [|fuel]; [simpl in Hfuel; lia|]).
  - apply read_value_string.
  - by apply read_value_int.
  - rewrite dumps_list. destruct items as [|x items]; [reflexivity|].
    rewrite !append_assoc, append_cons, append_nil_l.
    destruct (dumps_head (S level) x) as (c & r & Hx & Hc).
    destruct (value_start_plain c Hc) as (Hw & Hclose & _).
    destruct (join_head ("," +:+ Json.newline_indent (S level)) c r
                (List.map (Json.dumps (S level)) items)) as [r' Hj].
    rewrite (read_value_open_list fuel _ c
               (r' +:+ Json.newline_indent level +:+ "]" +:+ rest)); [| |done].
    + rewrite (read_items_join (x :: items)); try done;
        try apply newline_indent_ws.
      simpl in Hfuel. simpl. lia.
    + rewrite skip_ws_app by apply newline_indent_ws.
      change (List.map (Json.dumps (S level)) (x :: items))
        with (Json.dumps (S level) x :: List.map (Json.dumps (S level)) items).
      rewrite Hx, Hj, append_cons. by apply skip_ws_start.
  - rewrite dumps_dict. destruct fields as [|[k v] fields]; [reflexivity|].
    rewrite !append_assoc, append_cons, append_nil_l.
    destruct (join_head ("," +:+ Json.newline_indent (S level)) "034"%char
                (Json.escape k
                 +:+ String "034"%char (": " +:+ Json.dumps (S level) v))
                (List.map (fun kv => Json.encode_string kv.1 +:+ ": "
                                     +:+ Json.dumps (S level) kv.2) fields))
      as [r' Hj].
    rewrite (read_value_open_dict fuel _ "034"%char
               (r' +:+ Json.newline_indent level +:+ "}" +:+ rest)); [| |done].
    + rewrite (read_members_join ((k, v) :: fields)); try done;
        try apply newline_indent_ws.
      simpl in Hfuel. simpl. lia.
    + rewrite skip_ws_app by apply newline_indent_ws.
      change (List.map (fun kv => Json.encode_string kv.1 +:+ ": "
                                  +:+ Json.dumps (S level) kv.2) ((k, v) :: fields))
        with ((Json.encode_string k +:+ ": " +:+ Json.dumps (S level) v)
              :: List.map (fun kv => Json.encode_string kv.1 +:+ ": "
                                     +:+ Json.dumps (S level) kv.2) fields).
      rewrite (encode_string_app k (": " +:+ Json.dumps (S level) v)).
      rewrite Hj, append_cons. by apply skip_ws_start.
Qed.

(** The number of values of a document is at most the number of its
    characters: the bound [loads] gives the reader is enough. *)
Lemma join_length_ge {A} (f : A -> string) (sz : A -> nat) sep (l : list A) :
  (1 <= String.length sep)%nat ->
  Forall (fun x => (sz x <= String.length (f x))%nat) l ->
  l ≠ [] ->
  (length l + list_sum (List.map sz l)
   <= S (String.length (Json.join sep (List.map f l))))%nat.
Proof.
  intros Hsep. induction 1 as [|x l Hx Hl IH]; [done|]. intros _.
  destruct l as [|y l].
  - simpl. lia.
  - change (List.map f (x :: y :: l)) with (f x :: List.map f (y :: l)).
    rewrite join_more by done. rewrite !length_append.
    specialize (IH ltac:(done)). simpl in *. lia.
Qed.

Lemma newline_indent_length level :
  (1 <= String.length (Json.newline_indent level))%nat.
Proof. unfold Json.newline_indent. simpl. lia. Qed.

Lemma dumps_length j level :
  (JsonRead.size j <= String.length (Json.dumps level j))%nat.
Proof.
  revert level.
  induction j as [s|n|items IH|fields IH] using json_nested_ind; intros level.
  - unfold Json.dumps, Json.encode_string. rewrite !length_append. simpl. lia.
  - destruct (str_of_int_head n) as (c & r & Hs & _). simpl. rewrite Hs. simpl. lia.
  - rewrite dumps_list. destruct items as [|x items]; [simpl; lia|].
    rewrite !length_append.
    pose proof (join_length_ge (Json.dumps (S level)) JsonRead.size
                  ("," +:+ Json.newline_indent (S level)) (x :: items)) as H.
    pose proof (newline_indent_length (S level)).
    pose proof (newline_indent_length level).
    assert (length (x :: items) + list_sum (List.map JsonRead.size (x :: items))
            <= S (String.length
                    (Json.join ("," +:+ Json.newline_indent (S level))
                       (List.map (Json.dumps (S level)) (x :: items)))))%nat as Hj.
    { apply H; [rewrite length_append; simpl; lia | | done].
      eapply Forall_impl; [exact IH|]. intros j Hj. apply Hj. }
    change (JsonRead.size (JList (x :: items)))
      with (S (length (x :: items)
               + list_sum (List.map JsonRead.size (x :: items)))).
    change (String.length "[") with 1%nat. change (String.length "]") with 1%nat.
    lia.
  - rewrite dumps_dict. destruct fields as [|kv fields]; [simpl; lia|].
    rewrite !length_append.
    pose proof (join_length_ge
                  (fun kv => Json.encode_string kv.1 +:+ ": "
                             +:+ Json.dumps (S level) kv.2)
                  (fun kv => JsonRead.size kv.2)
                  ("," +:+ Json.newline_indent (S level)) (kv :: fields)) as H.
    pose proof (newline_indent_length (S level)).
    pose proof (newline_indent_length level).
    assert (length (kv :: fields)
            + list_sum (List.map (fun kv => JsonRead.size kv.2) (kv :: fields))
            <= S (String.length
                    (Json.join ("," +:+ Json.newline_indent (S level))
                       (List.map (fun kv => Json.encode_string kv.1 +:+ ": "
                                            +:+ Json.dumps (S level) kv.2)
                          (kv :: fields)))))%nat as Hj.
    { apply H; [rewrite length_append; simpl; lia | | done].
      eapply Forall_impl; [exact IH|]. intros kv' Hkv. cbv beta in *.
      rewrite !length_append. specialize (Hkv (S level)). lia. }
    change (JsonRead.size (JDict (kv :: fields)))
      with (S (length (kv :: fields)
               + list_sum (List.map (fun kv => JsonRead.size kv.2) (kv :: fields)))).
    change (String.length "{") with 1%nat. change (String.length "}") with 1%nat.
    lia.
Qed.

(** A document made of a dumped value and a line feed denotes that
    value. *)
Lemma loads_dumps j :
  JsonRead.loads (Json.dumps 0 j +:+ String "010"%char "") = Some j.
Proof.
  unfold JsonRead.loads. rewrite read_value_dumps; [done| |done].
  rewrite length_append. pose proof (dumps_length j 0). lia.
Qed.

Lemma publication_of_json_of_publication p :
  publication_of_json (json_of_publication p) = Some p.
Proof. by destruct p. Qed.

(** ** The date, read back *)

Lemma year_digits_value y :
  1 <= y <= 9999 ->
  has_digits 4 (zfill 4 (Url.str_of_int y)) = true
  ∧ decimal_value 0 (zfill 4 (Url.str_of_int y)) = y.
Proof.
  intros Hy. apply zfill_digits; [|lia].
  change (10 ^ Z.of_nat 4) with 10000. lia.
Qed.

Lemma month_day_digits_value n :
  1 <= n <= 31 ->
  has_digits 2 (zfill 2 (Url.str_of_int n)) = true
  ∧ decimal_value 0 (zfill 2 (Url.str_of_int n)) = n.
Proof.
  intros Hn. apply zfill_digits; [|lia].
  change (10 ^ Z.of_nat 2) with 100. lia.
Qed.

Lemma isoformat_shape d : valid_date d -> is_iso_date (isoformat d) = true.
Proof.
  intros (Hy & Hm & Hd). unfold isoformat.
  destruct (year_digits_value _ Hy) as [Y _].
  destruct (month_day_digits_value (d_month d) ltac:(lia)) as [M _].
  destruct (month_day_digits_value (d_day d) ltac:(lia)) as [D _].
  destruct (zfill 4 _) as [|y1 [|y2 [|y3 [|y4 [|]]]]]; try discriminate Y.
  destruct (zfill 2 (Url.str_of_int (d_month d))) as [|m1 [|m2 [|]]];
    try discriminate M.
  destruct (zfill 2 (Url.str_of_int (d_day d))) as [|d1 [|d2 [|]]];
    try discriminate D.
  unfold has_digits in *. simpl in *.
  repeat match goal with
         | H : _ && _ = true |- _ => apply andb_true_iff in H; destruct H
         end.
  repeat match goal with
         | H : Str.isdecimal _ = true |- _ => rewrite H; clear H
         end.
  reflexivity.
Qed.

(** The text [isoformat] makes denotes the date it was made from. *)
Lemma date_of_iso_isoformat d :
  valid_date d -> date_of_iso (isoformat d) = Some d.
Proof.
  intros Hv. pose proof (isoformat_shape d Hv) as Hshape.
  destruct Hv as (Hy & Hm & Hd). unfold isoformat in *.
  destruct (year_digits_value _ Hy) as [Y Yv].
  destruct (month_day_digits_value (d_month d) ltac:(lia)) as [M Mv].
  destruct (month_day_digits_value (d_day d) ltac:(lia)) as [D Dv].
  destruct (zfill 4 _) as [|y1 [|y2 [|y3 [|y4 [|]]]]]; try discriminate Y.
  destruct (zfill 2 (Url.str_of_int (d_month d))) as [|m1 [|m2 [|]]];
    try discriminate M.
  destruct (zfill 2 (Url.str_of_int (d_day d))) as [|d1 [|d2 [|]]];
    try discriminate D.
  change (String y1 (String y2 (String y3 (String y4 ""))) +:+ "-"
          +:+ String m1 (String m2 "") +:+ "-" +:+ String d1 (String d2 ""))
    with (String y1 (String y2 (String y3 (String y4 (String "-"
            (String m1 (String m2 (String "-" (String d1 (String d2 ""))))))))))
    in *.
  unfold date_of_iso. rewrite Hshape, Yv, Mv, Dv. by destruct d.
Qed.

(** ** The data file *)

(** C5. What [write_output] writes, when the file system lets it, is
    one file under the output path, after the directory of the path was
    made.  Its content is a JSON text followed by a line feed: read by a
    JSON reader, it is an object with the three fields [source], the
    profile URL, [last_updated], the text of today's date, and
    [publications], an array with one object for each record, from which
    the record can be read back.  For a date of the calendar, the text
    of the date is of the form YYYY-MM-DD and denotes that date.  The
    publications are the given records sorted by year, largest first,
    records of one year in the order they were given.  When
    [write_output] raises, nothing is written. *)
Theorem output_document_shape (E : env)
    (fs : list event -> fs_request -> option os_failure)
    (output_path scholar_url : string)
    (publications : list publication) (tr : list event) :
  let sorted := sort_by_year_desc publications in
  let document := output_document E scholar_url publications in
  let data :=
    JDict [ ("source", JString scholar_url);
            ("last_updated", JString (isoformat (today E)));
            ("publications", JList (List.map json_of_publication sorted)) ] in
  (∀ r tr',
     write_output E fs output_path scholar_url publications tr = (r, tr') ->
     (r = Ok tt
      ∧ tr' = tr ++ [EvMakedirs (Path.dirname output_path);
                     EvWrite output_path document])
     ∨ ((∃ e, r = Raise e) ∧ writes tr' = writes tr))
  ∧ (Str.is_empty (Path.dirname output_path) = false ->
     Path.names_directory output_path = false ->
     fs tr (Makedirs (Path.dirname output_path)) = None ->
     fs (tr ++ [EvMakedirs (Path.dirname output_path)])
       (OpenForWriting output_path) = None ->
     write_output E fs output_path scholar_url publications tr
     = (Ok tt,
        tr ++ [EvMakedirs (Path.dirname output_path);
               EvWrite output_path document]))
  ∧ JsonRead.loads document = Some data
  ∧ (∀ fuel, (JsonRead.size data <= fuel)%nat ->
             JsonRead.read_value fuel document
             = Some (data, String "010"%char ""))
  ∧ List.map publication_of_json (List.map json_of_publication sorted)
    = List.map Some sorted
  ∧ (valid_date (today E) ->
     is_iso_date (isoformat (today E)) = true
     ∧ date_of_iso (isoformat (today E)) = Some (today E))
  ∧ Permutation sorted publications
  ∧ year_descending sorted
  ∧ (∀ y, of_year y sorted = of_year y publications).
Proof.
  intros sorted document data.
  split; [|split; [|split; [|split; [|split; [|split; [|split; [|split]]]]]]].
  - intros r tr' Hw.
    apply write_output_outcome in Hw
      as [(-> & -> & _) | (e & -> & _ & [-> | ->])].
    + by left.
    + right. split; [by eexists | done].
    + right. split; [by eexists|]. by rewrite writes_app, app_nil_r.
  - intros Hd Hn Hm Ho. rewrite write_output_cases. cbv zeta.
    by rewrite Hd, Hm, Ho, Hn.
  - apply (loads_dumps data).
  - intros fuel Hfuel. by apply (read_value_dumps data 0%nat fuel).
  - rewrite List.map_map. apply List.map_ext. intros p.
    apply publication_of_json_of_publication.
  - intros Hv. split; [by apply isoformat_shape | by apply date_of_iso_isoformat].
  - apply sort_by_year_desc_perm.
  - apply sort_by_year_desc_descending.
  - intros y. apply sort_by_year_desc_stable.
Qed.

Lemma output_document_shape_witness :
  write_output (Demo.world []) Demo.fs "_data/scholar_publications.json"
    scenario_url [Demo.pub "a"] []
  = (Ok tt,
     [] ++ [EvMakedirs (Path.dirname "_data/scholar_publications.json");
            EvWrite "_data/scholar_publications.json"
              (output_document (Demo.world []) scenario_url [Demo.pub "a"])])
  ∧ date_of_iso (isoformat (today (Demo.world []))) = Some (today (Demo.world [])).
Proof.
  pose proof (output_document_shape (Demo.world []) Demo.fs
                "_data/scholar_publications.json" scenario_url
                [Demo.pub "a"] []) as (_ & Hw & _ & _ & _ & Hd & _).
  split.
  - by apply Hw.
  - apply Hd. unfold valid_date. simpl. lia.
Defined.
